(** * DL/T 645-2007 meter protocol engine: a shallow embedding

    The development follows the Python sources [dlt645_read.py] (first
    [DLT645Protocol] class) and [dlt645_read_1.py]:
    address codec, +0x33 masking, checksum, frame construction and
    parsing, BCD value decoders and the retrying transport exchange.

    Python values are modelled as follows.
    - [bytes] / [bytearray]: [list byte] (every element is in 0..255 by type);
    - [int]: [Z]; a conversion back to a byte is the partial [byte_of_int],
      which is where Python raises [ValueError: bytes must be in range(0, 256)];
    - [str]: [list ascii] (the characters of an ASCII string, which is what
      a meter address and a rendered BCD value are);
    - exceptions: the type [exn], carried by the error monad [result];
    - [float]: the exact rational denoted by the parsed literal (type [Q],
      kept in lowest terms); Python rounds that rational to the nearest
      double, which is a function of the rational. *)

From Stdlib Require Import Ascii String ZArith NArith QArith Bool Lia List.
From Stdlib Require Import Strings.Byte.
Import ListNotations.

Local Open Scope Z_scope.

(** ** Exceptions and the error monad *)

Inductive exn : Type :=
| FrameTooShort        (* ValueError("Response too short: ...") *)
| InvalidFrameMarkers  (* ValueError("Invalid frame markers ...") *)
| InvalidSecondStart   (* ValueError("Invalid second start byte ...") *)
| LengthMismatch       (* ValueError("Length mismatch: ...") *)
| ChecksumMismatch     (* ValueError("Checksum mismatch ...") *)
| ByteRangeError       (* ValueError: byte(s) must be in range(0, 256) *)
| InvalidLiteral       (* ValueError: invalid literal for int() / float() *)
| IndexError           (* IndexError: index out of range *)
| OverflowError        (* OverflowError from int.to_bytes *)
| PortNotOpen          (* Exception("Serial port not open") *)
| NoResponse           (* Exception("No response from meter") *)
| SerialException.     (* an exception raised by the serial driver *)

Inductive result (A : Type) : Type :=
| Ok (a : A)
| Raise (e : exn).

Arguments Ok {A} a.
Arguments Raise {A} e.

Definition bind {A B : Type} (m : result A) (k : A -> result B) : result B :=
  match m with
  | Ok a => k a
  | Raise e => Raise e
  end.

Declare Scope py_scope.
Delimit Scope py_scope with py.
Notation "x <- m ;; k" := (bind m (fun x => k))
  (at level 61, m at next level, right associativity) : py_scope.
Local Open Scope py_scope.

(** [try: body except: handler] with a bare [except]. *)
Definition try_except {A : Type} (body : result A) (handler : A) : result A :=
  match body with
  | Ok a => Ok a
  | Raise _ => Ok handler
  end.

Fixpoint mapM {A B : Type} (f : A -> result B) (l : list A) : result (list B) :=
  match l with
  | [] => Ok []
  | a :: tl => b <- f a ;; bs <- mapM f tl ;; Ok (b :: bs)
  end.

(** A [for] loop threading an accumulator, stopping at the first exception. *)
Fixpoint for_each {A S : Type} (l : list A) (body : S -> A -> result S) (s : S)
  : result S :=
  match l with
  | [] => Ok s
  | a :: tl => s' <- body s a ;; for_each tl body s'
  end.

(** ** Bytes and integers *)

Definition bytes := list byte.

Definition int_of_byte (b : byte) : Z := Z.of_N (Byte.to_N b).

Definition byte_of_int (z : Z) : option byte :=
  if z <? 0 then None else Byte.of_N (Z.to_N z).

(** One element of [bytes([...])] or the argument of [bytearray.append]. *)
Definition as_byte (z : Z) : result byte :=
  match byte_of_int z with
  | Some b => Ok b
  | None => Raise ByteRangeError
  end.

(** [bytes([z0, z1, ...])] *)
Definition py_bytes (l : list Z) : result bytes := mapM as_byte l.

(** [frame.append(z)] on a bytearray *)
Definition bytearray_append (frame : bytes) (z : Z) : result bytes :=
  b <- as_byte z ;; Ok (frame ++ [b]).

(** [sum(data)]: a left fold from 0. *)
Definition py_sum (l : list Z) : Z := fold_left Z.add l 0.

(** [seq[i]] for a non-negative index *)
Definition getitem (l : bytes) (i : nat) : result Z :=
  match nth_error l i with
  | Some b => Ok (int_of_byte b)
  | None => Raise IndexError
  end.

(** [seq[-1]] *)
Definition getitem_last (l : bytes) : result Z :=
  match l with
  | [] => Raise IndexError
  | _ => getitem l (length l - 1)
  end.

(** [seq[i:j]] for non-negative bounds: clamps, never raises. *)
Definition slice {A : Type} (l : list A) (i j : nat) : list A :=
  firstn (j - i) (skipn i l).

(** The remainder of [z] modulo 256 as a byte. *)
Definition low_byte (z : Z) : byte :=
  match Byte.of_N (Z.to_N (z mod 256)) with
  | Some b => b
  | None => x00
  end.

Fixpoint le_bytes (n : Z) (len : nat) : bytes :=
  match len with
  | O => []
  | S k => low_byte n :: le_bytes (n / 256) k
  end.

(** [n.to_bytes(len, byteorder='little')] *)
Definition to_bytes_little (n : Z) (len : nat) : result bytes :=
  if n <? 0 then Raise OverflowError
  else if 256 ^ Z.of_nat len <=? n then Raise OverflowError
  else Ok (le_bytes n len).

(** [int.from_bytes(bs, byteorder='little')] *)
Fixpoint from_bytes_little (bs : bytes) : Z :=
  match bs with
  | [] => 0
  | b :: tl => int_of_byte b + 256 * from_bytes_little tl
  end.

(** ** Strings: [str.zfill], slices and [int(s, 16)] *)

Definition str := list ascii.

Definition lit (s : string) : str := list_ascii_of_string s.

Fixpoint str_eqb (s t : str) : bool :=
  match s, t with
  | [], [] => true
  | c :: s', d :: t' => (Ascii.eqb c d && str_eqb s' t')%bool
  | _, _ => false
  end.

Definition is_sign (c : ascii) : bool :=
  (Ascii.eqb c "+" || Ascii.eqb c "-")%bool.

(** [s.zfill(width)]: pads on the left with ['0'], after a leading sign. *)
Definition zfill (s : str) (width : nat) : str :=
  if (width <=? length s)%nat then s
  else
    let fill := repeat "0"%char (width - length s) in
    match s with
    | c :: tl => if is_sign c then c :: fill ++ tl else fill ++ s
    | [] => fill
    end.

Definition is_space (c : ascii) : bool :=
  let n := nat_of_ascii c in
  ((9 <=? n)%nat && (n <=? 13)%nat || (n =? 32)%nat)%bool.

Definition dec_digit (c : ascii) : option Z :=
  let n := nat_of_ascii c in
  if ((48 <=? n) && (n <=? 57))%nat%bool then Some (Z.of_nat n - 48) else None.

Definition hex_digit (c : ascii) : option Z :=
  let n := nat_of_ascii c in
  if ((48 <=? n) && (n <=? 57))%nat%bool then Some (Z.of_nat n - 48)
  else if ((65 <=? n) && (n <=? 70))%nat%bool then Some (Z.of_nat n - 55)
  else if ((97 <=? n) && (n <=? 102))%nat%bool then Some (Z.of_nat n - 87)
  else None.

Fixpoint lstrip (s : str) : str :=
  match s with
  | c :: tl => if is_space c then lstrip tl else s
  | [] => []
  end.

Definition strip (s : str) : str := rev (lstrip (rev (lstrip s))).

(** Hexadecimal digits with single underscores allowed between digits. *)
Fixpoint hex_digits (acc : Z) (s : str) : option Z :=
  match s with
  | [] => None
  | c :: tl =>
      match hex_digit c with
      | None => None
      | Some d =>
          let acc' := 16 * acc + d in
          match tl with
          | [] => Some acc'
          | u :: tl' =>
              if Ascii.eqb u "_" then hex_digits acc' tl' else hex_digits acc' tl
          end
      end
  end.

(** [int(s, 16)]: surrounding whitespace, an optional sign, an optional
    [0x] / [0X] prefix (itself optionally followed by one underscore),
    then the digits. *)
Definition py_int16 (s : str) : result Z :=
  let s := strip s in
  let '(sgn, s) :=
    match s with
    | c :: tl => if Ascii.eqb c "-" then (-1, tl)
                 else if Ascii.eqb c "+" then (1, tl) else (1, s)
    | [] => (1, s)
    end in
  let s :=
    match s with
    | z :: x :: tl =>
        if (Ascii.eqb z "0" && (Ascii.eqb x "x" || Ascii.eqb x "X"))%bool then
          match tl with
          | u :: tl' => if Ascii.eqb u "_" then tl' else tl
          | [] => tl
          end
        else s
    | _ => s
    end in
  match hex_digits 0 s with
  | Some v => Ok (sgn * v)
  | None => Raise InvalidLiteral
  end.

(** ** The protocol object *)

Definition FRAME_START : Z := 0x68.
Definition FRAME_END : Z := 0x16.
Definition CMD_READ_DATA : Z := 0x11.

(** The attribute of [self] the frame codec reads. *)
Record DLT645Protocol : Type := { address : bytes }.

(** [range(0, 12, 2)] *)
Definition range_0_12_2 : list nat := [0; 2; 4; 6; 8; 10]%nat.

Definition _format_address (addr : str) : result bytes :=
  let addr := zfill addr 12 in
  addr_bytes <-
    for_each range_0_12_2
      (fun addr_bytes i =>
         byte_val <- py_int16 (slice addr i (i + 2)) ;;
         bytearray_append addr_bytes byte_val)
      [] ;;
  Ok (rev addr_bytes).

Definition _add_33h (data : bytes) : result bytes :=
  py_bytes (map (fun b => int_of_byte b + 0x33) data).

Definition _sub_33h (data : bytes) : result bytes :=
  py_bytes (map (fun b => int_of_byte b - 0x33) data).

Definition _calculate_checksum (data : bytes) : Z :=
  Z.land (py_sum (map int_of_byte data)) 0xFF.

(** The dictionary returned by [_parse_response]. *)
Record parsed : Type := {
  r_address : bytes;
  r_control : Z;
  r_data_id : option Z;
  r_data : bytes;
  r_raw : bytes
}.

(** *** dlt645_read.py, first class *)
Module Read.

Definition _build_frame (self : DLT645Protocol) (control_code : Z)
  (data_id : option Z) (data : option bytes) : result bytes :=
  let frame : bytes := [] in
  frame <- bytearray_append frame FRAME_START ;;
  let frame := frame ++ address self in
  frame <- bytearray_append frame FRAME_START ;;
  frame <- bytearray_append frame control_code ;;
  let data_field : bytes := [] in
  data_field <-
    match data_id with
    | Some id => di_bytes <- to_bytes_little id 4 ;; Ok (data_field ++ di_bytes)
    | None => Ok data_field
    end ;;
  let data_field :=
    match data with
    | Some d => data_field ++ d
    | None => data_field
    end in
  data_field <-
    match data_field with
    | [] => Ok data_field
    | _ => _add_33h data_field
    end ;;
  frame <- bytearray_append frame (Z.of_nat (length data_field)) ;;
  let frame := frame ++ data_field in
  let cs := _calculate_checksum frame in
  frame <- bytearray_append frame cs ;;
  frame <- bytearray_append frame FRAME_END ;;
  Ok frame.

Definition _parse_response (self : DLT645Protocol) (response : bytes)
  : result parsed :=
  if (length response <? 12)%nat then Raise FrameTooShort
  else
    b0 <- getitem response 0 ;;
    bad_markers <-
      (if negb (b0 =? FRAME_START) then Ok true
       else bl <- getitem_last response ;; Ok (negb (bl =? FRAME_END))) ;;
    if bad_markers : bool then Raise InvalidFrameMarkers
    else
      b7 <- getitem response 7 ;;
      if negb (b7 =? FRAME_START) then Raise InvalidSecondStart
      else
        let addr := slice response 1 7 in
        control <- getitem response 8 ;;
        length_ <- getitem response 9 ;;
        let expected_len := 12 + length_ in
        if negb (Z.of_nat (length response) =? expected_len)
        then Raise LengthMismatch
        else
          let data_field := slice response 10 (Z.to_nat (10 + length_)) in
          checksum_received <- getitem response (Z.to_nat (10 + length_)) ;;
          let checksum_calculated :=
            _calculate_checksum (slice response 0 (Z.to_nat (10 + length_))) in
          if negb (checksum_received =? checksum_calculated)
          then Raise ChecksumMismatch
          else
            data_field <-
              match data_field with
              | [] => Ok data_field
              | _ => _sub_33h data_field
              end ;;
            let '(data_id, data) :=
              if (4 <=? length data_field)%nat
              then (Some (from_bytes_little (slice data_field 0 4)),
                    skipn 4 data_field)
              else (None, data_field) in
            Ok {| r_address := addr; r_control := control;
                  r_data_id := data_id; r_data := data; r_raw := response |}.

End Read.

(** *** dlt645_read_1.py *)
Module Read1.

Definition _build_frame (self : DLT645Protocol) (control_code : Z)
  (data_id : Z) : result bytes :=
  let frame : bytes := [] in
  frame <- bytearray_append frame FRAME_START ;;
  let frame := frame ++ address self in
  frame <- bytearray_append frame FRAME_START ;;
  frame <- bytearray_append frame control_code ;;
  di_bytes <- to_bytes_little data_id 4 ;;
  data_field <- _add_33h di_bytes ;;
  frame <- bytearray_append frame (Z.of_nat (length data_field)) ;;
  let frame := frame ++ data_field in
  let cs := _calculate_checksum frame in
  frame <- bytearray_append frame cs ;;
  frame <- bytearray_append frame FRAME_END ;;
  Ok frame.

(** This variant has no length check and no ['address'] entry (modelled
    as the empty sequence). *)
Definition _parse_response (self : DLT645Protocol) (response : bytes)
  : result parsed :=
  if (length response <? 12)%nat then Raise FrameTooShort
  else
    b0 <- getitem response 0 ;;
    bad_markers <-
      (if negb (b0 =? FRAME_START) then Ok true
       else bl <- getitem_last response ;; Ok (negb (bl =? FRAME_END))) ;;
    if bad_markers : bool then Raise InvalidFrameMarkers
    else
      b7 <- getitem response 7 ;;
      if negb (b7 =? FRAME_START) then Raise InvalidSecondStart
      else
        control <- getitem response 8 ;;
        length_ <- getitem response 9 ;;
        let data_field := slice response 10 (Z.to_nat (10 + length_)) in
        checksum_received <- getitem response (Z.to_nat (10 + length_)) ;;
        let checksum_calculated :=
          _calculate_checksum (slice response 0 (Z.to_nat (10 + length_))) in
        if negb (checksum_received =? checksum_calculated)
        then Raise ChecksumMismatch
        else
          data_field <-
            match data_field with
            | [] => Ok data_field
            | _ => _sub_33h data_field
            end ;;
          let '(data_id, data) :=
            if (4 <=? length data_field)%nat
            then (Some (from_bytes_little (slice data_field 0 4)),
                  skipn 4 data_field)
            else (None, data_field) in
          Ok {| r_address := []; r_control := control;
                r_data_id := data_id; r_data := data; r_raw := response |}.

End Read1.

(** ** Value decoders *)

Definition hex_char (d : Z) : ascii :=
  if d <? 10 then ascii_of_nat (Z.to_nat (48 + d))
  else ascii_of_nat (Z.to_nat (55 + d)).

(** [f"{byte:02X}"] for a byte value: two upper-case hexadecimal digits. *)
Definition format_02X (b : Z) : str := [hex_char (b / 16); hex_char (b mod 16)].

(** [s[:-n]] and [s[-n:]] for [n > 0]. *)
Definition drop_last {A : Type} (n : nat) (s : list A) : list A :=
  firstn (length s - n) s.

Definition take_last {A : Type} (n : nat) (s : list A) : list A :=
  skipn (length s - n) s.

(** The loop [for byte in reversed(data): value_str += f"{byte:02X}"]. *)
Definition render_reversed (data : bytes) : str :=
  fold_left (fun value_str byte => value_str ++ format_02X (int_of_byte byte))
            (rev data) [].

Definition dot : ascii := "."%char.

(** *** [float(s)]

    The strings the decoders pass to [float] are made of the characters
    [0-9], [A-F] and [.] only (lemma [decoder_string_alphabet] below), so
    the model covers the part of Python's grammar reachable over that
    alphabet and over signs in the exponent:
    [digits [. [digits]] [exponent] | . digits [exponent]] with
    [exponent ::= (e | E) [+ | -] digits].  Anything else raises. *)

Fixpoint span_digits (s : str) : list Z * str :=
  match s with
  | [] => ([], [])
  | c :: tl =>
      match dec_digit c with
      | Some d => let '(ds, rest) := span_digits tl in (d :: ds, rest)
      | None => ([], s)
      end
  end.

Definition digits_value (ds : list Z) : Z :=
  fold_left (fun acc d => 10 * acc + d) ds 0.

(** The rational [m * 10 ^ e], in lowest terms. *)
Definition decimal_value (m e : Z) : Q :=
  Qred (if 0 <=? e then (m * 10 ^ e) # 1 else m # Z.to_pos (10 ^ (- e))).

Definition is_e (c : ascii) : bool := (Ascii.eqb c "E" || Ascii.eqb c "e")%bool.

Definition is_nil {A : Type} (l : list A) : bool :=
  match l with [] => true | _ => false end.

Definition float_exponent (s : str) : result Z :=
  let '(sgn, s) :=
    match s with
    | c :: tl => if Ascii.eqb c "-" then (-1, tl)
                 else if Ascii.eqb c "+" then (1, tl) else (1, s)
    | [] => (1, s)
    end in
  let '(ds, rest) := span_digits s in
  if (is_nil ds || negb (is_nil rest))%bool then Raise InvalidLiteral
  else Ok (sgn * digits_value ds).

Definition py_float (s : str) : result Q :=
  let '(ip, rest) := span_digits s in
  match rest with
  | [] =>
      if is_nil ip then Raise InvalidLiteral
      else Ok (decimal_value (digits_value ip) 0)
  | c :: r =>
      if Ascii.eqb c dot then
        let '(fp, rest2) := span_digits r in
        if (is_nil ip && is_nil fp)%bool then Raise InvalidLiteral
        else
          let m := digits_value (ip ++ fp) in
          let scale := Z.of_nat (length fp) in
          match rest2 with
          | [] => Ok (decimal_value m (- scale))
          | e :: r2 =>
              if is_e e then
                ex <- float_exponent r2 ;; Ok (decimal_value m (ex - scale))
              else Raise InvalidLiteral
          end
      else if is_e c then
        if is_nil ip then Raise InvalidLiteral
        else ex <- float_exponent r ;; Ok (decimal_value (digits_value ip) ex)
      else Raise InvalidLiteral
  end.

(** The four fixed-width decoders of dlt645_read.py.  In dlt645_read_1.py
    and dlt645_single_phase.py the first test reads
    [not data or len(data) < n], which is the same test on a byte
    sequence. *)

Definition decode_energy (data : bytes) : result (option Q) :=
  if (length data <? 4)%nat then Ok None
  else
    let value_str := render_reversed (slice data 0 4) in
    let value_str :=
      if (2 <=? length value_str)%nat
      then drop_last 2 value_str ++ [dot] ++ take_last 2 value_str
      else value_str in
    try_except (v <- py_float value_str ;; Ok (Some v)) None.

Definition decode_voltage (data : bytes) : result (option Q) :=
  if (length data <? 2)%nat then Ok None
  else
    let value_str := render_reversed (slice data 0 2) in
    let value_str :=
      if (1 <=? length value_str)%nat
      then drop_last 1 value_str ++ [dot] ++ take_last 1 value_str
      else value_str in
    try_except (v <- py_float value_str ;; Ok (Some v)) None.

Definition decode_current (data : bytes) : result (option Q) :=
  if (length data <? 3)%nat then Ok None
  else
    let value_str := render_reversed (slice data 0 3) in
    let value_str :=
      if (3 <=? length value_str)%nat
      then drop_last 3 value_str ++ [dot] ++ take_last 3 value_str
      else value_str in
    try_except (v <- py_float value_str ;; Ok (Some v)) None.

Definition decode_power (data : bytes) : result (option Q) :=
  if (length data <? 3)%nat then Ok None
  else
    let value_str := render_reversed (slice data 0 3) in
    let value_str :=
      if (4 <=? length value_str)%nat
      then drop_last 4 value_str ++ [dot] ++ take_last 4 value_str
      else value_str in
    try_except (v <- py_float value_str ;; Ok (Some v)) None.

(** [decode_generic_bcd] of dlt645_read_1.py and dlt645_single_phase.py. *)
Definition decode_generic_bcd (data : bytes) (decimal_places : Z)
  : result (option Q) :=
  if is_nil data then Ok None
  else
    let value_str := render_reversed data in
    let value_str :=
      if ((0 <? decimal_places)
          && (decimal_places <=? Z.of_nat (length value_str)))%bool
      then drop_last (Z.to_nat decimal_places) value_str ++ [dot]
           ++ take_last (Z.to_nat decimal_places) value_str
      else value_str in
    try_except
      (if (negb (is_nil value_str)
           && negb (str_eqb value_str [dot]))%bool
       then v <- py_float value_str ;; Ok (Some v)
       else Ok None)
      None.

(** ** Transport: [_send_frame] and [read_data] of dlt645_read_1.py

    The serial line is an environment: for the k-th pass through the body
    of the retry loop it says what the driver does.  Time is kept as
    [Sleep] events (milliseconds) in the trace of the calls made. *)

Inductive event : Type :=
| ResetInput
| ResetOutput
| Sleep (ms : Z)
| Write (bs : bytes).

Inductive attempt : Type :=
| Received (chunks : list bytes)  (* the chunks read until the line went quiet *)
| Fault (call : nat).             (* the driver raises at this serial call:
                                     0 reset_input_buffer, 1 reset_output_buffer,
                                     2 write(wakeup), 3 write(frame),
                                     4 and above: in_waiting / read *)

Definition wakeup : bytes := [xfe; xfe; xfe; xfe].

(** One pass through the body of the [try]: the calls made and the
    accumulated response, or the exception of the driver.  The polling of
    the accumulation loop ([in_waiting], [read], the 50 ms naps) is not
    traced: the environment gives the chunks it ends up with. *)
Definition exchange_once (frame : bytes) (a : attempt)
  : list event * result bytes :=
  match a with
  | Fault 0 => ([], Raise SerialException)
  | Fault 1 => ([ResetInput], Raise SerialException)
  | Fault 2 => ([ResetInput; ResetOutput; Sleep 300], Raise SerialException)
  | Fault 3 =>
      ([ResetInput; ResetOutput; Sleep 300; Write wakeup; Sleep 100],
       Raise SerialException)
  | Fault _ =>
      ([ResetInput; ResetOutput; Sleep 300; Write wakeup; Sleep 100;
        Write frame; Sleep 600], Raise SerialException)
  | Received chunks =>
      ([ResetInput; ResetOutput; Sleep 300; Write wakeup; Sleep 100;
        Write frame; Sleep 600], Ok (concat chunks))
  end.

Module Transport.

(** [for attempt in range(retries)]: [todo] iterations remain, the loop
    variable is [attempt]. *)
Fixpoint retry_loop (frame : bytes) (line : nat -> attempt) (retries : Z)
  (todo attempt : nat) : list event * result bytes :=
  match todo with
  | O => ([], Raise NoResponse)
  | S todo' =>
      let '(tr, r) := exchange_once frame (line attempt) in
      let pause :=
        if Z.of_nat attempt <? retries - 1 then [Sleep 1000] else [] in
      match r with
      | Ok (b :: response) => (tr, Ok (b :: response))
      | Ok [] =>
          let '(tr', r') := retry_loop frame line retries todo' (S attempt) in
          (tr ++ pause ++ tr', r')
      | Raise e =>
          if Z.of_nat attempt <? retries - 1 then
            let '(tr', r') := retry_loop frame line retries todo' (S attempt) in
            (tr ++ pause ++ tr', r')
          else (tr, Raise e)
      end
  end.

Definition _send_frame (port_open : bool) (frame : bytes) (retries : Z)
  (line : nat -> attempt) : list event * result bytes :=
  if negb port_open then ([], Raise PortNotOpen)
  else retry_loop frame line retries (Z.to_nat retries) 0.

(** [read_data]: the frame is built outside the [try]; [_send_frame] is
    called with its default [retries=1]. *)
Definition read_data (self : DLT645Protocol) (port_open : bool) (data_id : Z)
  (line : nat -> attempt) : list event * result (option parsed) :=
  match Read1._build_frame self CMD_READ_DATA data_id with
  | Raise e => ([], Raise e)
  | Ok frame =>
      let '(tr, r) := _send_frame port_open frame 1 line in
      match (response <- r ;; Read1._parse_response self response) with
      | Ok p => (tr ++ [Sleep 1500], Ok (Some p))
      | Raise _ => (tr ++ [Sleep 500], Ok None)
      end
  end.

End Transport.

(** ** The reading session: [read_all_meter_data] of dlt645_read_1.py

    The readings of [data_log] are a dictionary from key to value, kept in
    insertion order.  Console output, the time stamp and the optional JSON
    export are left out, and so is the closing of the port at the end.
    The serial line is given per request: [lines n] is what the line does
    during the [n]-th call of [read_data]. *)
Module Session.

(** Data identifiers of the class. *)
Definition DI_TOTAL_ACTIVE_ENERGY : Z := 0x00000000.
Definition DI_FORWARD_ACTIVE : Z := 0x00010000.
Definition DI_REVERSE_ACTIVE : Z := 0x00020000.
Definition DI_REMAINING_ENERGY : Z := 0x00900100.
Definition DI_VOLTAGE : Z := 0x02010100.
Definition DI_CURRENT : Z := 0x02020100.
Definition DI_ACTIVE_POWER : Z := 0x02030000.
Definition DI_REACTIVE_POWER : Z := 0x02040000.
Definition DI_POWER_FACTOR : Z := 0x02060000.
Definition DI_FREQUENCY : Z := 0x02800002.
Definition DI_TARIFF1_ENERGY : Z := 0x00010100.
Definition DI_TARIFF2_ENERGY : Z := 0x00010200.
Definition DI_TARIFF3_ENERGY : Z := 0x00010300.
Definition DI_TARIFF4_ENERGY : Z := 0x00010400.
Definition DI_MAX_DEMAND : Z := 0x01010000.
Definition DI_PHASE_A_VOLTAGE : Z := 0x02010101.
Definition DI_PHASE_B_VOLTAGE : Z := 0x02010102.
Definition DI_PHASE_C_VOLTAGE : Z := 0x02010103.
Definition DI_PHASE_A_CURRENT : Z := 0x02020101.
Definition DI_PHASE_B_CURRENT : Z := 0x02020102.
Definition DI_PHASE_C_CURRENT : Z := 0x02020103.
Definition DI_PHASE_A_POWER : Z := 0x02030101.
Definition DI_PHASE_B_POWER : Z := 0x02030102.
Definition DI_PHASE_C_POWER : Z := 0x02030103.
Definition DI_PHASE_A_REACTIVE : Z := 0x02040101.
Definition DI_PHASE_B_REACTIVE : Z := 0x02040102.
Definition DI_PHASE_C_REACTIVE : Z := 0x02040103.
Definition DI_PHASE_A_POWER_FACTOR : Z := 0x02060101.
Definition DI_PHASE_B_POWER_FACTOR : Z := 0x02060102.
Definition DI_PHASE_C_POWER_FACTOR : Z := 0x02060103.

(** A Python [dict] with string keys, in insertion order. *)
Definition dict := list (str * Q).

Fixpoint dict_set (d : dict) (key : str) (v : Q) : dict :=
  match d with
  | [] => [(key, v)]
  | (k, w) :: tl => if str_eqb k key then (key, v) :: tl
                    else (k, w) :: dict_set tl key v
  end.

Fixpoint dict_get (d : dict) (key : str) : option Q :=
  match d with
  | [] => None
  | (k, w) :: tl => if str_eqb k key then Some w else dict_get tl key
  end.

(** [s.lower()] and [s.replace(" ", "_")] on ASCII strings. *)
Definition lower (s : str) : str :=
  map (fun c => let n := nat_of_ascii c in
                if ((65 <=? n) && (n <=? 90))%nat%bool
                then ascii_of_nat (n + 32) else c) s.

Definition replace_space (s : str) : str :=
  map (fun c => if Ascii.eqb c " " then "_"%char else c) s.

(** The truth value of a decoder's result in [if v:]: [None] and 0.0 are
    false. *)
Definition truthy (v : option Q) : option Q :=
  match v with
  | Some q => if Qeq_bool q 0 then None else Some q
  | None => None
  end.

(** The state a session threads: the serial calls made, the number of
    requests made, the readings logged. *)
Record state : Type := {
  trace : list event;
  requests : nat;
  readings : dict
}.

Definition M (A : Type) : Type := state -> state * result A.

Definition ret {A : Type} (a : A) : M A := fun s => (s, Ok a).

Definition bindM {A B : Type} (m : M A) (k : A -> M B) : M B :=
  fun s => let '(s', r) := m s in
           match r with
           | Ok a => k a s'
           | Raise e => (s', Raise e)
           end.

Definition lift {A : Type} (r : result A) : M A := fun s => (s, r).

Fixpoint for_eachM {A : Type} (l : list A) (body : A -> M unit) : M unit :=
  match l with
  | [] => ret tt
  | a :: tl => bindM (body a) (fun _ => for_eachM tl body)
  end.

Section Body.

Variable lines : nat -> nat -> attempt.
Variable meter : DLT645Protocol.

(** [meter.read_data(di)] on the open port. *)
Definition read_data (di : Z) : M (option parsed) :=
  fun s =>
    let '(tr, r) := Transport.read_data meter true di (lines (requests s)) in
    ({| trace := trace s ++ tr; requests := S (requests s);
        readings := readings s |}, r).

(** [data_log['readings'][key] = v] *)
Definition set_reading (key : str) (v : Q) : M unit :=
  fun s => ({| trace := trace s; requests := requests s;
               readings := dict_set (readings s) key v |}, Ok tt).

(** [if v: data_log['readings'][key] = v] *)
Definition log_if_truthy (key : str) (v : option Q) : M unit :=
  match truthy v with
  | Some q => set_reading key q
  | None => ret tt
  end.

(** The recurring
    [if result: v = meter.decode_x(result['data']); if v: ...[key] = v]. *)
Definition log_decoded (decode : bytes -> result (option Q)) (key : str)
  (result_ : option parsed) : M unit :=
  match result_ with
  | Some r => bindM (lift (decode (r_data r))) (log_if_truthy key)
  | None => ret tt
  end.

(** The variant [if result and result['data']: ...] of the power factor
    and the frequency. *)
Definition log_decoded_nonempty (decode : bytes -> result (option Q))
  (key : str) (result_ : option parsed) : M unit :=
  match result_ with
  | Some r => if is_nil (r_data r) then ret tt
              else bindM (lift (decode (r_data r))) (log_if_truthy key)
  | None => ret tt
  end.

Definition tariff_dis : list (Z * str) :=
  [(DI_TARIFF1_ENERGY, lit "Tariff 1"); (DI_TARIFF2_ENERGY, lit "Tariff 2");
   (DI_TARIFF3_ENERGY, lit "Tariff 3"); (DI_TARIFF4_ENERGY, lit "Tariff 4")].

Definition phases_v : list (Z * str) :=
  [(DI_PHASE_A_VOLTAGE, lit "A"); (DI_PHASE_B_VOLTAGE, lit "B");
   (DI_PHASE_C_VOLTAGE, lit "C")].

Definition phases_i : list (Z * str) :=
  [(DI_PHASE_A_CURRENT, lit "A"); (DI_PHASE_B_CURRENT, lit "B");
   (DI_PHASE_C_CURRENT, lit "C")].

Definition phases_p : list (Z * str) :=
  [(DI_PHASE_A_POWER, lit "A"); (DI_PHASE_B_POWER, lit "B");
   (DI_PHASE_C_POWER, lit "C")].

Definition phases_q : list (Z * str) :=
  [(DI_PHASE_A_REACTIVE, lit "A"); (DI_PHASE_B_REACTIVE, lit "B");
   (DI_PHASE_C_REACTIVE, lit "C")].

Definition phases_pf : list (Z * str) :=
  [(DI_PHASE_A_POWER_FACTOR, lit "A"); (DI_PHASE_B_POWER_FACTOR, lit "B");
   (DI_PHASE_C_POWER_FACTOR, lit "C")].

Declare Scope session_scope.
Notation "x <~ m ;; k" := (bindM m (fun x => k))
  (at level 61, m at next level, right associativity) : session_scope.
Local Open Scope session_scope.

(** The statements between [meter.connect()] and [meter.disconnect()]. *)
Definition read_everything : M unit :=
  result_ <~ read_data DI_TOTAL_ACTIVE_ENERGY ;;
  _ <~ log_decoded decode_energy (lit "total_active_energy") result_ ;;
  result_ <~ read_data DI_FORWARD_ACTIVE ;;
  _ <~ log_decoded decode_energy (lit "forward_active_energy") result_ ;;
  result_ <~ read_data DI_REVERSE_ACTIVE ;;
  _ <~ log_decoded decode_energy (lit "reverse_active_energy") result_ ;;
  result_ <~ read_data DI_REMAINING_ENERGY ;;
  _ <~ log_decoded decode_energy (lit "remaining_energy") result_ ;;
  _ <~ for_eachM tariff_dis (fun '(di, label) =>
         result_ <~ read_data di ;;
         log_decoded decode_energy (replace_space (lower label)) result_) ;;
  result_ <~ read_data DI_VOLTAGE ;;
  _ <~ log_decoded decode_voltage (lit "voltage") result_ ;;
  _ <~ for_eachM phases_v (fun '(di, phase) =>
         result_ <~ read_data di ;;
         log_decoded decode_voltage
           (lit "phase_" ++ lower phase ++ lit "_voltage") result_) ;;
  result_ <~ read_data DI_CURRENT ;;
  _ <~ log_decoded decode_current (lit "current") result_ ;;
  _ <~ for_eachM phases_i (fun '(di, phase) =>
         result_ <~ read_data di ;;
         log_decoded decode_current
           (lit "phase_" ++ lower phase ++ lit "_current") result_) ;;
  result_ <~ read_data DI_ACTIVE_POWER ;;
  _ <~ log_decoded decode_power (lit "active_power") result_ ;;
  _ <~ for_eachM phases_p (fun '(di, phase) =>
         result_ <~ read_data di ;;
         log_decoded decode_power
           (lit "phase_" ++ lower phase ++ lit "_active_power") result_) ;;
  result_ <~ read_data DI_REACTIVE_POWER ;;
  _ <~ log_decoded decode_power (lit "reactive_power") result_ ;;
  _ <~ for_eachM phases_q (fun '(di, phase) =>
         result_ <~ read_data di ;;
         log_decoded decode_power
           (lit "phase_" ++ lower phase ++ lit "_reactive_power") result_) ;;
  result_ <~ read_data DI_POWER_FACTOR ;;
  _ <~ log_decoded_nonempty (fun d => decode_generic_bcd d 3)
         (lit "power_factor") result_ ;;
  _ <~ for_eachM phases_pf (fun '(di, phase) =>
         result_ <~ read_data di ;;
         log_decoded (fun d => decode_generic_bcd d 3)
           (lit "phase_" ++ lower phase ++ lit "_power_factor") result_) ;;
  result_ <~ read_data DI_FREQUENCY ;;
  _ <~ log_decoded_nonempty (fun d => decode_generic_bcd d 2)
         (lit "frequency") result_ ;;
  result_ <~ read_data DI_MAX_DEMAND ;;
  log_decoded decode_power (lit "max_demand") result_.

End Body.

(** [meter.connect()]: opening the port may raise; then a 0.3 s pause and
    both buffers are reset. *)
Definition connect (opens : bool) : M unit :=
  fun s =>
    if opens then
      ({| trace := trace s ++ [Sleep 300; ResetInput; ResetOutput];
          requests := requests s; readings := readings s |}, Ok tt)
    else (s, Raise SerialException).

(** [read_all_meter_data]: the protocol object is made before the [try],
    so an address the codec refuses raises to the caller; every exception
    after that gives [(False, None)]. *)
Definition read_all_meter_data (lines : nat -> nat -> attempt) (address_ : str)
  (opens : bool) : result (list event * (bool * option dict)) :=
  addr <- _format_address address_ ;;
  let meter := {| address := addr |} in
  let data_log := {| trace := []; requests := 0; readings := [] |} in
  let '(s, r) :=
    bindM (connect opens) (fun _ => read_everything lines meter) data_log in
  match r with
  | Ok _ => Ok (trace s, (true, Some (readings s)))
  | Raise _ => Ok (trace s, (false, None))
  end.

End Session.


(** ** Discovery: [discover_data_ids] of dlt645_read_1.py

    Each dictionary of [found] is kept as the identifier and the payload
    its three entries are rendered from.  The [while] loop runs on fuel:
    [None] says that the loop has not ended within [fuel] tests of its
    condition. *)
Module Discovery.

Section Loop.

Variable meter : DLT645Protocol.
Variable lines : nat -> nat -> attempt.
Variable end_ step : Z.

Fixpoint discover_loop (fuel : nat) (di : Z) (n : nat) (tr : list event)
  (found : list (Z * bytes)) : option (list event * list (Z * bytes)) :=
  match fuel with
  | O => None
  | S fuel' =>
      if di <=? end_ then
        let '(t, r) := Transport.read_data meter true di (lines n) in
        let found' :=
          match r with
          | Ok (Some p) =>
              if is_nil (r_data p) then found else found ++ [(di, r_data p)]
          | Ok None => found
          | Raise _ => found           (* except: pass *)
          end in
        discover_loop fuel' (di + step) (S n) (tr ++ t) found'
      else Some (tr, found)
  end.

End Loop.

Definition discover_data_ids (meter : DLT645Protocol)
  (lines : nat -> nat -> attempt) (fuel : nat) (start end_ step : Z)
  : option (list event * list (Z * bytes)) :=
  discover_loop meter lines end_ step fuel start 0 [] [].

End Discovery.

(** * Definitions used to state the properties *)

(** ** Masking *)

(** The bytes [_add_33h] accepts: at most 0xCC. *)
Definition maskable (data : bytes) : bool :=
  forallb (fun b => int_of_byte b <=? 0xCC) data.

(** The bytes [_sub_33h] accepts: at least 0x33. *)
Definition unmaskable (data : bytes) : bool :=
  forallb (fun b => 0x33 <=? int_of_byte b) data.

(** ** The shape of a frame

    Every sequence of at least 12 bytes splits into a 10-byte header, a
    body (the data field) and the two trailing bytes. *)

Definition hd10 (b0 a0 a1 a2 a3 a4 a5 b7 cb lb : byte) : bytes :=
  [b0; a0; a1; a2; a3; a4; a5; b7; cb; lb].

Definition shaped (b0 a0 a1 a2 a3 a4 a5 b7 cb lb : byte) (m : bytes)
  (csb eb : byte) : bytes :=
  hd10 b0 a0 a1 a2 a3 a4 a5 b7 cb lb ++ m ++ [csb; eb].

(** What [_parse_response] does once the checksum has passed. *)
Definition unmask_and_split (addr : bytes) (control : Z) (response m : bytes)
  : result parsed :=
  data_field <- match m with
                | [] => Ok m
                | _ => _sub_33h m
                end ;;
  let '(data_id, data) :=
    if (4 <=? length data_field)%nat
    then (Some (from_bytes_little (slice data_field 0 4)), skipn 4 data_field)
    else (None, data_field) in
  Ok {| r_address := addr; r_control := control;
        r_data_id := data_id; r_data := data; r_raw := response |}.

(** ** Frame construction *)

(** The [data] argument of [_build_frame]: [None] when it is left out. *)
Definition payload_of (data : option bytes) : bytes :=
  match data with Some d => d | None => [] end.

(** The bytes the [data_id] argument contributes to the data field. *)
Definition identifier_bytes (data_id : option Z) : result bytes :=
  match data_id with Some id => to_bytes_little id 4 | None => Ok [] end.

(** ** Single-bit corruption of a built frame *)

(** The byte [b] with its bit [k] inverted. *)
Definition flip_bit (b : byte) (k : nat) : byte :=
  low_byte (Z.lxor (int_of_byte b) (Z.shiftl 1 (Z.of_nat k))).

Fixpoint update_nth {A : Type} (f : A -> A) (i : nat) (l : list A) : list A :=
  match l, i with
  | [], _ => []
  | a :: tl, O => f a :: tl
  | a :: tl, S j => a :: update_nth f j tl
  end.

(** The frame with bit [k] of its byte [i] inverted. *)
Definition flip_at (frame : bytes) (i k : nat) : bytes :=
  update_nth (fun b => flip_bit b k) i frame.

(** Which check of [_parse_response] catches a flip at position [i] of a
    frame of [len] bytes. *)
Definition expected_rejection (len i : nat) : exn :=
  if ((i =? 0) || (i =? len - 1))%nat%bool then InvalidFrameMarkers
  else if (i =? 7)%nat then InvalidSecondStart
  else if (i =? 9)%nat then LengthMismatch
  else ChecksumMismatch.

(** ** The order of the checks in [_parse_response] *)

(** Byte [i] of the response as a number. *)
Definition nth_int (response : bytes) (i : nat) : Z :=
  int_of_byte (nth i response x00).

(** FrameCodec.parse's failures as the specification lists them, in its
    order: too short, outer markers, second start marker, declared length
    against the bytes present, checksum over bytes [0, 10 + length). *)
Definition first_failed_check (response : bytes) : option exn :=
  let n := length response in
  if (n <? 12)%nat then Some FrameTooShort
  else if (negb (nth_int response 0 =? 0x68)
           || negb (nth_int response (n - 1) =? 0x16))%bool
  then Some InvalidFrameMarkers
  else if negb (nth_int response 7 =? 0x68) then Some InvalidSecondStart
  else
    let declared := nth_int response 9 in
    if negb (declared =? Z.of_nat (n - 12)) then Some LengthMismatch
    else
      let covered := (10 + Z.to_nat declared)%nat in
      if negb (nth_int response covered
               =? py_sum (map int_of_byte (firstn covered response)) mod 256)
      then Some ChecksumMismatch
      else None.

(** ** The address codec *)

Definition is_dec_char (c : ascii) : bool :=
  match dec_digit c with Some _ => true | None => false end.

Definition is_hex_char (c : ascii) : bool :=
  match hex_digit c with Some _ => true | None => false end.

(** The value of a hexadecimal digit (0 for any other character). *)
Definition hex_value (c : ascii) : Z :=
  match hex_digit c with Some d => d | None => 0 end.

(** AddressCodec as the specification words it: left-pad with zeros to 12
    digits, split into two-character pairs in order, read each pair as a
    byte, reverse. *)
Definition pad12 (s : str) : str := repeat "0"%char (12 - length s) ++ s.

Fixpoint pairs (s : str) : list (ascii * ascii) :=
  match s with
  | a :: b :: tl => (a, b) :: pairs tl
  | _ => []
  end.

Definition pair_byte (p : ascii * ascii) : byte :=
  low_byte (16 * hex_value (fst p) + hex_value (snd p)).

Definition address_codec (s : str) : bytes :=
  rev (map pair_byte (firstn 6 (pairs (pad12 s)))).

(** The loop of [_format_address] on the padded string. *)
Definition address_loop (addr : str) : result bytes :=
  for_each range_0_12_2
    (fun addr_bytes i =>
       byte_val <- py_int16 (slice addr i (i + 2)) ;;
       bytearray_append addr_bytes byte_val)
    [].

(** The characters [hex_digit] accepts, with their values. *)
Definition hex_table : list (ascii * Z) :=
  [("0"%char, 0); ("1"%char, 1); ("2"%char, 2); ("3"%char, 3); ("4"%char, 4);
   ("5"%char, 5); ("6"%char, 6); ("7"%char, 7); ("8"%char, 8); ("9"%char, 9);
   ("A"%char, 10); ("B"%char, 11); ("C"%char, 12); ("D"%char, 13);
   ("E"%char, 14); ("F"%char, 15);
   ("a"%char, 10); ("b"%char, 11); ("c"%char, 12); ("d"%char, 13);
   ("e"%char, 14); ("f"%char, 15)].

(** ** BCD values *)

(** Both nibbles are decimal digits. *)
Definition is_bcd (data : bytes) : bool :=
  forallb (fun b => (int_of_byte b / 16 <? 10) && (int_of_byte b mod 16 <? 10))%bool
          data.

(** The number a BCD sequence denotes, least significant byte first. *)
Fixpoint bcd_value (data : bytes) : Z :=
  match data with
  | [] => 0
  | b :: tl => 10 * (int_of_byte b / 16) + int_of_byte b mod 16 + 100 * bcd_value tl
  end.

(** The nibbles in the order they are rendered. *)
Definition nibbles (data : bytes) : list Z :=
  flat_map (fun b => [int_of_byte b / 16; int_of_byte b mod 16]) (rev data).

(** The characters [format_02X] produces. *)
Definition upper_hex (c : ascii) : bool :=
  existsb (Ascii.eqb c) (lit "0123456789ABCDEF").

Definition float_alphabet (c : ascii) : bool := (upper_hex c || Ascii.eqb c dot)%bool.


(** ** The retrying exchange *)

(** The calls of one complete attempt: reset both buffers, settle, wake,
    send, wait, accumulate. *)
Definition full_sequence (frame : bytes) : list event :=
  [ResetInput; ResetOutput; Sleep 300; Write wakeup; Sleep 100;
   Write frame; Sleep 600].

(** An attempt during which no byte arrives. *)
Definition is_silent (a : attempt) : bool :=
  match a with
  | Received chunks => is_nil (concat chunks)
  | Fault _ => false
  end.

(** The calls made by [n] silent attempts that exhaust the loop: the full
    sequence [n] times, with a one-second pause between two attempts. *)
Fixpoint exhausted_trace (frame : bytes) (n : nat) : list event :=
  match n with
  | O => []
  | S k =>
      full_sequence frame
      ++ match k with O => [] | S _ => [Sleep 1000] end
      ++ exhausted_trace frame k
  end.

(** The calls made by [k] silent attempts that are followed by another. *)
Fixpoint waited_trace (frame : bytes) (k : nat) : list event :=
  match k with
  | O => []
  | S k' => full_sequence frame ++ [Sleep 1000] ++ waited_trace frame k'
  end.

(** A line that stays silent during the first attempt and answers with two
    chunks during the second. *)
Definition late_line (k : nat) : attempt :=
  match k with
  | O => Received []
  | _ => Received [[x68; x01]; [x00]]
  end.

(** A line whose first answer is a single stray byte and whose later
    answers are the well-formed response to the request. *)
Definition garbled_then_good (k : nat) : attempt :=
  match k with
  | O => Received [[x00]]
  | _ => Received [[x68; x01; x00; x00; x00; x00; x00; x68; x91; x04;
                    x33; x33; x33; x33; x32; x16]]
  end.

(** ** Requests and their data field *)

(** The bytes an identifier occupies in the data field. *)
Definition id_bytes (data_id : option Z) : bytes :=
  match data_id with Some id => le_bytes id 4 | None => [] end.

(** The data field of a request before masking. *)
Definition data_field_of (data_id : option Z) (data : option bytes) : bytes :=
  id_bytes data_id ++ payload_of data.

(** The identifier, when there is one, fits 4 bytes. *)
Definition identifier_fits (data_id : option Z) : bool :=
  match data_id with
  | Some id => ((0 <=? id) && (id <? 2 ^ 32))%bool
  | None => true
  end.

(** How [_parse_response] splits an unmasked data field: four bytes or
    more start with an identifier, fewer are payload only. *)
Definition split_data_field (df : bytes) : option Z * bytes :=
  if (4 <=? length df)%nat
  then (Some (from_bytes_little (firstn 4 df)), skipn 4 df)
  else (None, df).

(** Masking and unmasking as arithmetic modulo 256. *)
Definition mask_mod (data : bytes) : bytes :=
  map (fun b => low_byte (int_of_byte b + 0x33)) data.

Definition unmask_mod (m : bytes) : bytes :=
  map (fun b => low_byte (int_of_byte b - 0x33)) m.

(** The dictionary of dlt645_read_1.py's parser for the same response: it
    has no ['address'] entry. *)
Definition without_address (p : parsed) : parsed :=
  {| r_address := []; r_control := r_control p; r_data_id := r_data_id p;
     r_data := r_data p; r_raw := r_raw p |}.

(** ** Every byte *)

Definition all_bytes : bytes := map (fun n => low_byte (Z.of_nat n)) (seq 0 256).

Definition is_none {A : Type} (r : result (option A)) : bool :=
  match r with Ok None => true | _ => false end.

(** ** Address pairs *)





(** ** Counting the calls of an exchange *)

Definition is_write (e : event) : bool :=
  match e with Write _ => true | _ => false end.

Definition is_reset_input (e : event) : bool :=
  match e with ResetInput => true | _ => false end.

Definition count_events (f : event -> bool) (tr : list event) : nat :=
  length (filter f tr).

(** An attempt that ends in a driver exception. *)
Definition is_fault (a : attempt) : bool :=
  match a with Fault _ => true | Received _ => false end.

(** An attempt that gives no response: silence or a driver exception. *)
Definition is_quiet (a : attempt) : bool := (is_silent a || is_fault a)%bool.

(** ** The reading session *)

(** One request of the session: the identifier read, the decoder applied
    to the payload, the key the value is logged under. *)
Record entry : Type := {
  e_di : Z;
  e_decode : bytes -> result (option Q);
  e_key : str
}.

(** What [read_all_meter_data] requests, in order. *)
Definition catalog : list entry :=
  [ {| e_di := 0x00000000; e_decode := decode_energy;
       e_key := lit "total_active_energy" |};
    {| e_di := 0x00010000; e_decode := decode_energy;
       e_key := lit "forward_active_energy" |};
    {| e_di := 0x00020000; e_decode := decode_energy;
       e_key := lit "reverse_active_energy" |};
    {| e_di := 0x00900100; e_decode := decode_energy;
       e_key := lit "remaining_energy" |};
    {| e_di := 0x00010100; e_decode := decode_energy; e_key := lit "tariff_1" |};
    {| e_di := 0x00010200; e_decode := decode_energy; e_key := lit "tariff_2" |};
    {| e_di := 0x00010300; e_decode := decode_energy; e_key := lit "tariff_3" |};
    {| e_di := 0x00010400; e_decode := decode_energy; e_key := lit "tariff_4" |};
    {| e_di := 0x02010100; e_decode := decode_voltage; e_key := lit "voltage" |};
    {| e_di := 0x02010101; e_decode := decode_voltage;
       e_key := lit "phase_a_voltage" |};
    {| e_di := 0x02010102; e_decode := decode_voltage;
       e_key := lit "phase_b_voltage" |};
    {| e_di := 0x02010103; e_decode := decode_voltage;
       e_key := lit "phase_c_voltage" |};
    {| e_di := 0x02020100; e_decode := decode_current; e_key := lit "current" |};
    {| e_di := 0x02020101; e_decode := decode_current;
       e_key := lit "phase_a_current" |};
    {| e_di := 0x02020102; e_decode := decode_current;
       e_key := lit "phase_b_current" |};
    {| e_di := 0x02020103; e_decode := decode_current;
       e_key := lit "phase_c_current" |};
    {| e_di := 0x02030000; e_decode := decode_power;
       e_key := lit "active_power" |};
    {| e_di := 0x02030101; e_decode := decode_power;
       e_key := lit "phase_a_active_power" |};
    {| e_di := 0x02030102; e_decode := decode_power;
       e_key := lit "phase_b_active_power" |};
    {| e_di := 0x02030103; e_decode := decode_power;
       e_key := lit "phase_c_active_power" |};
    {| e_di := 0x02040000; e_decode := decode_power;
       e_key := lit "reactive_power" |};
    {| e_di := 0x02040101; e_decode := decode_power;
       e_key := lit "phase_a_reactive_power" |};
    {| e_di := 0x02040102; e_decode := decode_power;
       e_key := lit "phase_b_reactive_power" |};
    {| e_di := 0x02040103; e_decode := decode_power;
       e_key := lit "phase_c_reactive_power" |};
    {| e_di := 0x02060000; e_decode := fun d => decode_generic_bcd d 3;
       e_key := lit "power_factor" |};
    {| e_di := 0x02060101; e_decode := fun d => decode_generic_bcd d 3;
       e_key := lit "phase_a_power_factor" |};
    {| e_di := 0x02060102; e_decode := fun d => decode_generic_bcd d 3;
       e_key := lit "phase_b_power_factor" |};
    {| e_di := 0x02060103; e_decode := fun d => decode_generic_bcd d 3;
       e_key := lit "phase_c_power_factor" |};
    {| e_di := 0x02800002; e_decode := fun d => decode_generic_bcd d 2;
       e_key := lit "frequency" |};
    {| e_di := 0x01010000; e_decode := decode_power; e_key := lit "max_demand" |} ].

(** No two requests log under the same key. *)
Definition keys_checked : bool :=
  forallb (fun i =>
    forallb (fun j =>
      implb (str_eqb (nth i (map e_key catalog) []) (nth j (map e_key catalog) []))
            (i =? j)%nat)
      (seq 0 30))
    (seq 0 30).

(** The value one request contributes to the log, from what the line does
    during that request alone: the decoded payload of a response that
    parses, unless it is none or zero. *)
Definition logged (meter : DLT645Protocol) (e : entry) (line : nat -> attempt)
  : option Q :=
  match Transport.read_data meter true (e_di e) line with
  | (_, Ok (Some r)) =>
      match e_decode e (r_data r) with
      | Ok v => Session.truthy v
      | Raise _ => None
      end
  | _ => None
  end.

(** The pauses [read_data] ends with: 1.5 s after a success, 0.5 s after a
    failure. *)
Definition is_pacing (e : event) : bool :=
  match e with
  | Sleep ms => ((ms =? 1500) || (ms =? 500))%bool
  | _ => false
  end.

(** No value of the dictionary is zero. *)
Definition all_nonzero (d : Session.dict) : Prop :=
  Forall (fun kv => Qeq_bool (snd kv) 0 = false) d.

(** The state of a session after [n] requests on the given lines. *)
Definition session_inv (meter : DLT645Protocol) (lines : nat -> nat -> attempt)
  (n : nat) (s : Session.state) : Prop :=
  Session.requests s = n /\
  count_events is_pacing (Session.trace s) = n /\
  (forall i e, nth_error catalog i = Some e ->
    Session.dict_get (Session.readings s) (e_key e)
    = if (i <? n)%nat then logged meter e (lines i) else None) /\
  all_nonzero (Session.readings s).

(** The session statement [m] runs to its end from every state satisfying
    [P], and leaves a state satisfying [Q]. *)
Definition runs {A : Type} (P : Session.state -> Prop) (m : Session.M A)
  (Q : A -> Session.state -> Prop) : Prop :=
  forall s, P s -> exists a s', m s = (s', Ok a) /\ Q a s'.


(** A line on which the meter answers the first request with
    123456.78 kWh, the second with 0.00 kWh, and nothing afterwards. *)
Definition first_answers (n : nat) (k : nat) : attempt :=
  match n with
  | 0%nat => Received [[x68; x01; x00; x00; x00; x00; x00; x68; x91; x08;
                        x33; x33; x33; x33; xab; x89; x67; x45; x16; x16]]
  | 1%nat => Received [[x68; x01; x00; x00; x00; x00; x00; x68; x91; x08;
                        x33; x33; x34; x33; x33; x33; x33; x33; x03; x16]]
  | _ => Received []
  end.

(** ** Discovery *)




(** * Properties *)

(** ** Bytes and integers *)

Lemma int_of_byte_range (b : byte) : 0 <= int_of_byte b < 256.
Proof.
  unfold int_of_byte. pose proof (Byte.to_N_bounded b). lia.
Qed.

Lemma byte_of_int_of_byte (b : byte) : byte_of_int (int_of_byte b) = Some b.
Proof.
  unfold byte_of_int, int_of_byte.
  destruct (Z.ltb_spec (Z.of_N (Byte.to_N b)) 0) as [H | _]; [lia |].
  rewrite N2Z.id. apply Byte.of_to_N.
Qed.

Lemma byte_of_int_Some (z : Z) (b : byte) :
  byte_of_int z = Some b -> int_of_byte b = z.
Proof.
  unfold byte_of_int, int_of_byte.
  destruct (Z.ltb_spec z 0) as [H | H]; [discriminate |].
  intros E. apply Byte.to_of_N in E. rewrite E. apply Z2N.id. exact H.
Qed.

Lemma byte_of_int_None (z : Z) :
  byte_of_int z = None <-> z < 0 \/ 255 < z.
Proof.
  unfold byte_of_int.
  destruct (Z.ltb_spec z 0) as [H | H].
  - split; [intros _; left; exact H | reflexivity].
  - rewrite Byte.of_N_None_iff. lia.
Qed.

Lemma byte_of_int_total (z : Z) :
  0 <= z < 256 -> exists b, byte_of_int z = Some b /\ int_of_byte b = z.
Proof.
  intros Hz. destruct (byte_of_int z) as [b |] eqn:E.
  - exists b. split; [reflexivity | apply byte_of_int_Some; exact E].
  - apply byte_of_int_None in E. lia.
Qed.

Lemma int_of_byte_inj (a b : byte) : int_of_byte a = int_of_byte b -> a = b.
Proof.
  intros E. pose proof (byte_of_int_of_byte a) as Ha.
  rewrite E, byte_of_int_of_byte in Ha. congruence.
Qed.

Lemma as_byte_int (b : byte) : as_byte (int_of_byte b) = Ok b.
Proof. unfold as_byte. rewrite byte_of_int_of_byte. reflexivity. Qed.

Lemma as_byte_Ok (z : Z) (b : byte) : as_byte z = Ok b -> int_of_byte b = z.
Proof.
  unfold as_byte. destruct (byte_of_int z) eqn:E; [| discriminate].
  intros [= <-]. apply byte_of_int_Some. exact E.
Qed.

Lemma as_byte_range (z : Z) :
  0 <= z < 256 -> exists b, as_byte z = Ok b /\ int_of_byte b = z.
Proof.
  intros Hz. destruct (byte_of_int_total z Hz) as (b & E & Hb).
  exists b. unfold as_byte. rewrite E. split; [reflexivity | exact Hb].
Qed.

Lemma as_byte_out_of_range (z : Z) :
  z < 0 \/ 255 < z -> as_byte z = Raise ByteRangeError.
Proof.
  intros Hz. unfold as_byte.
  rewrite (proj2 (byte_of_int_None z) Hz). reflexivity.
Qed.

Lemma low_byte_int (z : Z) : int_of_byte (low_byte z) = z mod 256.
Proof.
  unfold low_byte.
  assert (Hr : 0 <= z mod 256 < 256) by (apply Z.mod_pos_bound; lia).
  destruct (Byte.of_N (Z.to_N (z mod 256))) as [b |] eqn:E.
  - unfold int_of_byte. apply Byte.to_of_N in E. rewrite E. lia.
  - apply Byte.of_N_None_iff in E. lia.
Qed.

Lemma land_255 (z : Z) : Z.land z 0xFF = z mod 256.
Proof. change 0xFF with (Z.ones 8). rewrite Z.land_ones by lia. reflexivity. Qed.

Lemma fold_add_acc (l : list Z) (a : Z) : fold_left Z.add l a = a + py_sum l.
Proof.
  unfold py_sum. revert a. induction l as [| x l IH]; intros a; cbn.
  - lia.
  - rewrite (IH (a + x)), (IH x). lia.
Qed.

Lemma py_sum_cons (x : Z) (l : list Z) : py_sum (x :: l) = x + py_sum l.
Proof. unfold py_sum at 1. cbn. rewrite fold_add_acc. lia. Qed.

Lemma py_sum_app (l1 l2 : list Z) : py_sum (l1 ++ l2) = py_sum l1 + py_sum l2.
Proof.
  induction l1 as [| x l1 IH]; cbn [app].
  - reflexivity.
  - rewrite !py_sum_cons, IH. lia.
Qed.

Lemma checksum_mod (data : bytes) :
  _calculate_checksum data = py_sum (map int_of_byte data) mod 256.
Proof. unfold _calculate_checksum. apply land_255. Qed.

Lemma checksum_range (data : bytes) : 0 <= _calculate_checksum data < 256.
Proof. rewrite checksum_mod. apply Z.mod_pos_bound. lia. Qed.

(** ** Masking *)

Lemma mapM_length {A B : Type} (f : A -> result B) (l : list A) (r : list B) :
  mapM f l = Ok r -> length r = length l.
Proof.
  revert r. induction l as [| a l IH]; intros r; cbn.
  - intros [= <-]. reflexivity.
  - destruct (f a); cbn; [| discriminate].
    destruct (mapM f l); cbn; [| discriminate].
    intros [= <-]. cbn. f_equal. apply IH. reflexivity.
Qed.

Lemma add_33h_length (data m : bytes) : _add_33h data = Ok m -> length m = length data.
Proof.
  unfold _add_33h, py_bytes. intros H. apply mapM_length in H.
  rewrite length_map in H. exact H.
Qed.

Lemma add_33h_maskable (data : bytes) :
  maskable data = true -> exists m, _add_33h data = Ok m.
Proof.
  unfold _add_33h, py_bytes. induction data as [| b data IH]; cbn.
  - intros _. exists []. reflexivity.
  - intros H. apply andb_true_iff in H as [Hb Hd].
    apply Z.leb_le in Hb. pose proof (int_of_byte_range b) as Hr.
    destruct (as_byte_range (int_of_byte b + 51)) as (c & Hc & _); [lia |].
    destruct (IH Hd) as (m & Hm).
    exists (c :: m). rewrite Hc. cbn. rewrite Hm. reflexivity.
Qed.

Lemma add_33h_overflow (pre post : bytes) (b : byte) :
  maskable pre = true -> 0xCC < int_of_byte b ->
  _add_33h (pre ++ b :: post) = Raise ByteRangeError.
Proof.
  unfold _add_33h, py_bytes. intros Hpre Hb.
  induction pre as [| a pre IH]; cbn.
  - rewrite as_byte_out_of_range by lia. reflexivity.
  - cbn in Hpre. apply andb_true_iff in Hpre as [Ha Hpre].
    apply Z.leb_le in Ha. pose proof (int_of_byte_range a) as Hr.
    destruct (as_byte_range (int_of_byte a + 51)) as (c & Hc & _); [lia |].
    rewrite Hc. cbn. rewrite (IH Hpre). reflexivity.
Qed.

Lemma sub_33h_underflow (pre post : bytes) (b : byte) :
  unmaskable pre = true -> int_of_byte b < 0x33 ->
  _sub_33h (pre ++ b :: post) = Raise ByteRangeError.
Proof.
  unfold _sub_33h, py_bytes. intros Hpre Hb.
  induction pre as [| a pre IH]; cbn.
  - rewrite as_byte_out_of_range by lia. reflexivity.
  - cbn in Hpre. apply andb_true_iff in Hpre as [Ha Hpre].
    apply Z.leb_le in Ha. pose proof (int_of_byte_range a) as Hr.
    destruct (as_byte_range (int_of_byte a - 51)) as (c & Hc & _); [lia |].
    rewrite Hc. cbn. rewrite (IH Hpre). reflexivity.
Qed.

(** Whenever masking succeeds, unmasking its result gives the data back. *)
Lemma sub_add_33h (data m : bytes) : _add_33h data = Ok m -> _sub_33h m = Ok data.
Proof.
  unfold _add_33h, _sub_33h, py_bytes. revert m.
  induction data as [| b data IH]; intros m; cbn.
  - intros [= <-]. reflexivity.
  - destruct (as_byte (int_of_byte b + 51)) as [c |] eqn:Hc; cbn; [| discriminate].
    destruct (mapM as_byte (map (fun b0 => int_of_byte b0 + 51) data)) as [m' |];
      cbn; [| discriminate].
    intros [= <-]. cbn. apply as_byte_Ok in Hc. rewrite Hc.
    replace (int_of_byte b + 51 - 51) with (int_of_byte b) by lia.
    rewrite as_byte_int. cbn. rewrite (IH m' eq_refl). reflexivity.
Qed.

(** C2, the part the code does implement: on every data field whose bytes
    are at most 0xCC, masking succeeds and unmasking recovers the field. *)
Lemma mask_unmask_in_range (data : bytes) :
  maskable data = true ->
  exists m, _add_33h data = Ok m /\ _sub_33h m = Ok data.
Proof.
  intros H. destruct (add_33h_maskable data H) as (m & Hm).
  exists m. split; [exact Hm | apply sub_add_33h; exact Hm].
Qed.

(** C2: masking is not total.  [_add_33h] adds 0x33 without reducing modulo
    256, so [bytes(...)] raises on any byte above 0xCC; [_sub_33h] raises on
    any byte below 0x33.  Evaluated at [0xCD] and [0x32]. *)
Theorem C2_masking_raises_out_of_range :
  _add_33h [xcd] = Raise ByteRangeError /\
  _sub_33h [x32] = Raise ByteRangeError /\
  (forall b : byte, 0xCC < int_of_byte b -> _add_33h [b] = Raise ByteRangeError) /\
  (forall b : byte, int_of_byte b < 0x33 -> _sub_33h [b] = Raise ByteRangeError).
Proof.
  split; [vm_compute; reflexivity |].
  split; [vm_compute; reflexivity |].
  split; intros b Hb.
  - apply (add_33h_overflow [] [] b); [reflexivity | exact Hb].
  - apply (sub_33h_underflow [] [] b); [reflexivity | exact Hb].
Qed.

(** ** The shape of a frame

    Every sequence of at least 12 bytes splits into a 10-byte header, a
    body and the two trailing bytes; [_parse_response] is evaluated once
    and for all on that shape. *)

Section FrameShape.

Variables b0 a0 a1 a2 a3 a4 a5 b7 cb lb : byte.
Variable m : bytes.
Variables csb eb : byte.

Local Abbreviation hd10 := (hd10 b0 a0 a1 a2 a3 a4 a5 b7 cb lb).
Local Abbreviation shaped := (shaped b0 a0 a1 a2 a3 a4 a5 b7 cb lb m csb eb).

Lemma shaped_length : length shaped = (12 + length m)%nat.
Proof. unfold shaped. rewrite !length_app. cbn. lia. Qed.

Lemma shaped_last : getitem_last shaped = Ok (int_of_byte eb).
Proof.
  change (getitem_last shaped) with (getitem shaped (length shaped - 1)).
  rewrite shaped_length. unfold getitem, shaped.
  rewrite nth_error_app2 by (unfold hd10; cbn [length]; lia).
  rewrite nth_error_app2 by (unfold hd10; cbn [length]; lia).
  replace (12 + length m - 1 - length hd10 - length m)%nat with 1%nat
    by (unfold hd10; cbn [length]; lia).
  reflexivity.
Qed.

Lemma shaped_checksum_byte :
  getitem shaped (10 + length m) = Ok (int_of_byte csb).
Proof.
  unfold getitem, shaped.
  rewrite nth_error_app2 by (unfold hd10; cbn [length]; lia).
  rewrite nth_error_app2 by (unfold hd10; cbn [length]; lia).
  replace (10 + length m - length hd10 - length m)%nat with 0%nat by (unfold hd10; cbn [length]; lia).
  reflexivity.
Qed.

Lemma shaped_data : slice shaped 10 (10 + length m) = m.
Proof.
  unfold slice. replace (10 + length m - 10)%nat with (length m) by lia.
  change (skipn 10 shaped) with (m ++ [csb; eb]).
  rewrite firstn_app, firstn_all, Nat.sub_diag. cbn. apply app_nil_r.
Qed.

Lemma shaped_summed : slice shaped 0 (10 + length m) = hd10 ++ m.
Proof.
  unfold slice, shaped. rewrite Nat.sub_0_r. cbn [skipn].
  rewrite app_assoc.
  replace (10 + length m)%nat with (length (hd10 ++ m))
    by (rewrite length_app; reflexivity).
  rewrite firstn_app, firstn_all, Nat.sub_diag. cbn [firstn]. apply app_nil_r.
Qed.

(** The five checks of [_parse_response], in the order they are made. *)
Lemma parse_shaped (self : DLT645Protocol) :
  Read._parse_response self shaped =
    if (negb (int_of_byte b0 =? FRAME_START)
        || negb (int_of_byte eb =? FRAME_END))%bool
    then Raise InvalidFrameMarkers
    else if negb (int_of_byte b7 =? FRAME_START) then Raise InvalidSecondStart
    else if negb (Z.of_nat (length m) =? int_of_byte lb) then Raise LengthMismatch
    else if negb (int_of_byte csb =? _calculate_checksum (hd10 ++ m))
    then Raise ChecksumMismatch
    else unmask_and_split [a0; a1; a2; a3; a4; a5] (int_of_byte cb) shaped m.
Proof.
  unfold Read._parse_response.
  rewrite shaped_length.
  replace (12 + length m <? 12)%nat with false
    by (symmetry; apply Nat.ltb_ge; lia).
  change (getitem shaped 0) with (Ok (int_of_byte b0)).
  change (getitem shaped 7) with (Ok (int_of_byte b7)).
  change (getitem shaped 8) with (Ok (int_of_byte cb)).
  change (getitem shaped 9) with (Ok (int_of_byte lb)).
  change (slice shaped 1 7) with [a0; a1; a2; a3; a4; a5].
  cbn [bind]. rewrite shaped_last. cbn [bind].
  destruct (int_of_byte b0 =? FRAME_START); cbn [negb orb bind]; [| reflexivity].
  destruct (int_of_byte eb =? FRAME_END); cbn [negb]; [| reflexivity].
  destruct (int_of_byte b7 =? FRAME_START); cbn [negb]; [| reflexivity].
  destruct (Z.eqb_spec (Z.of_nat (length m)) (int_of_byte lb)) as [E | E].
  - replace (Z.of_nat (12 + length m) =? 12 + int_of_byte lb) with true
      by (symmetry; apply Z.eqb_eq; lia).
    cbn [negb]. rewrite <- E.
    replace (Z.to_nat (10 + Z.of_nat (length m))) with (10 + length m)%nat by lia.
    rewrite shaped_checksum_byte, shaped_data, shaped_summed. cbn [bind].
    destruct (int_of_byte csb =? _calculate_checksum (hd10 ++ m)); cbn [negb];
      reflexivity.
  - replace (Z.of_nat (12 + length m) =? 12 + int_of_byte lb) with false
      by (symmetry; apply Z.eqb_neq; lia).
    reflexivity.
Qed.

End FrameShape.

(** Any response of at least 12 bytes has that shape. *)
Lemma shape_of_long_response (response : bytes) :
  (12 <= length response)%nat ->
  exists b0 a0 a1 a2 a3 a4 a5 b7 cb lb m csb eb,
    response = shaped b0 a0 a1 a2 a3 a4 a5 b7 cb lb m csb eb.
Proof.
  intros H.
  destruct response as [| b0 [| a0 [| a1 [| a2 [| a3 [| a4 [| a5 [| b7 [| cb
    [| lb rest]]]]]]]]]]; cbn in H; try lia.
  assert (Hr : (2 <= length rest)%nat) by lia.
  clear H. revert Hr.
  induction rest as [| x rest IH] using rev_ind; cbn; [lia |].
  destruct rest as [| y rest _] using rev_ind; [cbn; lia |].
  intros _. exists b0, a0, a1, a2, a3, a4, a5, b7, cb, lb, rest, y, x.
  unfold shaped, hd10. cbn [app]. rewrite <- app_assoc. reflexivity.
Qed.

(** ** Frame construction *)

Lemma add_33h_guard (df : bytes) :
  match df with [] => Ok df | _ :: _ => _add_33h df end = _add_33h df.
Proof. destruct df; reflexivity. Qed.

Lemma build_frame_eq (self : DLT645Protocol) (c : Z) (data_id : option Z)
  (data : option bytes) :
  Read._build_frame self c data_id data =
    (cb <- as_byte c ;;
     idb <- identifier_bytes data_id ;;
     m <- _add_33h (idb ++ payload_of data) ;;
     lb <- as_byte (Z.of_nat (length m)) ;;
     csb <- as_byte (_calculate_checksum (x68 :: address self ++ [x68; cb; lb] ++ m)) ;;
     Ok (x68 :: address self ++ [x68; cb; lb] ++ m ++ [csb; x16])).
Proof.
  unfold Read._build_frame, bytearray_append.
  change (as_byte FRAME_START) with (Ok x68).
  change (as_byte FRAME_END) with (Ok x16).
  cbn [bind app].
  destruct (as_byte c) as [cb |]; cbn [bind]; [| reflexivity].
  assert (Hdf : forall idb : bytes,
             match data with Some d => idb ++ d | None => idb end
             = idb ++ payload_of data).
  { intros idb. destruct data; cbn [payload_of]; [reflexivity |].
    symmetry. apply app_nil_r. }
  assert (Hfr : forall (lb : byte) (m : bytes),
             ((x68 :: (address self ++ [x68]) ++ [cb]) ++ [lb]) ++ m
             = x68 :: address self ++ x68 :: cb :: lb :: m).
  { intros lb m. cbn [app]. repeat rewrite <- app_assoc. reflexivity. }
  unfold identifier_bytes.
  destruct data_id as [id |];
    [destruct (to_bytes_little id 4) as [idb |]; cbn [bind]; [| reflexivity] |];
    cbn [bind]; rewrite Hdf, add_33h_guard.
  all: match goal with
       | |- context [_add_33h ?df] => destruct (_add_33h df) as [m |]
       end; cbn [bind]; [| reflexivity].
  all: destruct (as_byte (Z.of_nat (length m))) as [lb |]; cbn [bind];
         [| reflexivity].
  all: rewrite Hfr.
  all: match goal with
       | |- context [as_byte (_calculate_checksum ?fr)] =>
           destruct (as_byte (_calculate_checksum fr)) as [csb |]
       end; cbn [bind]; [| reflexivity].
  all: cbn [app]; repeat rewrite <- app_assoc; reflexivity.
Qed.

Lemma le_bytes_length (n : Z) (k : nat) : length (le_bytes n k) = k.
Proof. revert n. induction k as [| k IH]; intros n; cbn; [| rewrite IH]; reflexivity. Qed.

Lemma from_le_bytes (k : nat) (n : Z) :
  from_bytes_little (le_bytes n k) = n mod 256 ^ Z.of_nat k.
Proof.
  revert n. induction k as [| k IH]; intros n.
  - cbn. symmetry. apply Z.mod_1_r.
  - cbn [le_bytes from_bytes_little]. rewrite low_byte_int, IH.
    rewrite Nat2Z.inj_succ, Z.pow_succ_r by lia.
    rewrite Z.rem_mul_r by lia. reflexivity.
Qed.

Lemma to_bytes_little_ok (n : Z) (k : nat) :
  0 <= n < 256 ^ Z.of_nat k ->
  to_bytes_little n k = Ok (le_bytes n k) /\ from_bytes_little (le_bytes n k) = n.
Proof.
  intros Hn. unfold to_bytes_little.
  destruct (Z.ltb_spec n 0) as [H | _]; [lia |].
  destruct (Z.leb_spec (256 ^ Z.of_nat k) n) as [H | _]; [lia |].
  split; [reflexivity |]. rewrite from_le_bytes. apply Z.mod_small. exact Hn.
Qed.

Lemma sub_33h_guard (m : bytes) :
  match m with [] => Ok m | _ :: _ => _sub_33h m end = _sub_33h m.
Proof. destruct m; reflexivity. Qed.

(** C1 (as amended): for a 6-byte address, a control code that is a byte,
    a 4-byte identifier and a payload of at most 251 bytes, all data-field
    bytes being at most 0xCC, [_build_frame] returns a frame and
    [_parse_response] of that frame returns the same identifier, the same
    payload, the address and the control code. *)
Theorem C1_roundtrip_in_range (self : DLT645Protocol) (c id : Z)
  (data : option bytes) :
  length (address self) = 6%nat ->
  0 <= c < 256 ->
  0 <= id < 2 ^ 32 ->
  maskable (le_bytes id 4 ++ payload_of data) = true ->
  (length (payload_of data) <= 251)%nat ->
  exists frame,
    Read._build_frame self c (Some id) data = Ok frame /\
    Read._parse_response self frame =
      Ok {| r_address := address self; r_control := c; r_data_id := Some id;
            r_data := payload_of data; r_raw := frame |}.
Proof.
  intros Haddr Hc Hid Hmask Hlen.
  destruct self as [addr]. cbn [address] in *.
  destruct addr as [| a0 [| a1 [| a2 [| a3 [| a4 [| a5 [| ? ?]]]]]]];
    try discriminate Haddr. clear Haddr.
  rewrite build_frame_eq. cbn [address identifier_bytes].
  destruct (as_byte_range c Hc) as (cb & Hcb & Hcb').
  destruct (to_bytes_little_ok id 4 Hid) as (Hto & Hfrom).
  destruct (add_33h_maskable _ Hmask) as (m & Hm).
  assert (Hml : length m = (4 + length (payload_of data))%nat).
  { rewrite (add_33h_length _ _ Hm), length_app, le_bytes_length. reflexivity. }
  destruct (as_byte_range (Z.of_nat (length m))) as (lb & Hlb & Hlb'); [lia |].
  rewrite Hcb, Hto. cbn [bind]. rewrite Hm. cbn [bind]. rewrite Hlb. cbn [bind].
  destruct (as_byte_range _ (checksum_range
              (x68 :: [a0; a1; a2; a3; a4; a5] ++ [x68; cb; lb] ++ m)))
    as (csb & Hcsb & Hcsb').
  rewrite Hcsb. cbn [bind].
  change (x68 :: [a0; a1; a2; a3; a4; a5] ++ [x68; cb; lb] ++ m ++ [csb; x16])
    with (shaped x68 a0 a1 a2 a3 a4 a5 x68 cb lb m csb x16).
  eexists. split; [reflexivity |].
  rewrite parse_shaped.
  change (int_of_byte x68 =? FRAME_START) with true.
  change (int_of_byte x16 =? FRAME_END) with true.
  cbn [negb orb].
  rewrite Hlb', Z.eqb_refl. cbn [negb].
  change (hd10 x68 a0 a1 a2 a3 a4 a5 x68 cb lb ++ m)
    with (x68 :: [a0; a1; a2; a3; a4; a5] ++ [x68; cb; lb] ++ m).
  rewrite Hcsb', Z.eqb_refl. cbn [negb].
  unfold unmask_and_split. rewrite sub_33h_guard, (sub_add_33h _ _ Hm).
  cbn [bind]. rewrite length_app, le_bytes_length.
  cbn [Nat.leb Nat.add]. cbn [le_bytes app slice skipn firstn Nat.sub].
  change [low_byte id; low_byte (id / 256); low_byte (id / 256 / 256);
          low_byte (id / 256 / 256 / 256)] with (le_bytes id 4).
  rewrite Hfrom, Hcb'. reflexivity.
Qed.

Lemma C1_roundtrip_witness :
  exists frame,
    Read._build_frame {| address := [x01; x00; x00; x00; x00; x00] |}
      CMD_READ_DATA (Some 0x02010100) (Some [x12; x99]) = Ok frame /\
    Read._parse_response {| address := [x01; x00; x00; x00; x00; x00] |} frame =
      Ok {| r_address := [x01; x00; x00; x00; x00; x00];
            r_control := CMD_READ_DATA; r_data_id := Some 0x02010100;
            r_data := [x12; x99]; r_raw := frame |}.
Proof.
  apply (C1_roundtrip_in_range {| address := [x01; x00; x00; x00; x00; x00] |}
           CMD_READ_DATA 0x02010100 (Some [x12; x99])).
  - reflexivity.
  - unfold CMD_READ_DATA. lia.
  - split; [lia | reflexivity].
  - vm_compute. reflexivity.
  - cbn. lia.
Defined.

(** C1 as stated does not hold: the length byte cannot hold a data field of
    more than 255 bytes, so with a 252-byte payload [frame.append(len(...))]
    raises and no frame is built. *)
Lemma C1_long_payload_not_built :
  ~ (forall (c id : Z) (payload : bytes),
       0 <= c < 256 -> 0 <= id < 2 ^ 32 ->
       exists frame p,
         Read._build_frame {| address := [x01; x00; x00; x00; x00; x00] |}
           c (Some id) (Some payload) = Ok frame /\
         Read._parse_response {| address := [x01; x00; x00; x00; x00; x00] |}
           frame = Ok p /\
         r_data_id p = Some id /\ r_data p = payload).
Proof.
  intros H.
  destruct (H CMD_READ_DATA 0 (repeat x00 252)) as (frame & p & Hb & _).
  - unfold CMD_READ_DATA. lia.
  - split; [lia | reflexivity].
  - vm_compute in Hb. discriminate Hb.
Qed.

(** ** Single-bit corruption of a built frame *)

Lemma flip_bit_neq (b : byte) (k : nat) : (k < 8)%nat -> flip_bit b k <> b.
Proof.
  intros Hk.
  do 8 (destruct k as [| k]; [destruct b; vm_compute; discriminate |]).
  lia.
Qed.

Lemma flip_bit_int_neq (b : byte) (k : nat) :
  (k < 8)%nat -> (int_of_byte (flip_bit b k) =? int_of_byte b) = false.
Proof.
  intros Hk. apply Z.eqb_neq. intros E. apply int_of_byte_inj in E.
  exact (flip_bit_neq b k Hk E).
Qed.

Lemma update_nth_length {A : Type} (f : A -> A) (i : nat) (l : list A) :
  length (update_nth f i l) = length l.
Proof.
  revert i. induction l as [| a l IH]; intros [| i]; cbn; try reflexivity.
  rewrite IH. reflexivity.
Qed.

Lemma update_nth_app_l {A : Type} (f : A -> A) (i : nat) (l1 l2 : list A) :
  (i < length l1)%nat -> update_nth f i (l1 ++ l2) = update_nth f i l1 ++ l2.
Proof.
  revert i. induction l1 as [| a l1 IH]; intros [| i]; cbn; try lia.
  - reflexivity.
  - intros H. rewrite IH by lia. reflexivity.
Qed.

Lemma update_nth_app_r {A : Type} (f : A -> A) (j : nat) (l1 l2 : list A) :
  update_nth f (length l1 + j) (l1 ++ l2) = l1 ++ update_nth f j l2.
Proof.
  induction l1 as [| a l1 IH]; cbn; [reflexivity | rewrite IH; reflexivity].
Qed.

Lemma sum_update_nth (f : byte -> byte) (i : nat) (l : bytes) (b : byte) :
  nth_error l i = Some b ->
  py_sum (map int_of_byte (update_nth f i l))
  = py_sum (map int_of_byte l) - int_of_byte b + int_of_byte (f b).
Proof.
  revert i. induction l as [| a l IH]; intros [| i]; cbn [nth_error];
    try discriminate.
  - intros [= ->]. cbn [update_nth map]. rewrite !py_sum_cons. lia.
  - intros H. cbn [update_nth map]. rewrite !py_sum_cons, (IH i H). lia.
Qed.

Lemma mod_shift_neq (s x y : Z) :
  0 <= x < 256 -> 0 <= y < 256 -> x <> y ->
  (s + x) mod 256 <> (s + y) mod 256.
Proof.
  intros Hx Hy Hxy E. revert E. Z.div_mod_to_equations. lia.
Qed.

(** A changed byte under the sum changes the checksum. *)
Lemma checksum_update_nth (f : byte -> byte) (i : nat) (l : bytes) (b : byte) :
  nth_error l i = Some b -> f b <> b ->
  _calculate_checksum l <> _calculate_checksum (update_nth f i l).
Proof.
  intros Hn Hf. rewrite !checksum_mod, (sum_update_nth f i l b Hn).
  replace (py_sum (map int_of_byte l))
    with (py_sum (map int_of_byte l) - int_of_byte b + int_of_byte b) at 1 by lia.
  replace (py_sum (map int_of_byte l) - int_of_byte b + int_of_byte (f b))
    with (py_sum (map int_of_byte l) - int_of_byte b + int_of_byte (f b)) by lia.
  apply mod_shift_neq; try apply int_of_byte_range.
  intros E. apply int_of_byte_inj in E. congruence.
Qed.

(** The frames [_build_frame] returns, for a 6-byte address. *)
Lemma build_frame_shape (a0 a1 a2 a3 a4 a5 : byte) (c : Z)
  (data_id : option Z) (data : option bytes) (frame : bytes) :
  Read._build_frame {| address := [a0; a1; a2; a3; a4; a5] |} c data_id data
    = Ok frame ->
  exists cb lb m csb,
    frame = shaped x68 a0 a1 a2 a3 a4 a5 x68 cb lb m csb x16 /\
    int_of_byte cb = c /\
    int_of_byte lb = Z.of_nat (length m) /\
    int_of_byte csb = _calculate_checksum (hd10 x68 a0 a1 a2 a3 a4 a5 x68 cb lb ++ m).
Proof.
  rewrite build_frame_eq. cbn [address]. intros H.
  destruct (as_byte c) as [cb |] eqn:Hcb; cbn [bind] in H; [| discriminate].
  destruct (identifier_bytes data_id) as [idb |]; cbn [bind] in H; [| discriminate].
  destruct (_add_33h (idb ++ payload_of data)) as [m |]; cbn [bind] in H;
    [| discriminate].
  destruct (as_byte (Z.of_nat (length m))) as [lb |] eqn:Hlb; cbn [bind] in H;
    [| discriminate].
  destruct (as_byte (_calculate_checksum
              (x68 :: [a0; a1; a2; a3; a4; a5] ++ [x68; cb; lb] ++ m)))
    as [csb |] eqn:Hcsb; cbn [bind] in H; [| discriminate].
  injection H as <-.
  exists cb, lb, m, csb.
  apply as_byte_Ok in Hcb, Hlb, Hcsb.
  repeat split; assumption.
Qed.

Ltac refold_shaped :=
  match goal with
  | |- Read._parse_response _
         (?b0 :: ?x0 :: ?x1 :: ?x2 :: ?x3 :: ?x4 :: ?x5 :: ?b7 :: ?cb :: ?lb
            :: ?m ++ [?csb; ?eb]) = _ =>
      change (b0 :: x0 :: x1 :: x2 :: x3 :: x4 :: x5 :: b7 :: cb :: lb
                :: m ++ [csb; eb])
        with (shaped b0 x0 x1 x2 x3 x4 x5 b7 cb lb m csb eb)
  end.

Ltac pass_markers :=
  change (int_of_byte x68 =? FRAME_START) with true;
  change (int_of_byte x16 =? FRAME_END) with true;
  cbn [negb orb].

Ltac use_sum E :=
  let E' := fresh "E" in
  pose proof E as E';
  unfold hd10 in E' |- *; cbn [update_nth app Nat.add] in E' |- *;
  rewrite E'; clear E'; cbn [negb].

Ltac settle_rejection :=
  unfold expected_rejection;
  repeat match goal with
         | |- context [(?a =? ?b)%nat] =>
             destruct (Nat.eqb_spec a b); try lia
         end;
  cbn [orb]; try reflexivity.

(** C4 (as amended): in a frame returned by [_build_frame], inverting one
    bit of an address, control-code or data-field byte makes
    [_parse_response] raise [ChecksumMismatch]; inverting one bit of the
    first start marker or of the end marker raises [InvalidFrameMarkers],
    of the second start marker [InvalidSecondStart], of the length byte
    [LengthMismatch].  The checksum byte itself (position [len - 2]) is
    excluded. *)
Theorem C4_single_bit_flip_rejected (self : DLT645Protocol) (c : Z)
  (data_id : option Z) (data : option bytes) (frame : bytes) (i k : nat) :
  length (address self) = 6%nat ->
  Read._build_frame self c data_id data = Ok frame ->
  (i < length frame)%nat ->
  i <> (length frame - 2)%nat ->
  (k < 8)%nat ->
  Read._parse_response self (flip_at frame i k)
    = Raise (expected_rejection (length frame) i).
Proof.
  intros Haddr Hb Hi Hcs Hk.
  destruct self as [addr]. cbn [address] in Haddr.
  destruct addr as [| a0 [| a1 [| a2 [| a3 [| a4 [| a5 [| ? ?]]]]]]];
    try discriminate Haddr. clear Haddr.
  destruct (build_frame_shape _ _ _ _ _ _ _ _ _ _ Hb)
    as (cb & lb & m & csb & -> & _ & Hlb & Hcsb).
  clear Hb. rewrite shaped_length in *.
  set (self := {| address := [a0; a1; a2; a3; a4; a5] |}).
  pose proof (flip_bit_int_neq x68 k Hk) as Hstart.
  pose proof (flip_bit_int_neq x16 k Hk) as Hend.
  pose proof (flip_bit_int_neq lb k Hk) as Hlen.
  change (int_of_byte x68) with FRAME_START in Hstart.
  change (int_of_byte x16) with FRAME_END in Hend.
  rewrite Hlb, Z.eqb_sym in Hlen.
  assert (Hsum : forall (j : nat) (b : byte),
             nth_error (hd10 x68 a0 a1 a2 a3 a4 a5 x68 cb lb ++ m) j = Some b ->
             (int_of_byte csb =?
              _calculate_checksum
                (update_nth (fun b => flip_bit b k) j
                   (hd10 x68 a0 a1 a2 a3 a4 a5 x68 cb lb ++ m))) = false).
  { intros j b Hj. apply Z.eqb_neq. rewrite Hcsb.
    apply (checksum_update_nth _ j _ b Hj). apply flip_bit_neq. exact Hk. }
  assert (Hm : forall j : nat, (j < length m)%nat ->
             exists b, nth_error m j = Some b).
  { intros j Hj. destruct (nth_error m j) as [b |] eqn:E; [eauto |].
    apply nth_error_None in E. lia. }
  unfold flip_at.
  destruct i as [| [| [| [| [| [| [| [| [| [| j]]]]]]]]]];
    unfold shaped at 1, hd10 at 1; cbn [update_nth app].
  11: {
    destruct (Nat.lt_ge_cases j (length m)) as [Hj | Hj].
    - rewrite update_nth_app_l by exact Hj.
      refold_shaped. rewrite parse_shaped. pass_markers.
      rewrite update_nth_length, Hlb, Z.eqb_refl. cbn [negb].
      destruct (Hm j Hj) as (b & Hb).
      use_sum (Hsum (10 + j)%nat b Hb). settle_rejection.
    - replace j with (length m + 1)%nat by lia.
      rewrite update_nth_app_r. cbn [update_nth].
      refold_shaped. rewrite parse_shaped, Hend.
      change (int_of_byte x68 =? FRAME_START) with true.
      cbn [negb orb]. settle_rejection. }
  all: refold_shaped; rewrite parse_shaped.
  - (* first start marker *)
    rewrite Hstart. cbn [negb orb]. settle_rejection.
  - pass_markers. rewrite Hlb, Z.eqb_refl. cbn [negb].
    use_sum (Hsum 1%nat a0 eq_refl). settle_rejection.
  - pass_markers. rewrite Hlb, Z.eqb_refl. cbn [negb].
    use_sum (Hsum 2%nat a1 eq_refl). settle_rejection.
  - pass_markers. rewrite Hlb, Z.eqb_refl. cbn [negb].
    use_sum (Hsum 3%nat a2 eq_refl). settle_rejection.
  - pass_markers. rewrite Hlb, Z.eqb_refl. cbn [negb].
    use_sum (Hsum 4%nat a3 eq_refl). settle_rejection.
  - pass_markers. rewrite Hlb, Z.eqb_refl. cbn [negb].
    use_sum (Hsum 5%nat a4 eq_refl). settle_rejection.
  - pass_markers. rewrite Hlb, Z.eqb_refl. cbn [negb].
    use_sum (Hsum 6%nat a5 eq_refl). settle_rejection.
  - (* second start marker *)
    change (int_of_byte x68 =? FRAME_START) with true.
    change (int_of_byte x16 =? FRAME_END) with true.
    rewrite Hstart. cbn [negb orb]. settle_rejection.
  - pass_markers. rewrite Hlb, Z.eqb_refl. cbn [negb].
    use_sum (Hsum 8%nat cb eq_refl). settle_rejection.
  - (* length byte *)
    pass_markers. rewrite Hlen. cbn [negb]. settle_rejection.
Qed.

Lemma C4_single_bit_flip_witness :
  Read._parse_response {| address := [x01; x00; x00; x00; x00; x00] |}
    (flip_at [x68; x01; x00; x00; x00; x00; x00; x68; x11; x04;
              x33; x33; x33; x33; xb2; x16] 11 3)
  = Raise ChecksumMismatch.
Proof.
  apply (C4_single_bit_flip_rejected
           {| address := [x01; x00; x00; x00; x00; x00] |}
           CMD_READ_DATA (Some 0) None
           [x68; x01; x00; x00; x00; x00; x00; x68; x11; x04;
            x33; x33; x33; x33; xb2; x16] 11 3).
  - reflexivity.
  - vm_compute. reflexivity.
  - cbn. lia.
  - cbn. lia.
  - lia.
Defined.

(** C4 as stated does not hold: inverting a bit of the first start marker
    of a built frame is caught by the marker check, which comes before the
    checksum check. *)
Lemma C4_marker_flip_not_checksum :
  ~ (forall (frame : bytes) (i k : nat),
       Read._build_frame {| address := [x01; x00; x00; x00; x00; x00] |}
         CMD_READ_DATA (Some 0) None = Ok frame ->
       (i < length frame)%nat -> i <> (length frame - 2)%nat -> (k < 8)%nat ->
       Read._parse_response {| address := [x01; x00; x00; x00; x00; x00] |}
         (flip_at frame i k) = Raise ChecksumMismatch).
Proof.
  intros H.
  specialize (H [x68; x01; x00; x00; x00; x00; x00; x68; x11; x04;
                 x33; x33; x33; x33; xb2; x16] 0%nat 0%nat).
  assert (E : Read._parse_response {| address := [x01; x00; x00; x00; x00; x00] |}
                (flip_at [x68; x01; x00; x00; x00; x00; x00; x68; x11; x04;
                          x33; x33; x33; x33; xb2; x16] 0 0)
              = Raise InvalidFrameMarkers) by (vm_compute; reflexivity).
  rewrite E in H.
  assert (Habs : @Raise parsed InvalidFrameMarkers = Raise ChecksumMismatch).
  { apply H; [vm_compute; reflexivity | cbn; lia | cbn; lia | lia]. }
  discriminate Habs.
Qed.

(** ** The order of the checks in [_parse_response] *)

Lemma getitem_nth_int (l : bytes) (i : nat) (z : Z) :
  getitem l i = Ok z -> nth_int l i = z.
Proof.
  unfold getitem, nth_int. destruct (nth_error l i) as [b |] eqn:E;
    [| discriminate].
  intros [= <-]. rewrite (nth_error_nth _ _ _ E). reflexivity.
Qed.

Lemma first_failed_check_shaped (b0 a0 a1 a2 a3 a4 a5 b7 cb lb : byte)
  (m : bytes) (csb eb : byte) :
  first_failed_check (shaped b0 a0 a1 a2 a3 a4 a5 b7 cb lb m csb eb) =
    if (negb (int_of_byte b0 =? FRAME_START)
        || negb (int_of_byte eb =? FRAME_END))%bool
    then Some InvalidFrameMarkers
    else if negb (int_of_byte b7 =? FRAME_START) then Some InvalidSecondStart
    else if negb (Z.of_nat (length m) =? int_of_byte lb) then Some LengthMismatch
    else if negb (int_of_byte csb
                  =? _calculate_checksum
                       (hd10 b0 a0 a1 a2 a3 a4 a5 b7 cb lb ++ m))
    then Some ChecksumMismatch
    else None.
Proof.
  set (fr := shaped b0 a0 a1 a2 a3 a4 a5 b7 cb lb m csb eb).
  unfold first_failed_check. fold fr.
  assert (Hn : length fr = (12 + length m)%nat) by apply shaped_length.
  rewrite Hn.
  replace (12 + length m <? 12)%nat with false
    by (symmetry; apply Nat.ltb_ge; lia).
  change (nth_int fr 0) with (int_of_byte b0).
  change (nth_int fr 7) with (int_of_byte b7).
  change (nth_int fr 9) with (int_of_byte lb).
  assert (Hlast : nth_int fr (12 + length m - 1) = int_of_byte eb).
  { apply getitem_nth_int. rewrite <- Hn.
    pose proof (shaped_last b0 a0 a1 a2 a3 a4 a5 b7 cb lb m csb eb) as H.
    exact H. }
  rewrite Hlast.
  change 0x68 with FRAME_START. change 0x16 with FRAME_END.
  destruct (negb (int_of_byte b0 =? FRAME_START)
            || negb (int_of_byte eb =? FRAME_END))%bool; [reflexivity |].
  destruct (negb (int_of_byte b7 =? FRAME_START)); [reflexivity |].
  replace (12 + length m - 12)%nat with (length m) by lia.
  rewrite (Z.eqb_sym (int_of_byte lb)).
  destruct (Z.eqb_spec (Z.of_nat (length m)) (int_of_byte lb)) as [E | E];
    cbn [negb]; [| reflexivity].
  subst fr. rewrite <- E, Nat2Z.id.
  rewrite (getitem_nth_int _ _ _
             (shaped_checksum_byte b0 a0 a1 a2 a3 a4 a5 b7 cb lb m csb eb)).
  pose proof (shaped_summed b0 a0 a1 a2 a3 a4 a5 b7 cb lb m csb eb) as Hs.
  unfold slice in Hs. rewrite Nat.sub_0_r in Hs. cbn [skipn] in Hs.
  rewrite Hs, <- checksum_mod. reflexivity.
Qed.

(** The five checks are made in the specification's order: whenever one of
    them fails, [_parse_response] raises the first that does. *)
Lemma parse_checks_in_order (self : DLT645Protocol) (response : bytes) (e : exn) :
  first_failed_check response = Some e ->
  Read._parse_response self response = Raise e.
Proof.
  destruct (Nat.lt_ge_cases (length response) 12) as [Hs | Hl].
  - unfold first_failed_check, Read._parse_response.
    replace (length response <? 12)%nat with true
      by (symmetry; apply Nat.ltb_lt; exact Hs).
    intros [= <-]. reflexivity.
  - destruct (shape_of_long_response response Hl)
      as (b0 & a0 & a1 & a2 & a3 & a4 & a5 & b7 & cb & lb & m & csb & eb & ->).
    rewrite first_failed_check_shaped, parse_shaped.
    destruct (negb (int_of_byte b0 =? FRAME_START)
              || negb (int_of_byte eb =? FRAME_END))%bool;
      [intros [= <-]; reflexivity |].
    destruct (negb (int_of_byte b7 =? FRAME_START));
      [intros [= <-]; reflexivity |].
    destruct (negb (Z.of_nat (length m) =? int_of_byte lb));
      [intros [= <-]; reflexivity |].
    destruct (negb (int_of_byte csb =? _calculate_checksum _));
      [intros [= <-]; reflexivity | discriminate].
Qed.

(** When no check fails and every data-field byte is at least 0x33, a
    parsed frame is returned. *)
Lemma parse_returns_when_unmaskable (self : DLT645Protocol) (response : bytes) :
  first_failed_check response = None ->
  unmaskable (slice response 10 (length response - 2)) = true ->
  exists p, Read._parse_response self response = Ok p /\ r_raw p = response.
Proof.
  intros Hc Hu.
  destruct (Nat.lt_ge_cases (length response) 12) as [Hs | Hl].
  - unfold first_failed_check in Hc.
    replace (length response <? 12)%nat with true in Hc
      by (symmetry; apply Nat.ltb_lt; exact Hs).
    discriminate Hc.
  - destruct (shape_of_long_response response Hl)
      as (b0 & a0 & a1 & a2 & a3 & a4 & a5 & b7 & cb & lb & m & csb & eb & ->).
    rewrite first_failed_check_shaped in Hc. rewrite parse_shaped.
    rewrite shaped_length in Hu.
    replace (12 + length m - 2)%nat with (10 + length m)%nat in Hu by lia.
    rewrite shaped_data in Hu.
    destruct (negb (int_of_byte b0 =? FRAME_START)
              || negb (int_of_byte eb =? FRAME_END))%bool; [discriminate |].
    destruct (negb (int_of_byte b7 =? FRAME_START)); [discriminate |].
    destruct (negb (Z.of_nat (length m) =? int_of_byte lb)); [discriminate |].
    destruct (negb (int_of_byte csb =? _calculate_checksum _)); [discriminate |].
    unfold unmask_and_split. rewrite sub_33h_guard.
    assert (Hsub : exists d, _sub_33h m = Ok d).
    { clear - Hu. unfold _sub_33h, py_bytes.
      induction m as [| b m IH]; cbn; [eauto |].
      cbn in Hu. apply andb_true_iff in Hu as [Hb Hm].
      apply Z.leb_le in Hb. pose proof (int_of_byte_range b) as Hr.
      destruct (as_byte_range (int_of_byte b - 51)) as (x & Hx & _); [lia |].
      destruct (IH Hm) as (d & Hd). rewrite Hx. cbn. rewrite Hd. cbn. eauto. }
    destruct Hsub as (d & ->). cbn [bind].
    destruct (4 <=? length d)%nat; eexists; split; reflexivity.
Qed.

(** C3: the order of the five checks is as claimed ([parse_checks_in_order]),
    but passing them does not always give a parsed frame.  The frame below
    has correct markers, length and checksum and a data byte 0x00; no check
    fails, then [_sub_33h] raises on the byte below 0x33.  In
    dlt645_read_1.py there is no length check at all: a response declaring
    5 data bytes and carrying 3 raises [IndexError], and a 12-byte response
    declaring 1 data byte, with no room for a checksum, is accepted. *)
Theorem C3_parse_raises_after_checks (self : DLT645Protocol) :
  first_failed_check
    [x68; x00; x00; x00; x00; x00; x00; x68; x91; x01; x00; x62; x16] = None /\
  Read._parse_response self
    [x68; x00; x00; x00; x00; x00; x00; x68; x91; x01; x00; x62; x16]
    = Raise ByteRangeError /\
  first_failed_check
    [x68; x00; x00; x00; x00; x00; x00; x68; x91; x05; x33; x33; x33; x95; x16]
    = Some LengthMismatch /\
  Read1._parse_response self
    [x68; x00; x00; x00; x00; x00; x00; x68; x91; x05; x33; x33; x33; x95; x16]
    = Raise IndexError /\
  first_failed_check
    [x68; x00; x00; x00; x00; x00; x00; x68; x11; x01; x34; x16]
    = Some LengthMismatch /\
  Read1._parse_response self
    [x68; x00; x00; x00; x00; x00; x00; x68; x11; x01; x34; x16]
    = Ok {| r_address := []; r_control := 0x11; r_data_id := None;
            r_data := [x01];
            r_raw := [x68; x00; x00; x00; x00; x00; x00; x68; x11; x01; x34; x16] |}.
Proof.
  repeat split; vm_compute; reflexivity.
Qed.

(** ** The address codec *)

Lemma format_address_unfold (s : str) :
  _format_address s = (addr_bytes <- address_loop (zfill s 12) ;; Ok (rev addr_bytes)).
Proof. reflexivity. Qed.

Lemma hex_digit_cases (c : ascii) (x : Z) :
  hex_digit c = Some x -> In (c, x) hex_table.
Proof.
  destruct c as [[] [] [] [] [] [] [] []]; vm_compute; intros H;
    try discriminate H; injection H as <-; tauto.
Qed.

Lemma dec_digit_hex (c : ascii) (x : Z) :
  dec_digit c = Some x -> hex_digit c = Some x.
Proof.
  unfold dec_digit, hex_digit.
  destruct ((48 <=? nat_of_ascii c)%nat && (nat_of_ascii c <=? 57)%nat)%bool;
    [trivial | discriminate].
Qed.

Lemma is_dec_is_hex (s : str) :
  forallb is_dec_char s = true -> forallb is_hex_char s = true.
Proof.
  induction s as [| c s IH]; cbn; [reflexivity |].
  intros H. apply andb_true_iff in H as [Hc Hs]. rewrite (IH Hs), andb_true_r.
  unfold is_dec_char in Hc. unfold is_hex_char.
  destruct (dec_digit c) as [x |] eqn:E; [| discriminate].
  rewrite (dec_digit_hex c x E). reflexivity.
Qed.

Lemma py_int16_hex_pair (a b : ascii) :
  is_hex_char a = true -> is_hex_char b = true ->
  py_int16 [a; b] = Ok (16 * hex_value a + hex_value b) /\
  as_byte (16 * hex_value a + hex_value b) = Ok (pair_byte (a, b)).
Proof.
  unfold is_hex_char. intros Ha Hb.
  destruct (hex_digit a) as [x |] eqn:Ea; [| discriminate].
  destruct (hex_digit b) as [y |] eqn:Eb; [| discriminate].
  apply hex_digit_cases in Ea, Eb. clear Ha Hb.
  cbn in Ea.
  repeat (destruct Ea as [Ea | Ea];
          [injection Ea as <- <-; cbn in Eb;
           repeat (destruct Eb as [Eb | Eb];
                   [injection Eb as <- <-; vm_compute; split; reflexivity |]);
           destruct Eb |]).
  destruct Ea.
Qed.

Lemma is_hex_not_sign (c : ascii) : is_hex_char c = true -> is_sign c = false.
Proof.
  unfold is_hex_char. destruct (hex_digit c) as [x |] eqn:E; [| discriminate].
  intros _. apply hex_digit_cases in E. cbn in E.
  repeat (destruct E as [E | E]; [injection E as <- <-; reflexivity |]).
  destruct E.
Qed.

Lemma slice_firstn {A : Type} (l : list A) (i j n : nat) :
  (j <= n)%nat -> slice (firstn n l) i j = slice l i j.
Proof.
  intros H. unfold slice. rewrite skipn_firstn_comm, firstn_firstn.
  f_equal. lia.
Qed.

(** Only the first 12 characters of the padded string are looked at. *)
Lemma address_loop_firstn (addr : str) :
  address_loop (firstn 12 addr) = address_loop addr.
Proof.
  unfold address_loop, range_0_12_2. cbn [for_each Nat.add].
  rewrite !slice_firstn by lia. reflexivity.
Qed.

Lemma address_loop_hex (t : str) :
  length t = 12%nat -> forallb is_hex_char t = true ->
  address_loop t = Ok (map pair_byte (pairs t)).
Proof.
  intros Hlen Hhex.
  destruct t as [| c0 [| c1 [| c2 [| c3 [| c4 [| c5 [| c6 [| c7 [| c8 [| c9
    [| c10 [| c11 [| ? ?]]]]]]]]]]]]]; try discriminate Hlen. clear Hlen.
  cbn [forallb] in Hhex.
  repeat match type of Hhex with
         | (_ && _)%bool = true =>
             let H := fresh "H" in apply andb_true_iff in Hhex as [H Hhex]
         end.
  unfold address_loop, range_0_12_2.
  cbn [for_each slice skipn firstn Nat.add Nat.sub pairs map].
  repeat match goal with
         | |- context [py_int16 [?a; ?b]] =>
             destruct (py_int16_hex_pair a b) as [-> ?]; [assumption .. |];
             unfold bytearray_append;
             match goal with E : as_byte _ = Ok (pair_byte (a, b)) |- _ =>
               cbn [bind]; rewrite E; clear E
             end;
             cbn [bind app]
         end.
  reflexivity.
Qed.

Lemma zfill_long (s : str) (n : nat) : (n <= length s)%nat -> zfill s n = s.
Proof.
  intros H. unfold zfill.
  replace (n <=? length s)%nat with true by (symmetry; apply Nat.leb_le; exact H).
  reflexivity.
Qed.

Lemma zfill_hex (s : str) :
  (length s <= 12)%nat -> forallb is_hex_char s = true -> zfill s 12 = pad12 s.
Proof.
  intros Hlen Hhex. unfold zfill, pad12.
  destruct (Nat.leb_spec 12 (length s)) as [H | H].
  - replace (12 - length s)%nat with 0%nat by lia. reflexivity.
  - destruct s as [| c s]; [symmetry; apply app_nil_r |].
    cbn [forallb] in Hhex. apply andb_true_iff in Hhex as [Hc _].
    rewrite (is_hex_not_sign c Hc). reflexivity.
Qed.

Lemma pad12_length (s : str) : (length s <= 12)%nat -> length (pad12 s) = 12%nat.
Proof.
  intros H. unfold pad12. rewrite length_app, repeat_length. lia.
Qed.

Lemma pad12_hex (s : str) :
  forallb is_hex_char s = true -> forallb is_hex_char (pad12 s) = true.
Proof.
  intros H. unfold pad12. rewrite forallb_app, H, andb_true_r.
  induction (12 - length s)%nat as [| n IH]; cbn; [reflexivity | exact IH].
Qed.

Lemma pad12_long (s : str) : (12 <= length (pad12 s))%nat.
Proof. unfold pad12. rewrite length_app, repeat_length. lia. Qed.

Lemma pairs_firstn (n : nat) (s : str) :
  pairs (firstn (2 * n) s) = firstn n (pairs s).
Proof.
  revert s. induction n as [| n IH]; intros s; [reflexivity |].
  replace (2 * S n)%nat with (S (S (2 * n))) by lia.
  destruct s as [| a [| b tl]]; try reflexivity.
  cbn [firstn pairs]. rewrite IH. reflexivity.
Qed.

Lemma six_pairs (t : str) :
  (12 <= length t)%nat -> length (firstn 6 (pairs t)) = 6%nat.
Proof.
  intros H.
  destruct t as [| c0 [| c1 [| c2 [| c3 [| c4 [| c5 [| c6 [| c7 [| c8 [| c9
    [| c10 [| c11 t]]]]]]]]]]]]; cbn in H; try lia.
  reflexivity.
Qed.

Lemma twelve_chars_six_pairs (t : str) :
  length t = 12%nat -> length (pairs t) = 6%nat.
Proof.
  intros H.
  destruct t as [| c0 [| c1 [| c2 [| c3 [| c4 [| c5 [| c6 [| c7 [| c8 [| c9
    [| c10 [| c11 [| ? ?]]]]]]]]]]]]]; try discriminate H.
  reflexivity.
Qed.

Lemma address_codec_length (s : str) : length (address_codec s) = 6%nat.
Proof.
  unfold address_codec. rewrite length_rev, length_map.
  apply six_pairs, pad12_long.
Qed.

Lemma forallb_firstn {A : Type} (f : A -> bool) (n : nat) (l : list A) :
  forallb f l = true -> forallb f (firstn n l) = true.
Proof.
  intros H. rewrite <- (firstn_skipn n l), forallb_app in H.
  apply andb_true_iff in H as [H _]. exact H.
Qed.


(** On a string whose first 12 characters are hexadecimal digits the code
    computes the specification's codec. *)
Lemma format_address_hex (s : str) :
  forallb is_hex_char (firstn 12 s) = true ->
  _format_address s = Ok (address_codec s).
Proof.
  intros Hhex. rewrite format_address_unfold. unfold address_codec.
  destruct (Nat.le_gt_cases (length s) 12) as [Hlen | Hlen].
  - rewrite firstn_all2 in Hhex by exact Hlen.
    rewrite (zfill_hex s Hlen Hhex).
    rewrite (address_loop_hex _ (pad12_length s Hlen) (pad12_hex s Hhex)).
    cbn [bind]. rewrite (firstn_all2 (n := 6)); [reflexivity |].
    rewrite (twelve_chars_six_pairs _ (pad12_length s Hlen)). lia.
  - rewrite zfill_long by lia. rewrite <- address_loop_firstn.
    rewrite (address_loop_hex (firstn 12 s)); [| rewrite length_firstn; lia | exact Hhex].
    cbn [bind]. unfold pad12.
    replace (12 - length s)%nat with 0%nat by lia. cbn [repeat app].
    rewrite <- (pairs_firstn 6 s). reflexivity.
Qed.

(** Characters after the twelfth never reach the result, whatever they are
    and whatever the outcome. *)
Lemma format_address_ignores_tail (s : str) :
  (12 <= length s)%nat -> _format_address s = _format_address (firstn 12 s).
Proof.
  intros H. rewrite !format_address_unfold.
  rewrite (zfill_long s 12 H), zfill_long by (rewrite length_firstn; lia).
  rewrite address_loop_firstn. reflexivity.
Qed.

(** C8: on a decimal string [_format_address] left-pads with zeros to 12
    digits, splits into 6 two-character pairs in order, reads each pair as
    a byte and reverses the 6 bytes; and
    [_format_address("000000000001")] is [01 00 00 00 00 00]. *)
Theorem C8_format_address (s : str) :
  forallb is_dec_char s = true ->
  _format_address s = Ok (address_codec s) /\
  length (address_codec s) = 6%nat /\
  _format_address (lit "000000000001") = Ok [x01; x00; x00; x00; x00; x00].
Proof.
  intros Hdec. split; [| split].
  - apply format_address_hex, forallb_firstn, is_dec_is_hex. exact Hdec.
  - apply address_codec_length.
  - vm_compute. reflexivity.
Qed.

Lemma C8_format_address_witness :
  _format_address (lit "270235") = Ok (address_codec (lit "270235")) /\
  length (address_codec (lit "270235")) = 6%nat /\
  _format_address (lit "000000000001") = Ok [x01; x00; x00; x00; x00; x00].
Proof.
  apply (C8_format_address (lit "270235")).
  vm_compute. reflexivity.
Defined.

(** C10: an address string of more than 12 characters (its first 12 being
    hexadecimal digits) is neither padded nor rejected: the result is the
    6-byte address of its first 12 characters, so two such strings that
    agree on their first 12 characters give the same wire address. *)
Theorem C10_format_address_truncates (s1 s2 : str) :
  (12 < length s1)%nat ->
  (12 < length s2)%nat ->
  firstn 12 s1 = firstn 12 s2 ->
  forallb is_hex_char (firstn 12 s1) = true ->
  zfill s1 12 = s1 /\
  _format_address s1 = Ok (address_codec (firstn 12 s1)) /\
  _format_address s2 = _format_address s1 /\
  length (address_codec (firstn 12 s1)) = 6%nat.
Proof.
  intros H1 H2 Heq Hhex.
  split; [apply zfill_long; lia |]. split; [| split].
  - rewrite format_address_ignores_tail by lia.
    apply format_address_hex. rewrite firstn_firstn. exact Hhex.
  - rewrite (format_address_ignores_tail s2) by lia.
    rewrite <- Heq. symmetry. apply format_address_ignores_tail. lia.
  - apply address_codec_length.
Qed.

Lemma C10_format_address_truncates_witness :
  zfill (lit "1234567890123456") 12 = lit "1234567890123456" /\
  _format_address (lit "1234567890123456")
    = Ok (address_codec (firstn 12 (lit "1234567890123456"))) /\
  _format_address (lit "123456789012zz") = _format_address (lit "1234567890123456") /\
  length (address_codec (firstn 12 (lit "1234567890123456"))) = 6%nat.
Proof.
  apply (C10_format_address_truncates
           (lit "1234567890123456") (lit "123456789012zz")).
  - cbn. lia.
  - cbn. lia.
  - reflexivity.
  - vm_compute. reflexivity.
Defined.

(** ** Value decoders *)

(** C9: the worked examples of the specification.  The energy payload
    [78 56 34 12] is rendered "12345678" and decoded to 123456.78; the
    voltage payload [30 22] is rendered "2230" and decoded to 223.0. *)
Theorem C9_worked_examples :
  render_reversed [x78; x56; x34; x12] = lit "12345678" /\
  decode_energy [x78; x56; x34; x12] = Ok (Some (Qred 123456.78%Q)) /\
  render_reversed [x30; x22] = lit "2230" /\
  decode_voltage [x30; x22] = Ok (Some (Qred 223.0%Q)).
Proof.
  repeat split; vm_compute; reflexivity.
Qed.

(** The decoders are total: the only call that can raise, [float], is
    inside the [try]. *)
Lemma try_except_total {A : Type} (body : result A) (handler : A) :
  exists v, try_except body handler = Ok v.
Proof. destruct body; cbn; eauto. Qed.

Lemma decoders_never_raise (data : bytes) (decimal_places : Z) :
  (exists v, decode_energy data = Ok v) /\
  (exists v, decode_voltage data = Ok v) /\
  (exists v, decode_current data = Ok v) /\
  (exists v, decode_power data = Ok v) /\
  (exists v, decode_generic_bcd data decimal_places = Ok v).
Proof.
  unfold decode_energy, decode_voltage, decode_current, decode_power,
    decode_generic_bcd.
  repeat split.
  1-4: match goal with
       | |- context [(length ?d <? ?n)%nat] => destruct (length d <? n)%nat
       end; [eauto | apply try_except_total].
  destruct (is_nil data); [eauto | apply try_except_total].
Qed.

(** A payload shorter than the decoder's width gives no value. *)
Lemma short_payload_no_value (data : bytes) :
  ((length data < 4)%nat -> decode_energy data = Ok None) /\
  ((length data < 2)%nat -> decode_voltage data = Ok None) /\
  ((length data < 3)%nat -> decode_current data = Ok None) /\
  ((length data < 3)%nat -> decode_power data = Ok None) /\
  (forall decimal_places, data = [] -> decode_generic_bcd data decimal_places = Ok None).
Proof.
  unfold decode_energy, decode_voltage, decode_current, decode_power.
  repeat split; intros.
  1-4: match goal with
       | H : (length _ < _)%nat |- _ => apply Nat.ltb_lt in H; rewrite H
       end; reflexivity.
  subst data. reflexivity.
Qed.

(** C6: the decoders never raise and a short payload gives no value, but a
    payload with a non-BCD nibble does not always give no value: the
    rendered letter [E] is read by [float] as an exponent marker.  The
    energy payload [E5 12 34 56] is rendered "563412E5", becomes
    "563412.E5" and decodes to 56341200000. *)
Theorem C6_non_bcd_nibble_decoded :
  render_reversed [xe5; x12; x34; x56] = lit "563412E5" /\
  decode_energy [xe5; x12; x34; x56] = Ok (Some (Qred 56341200000%Q)) /\
  decode_current [xe5; x12; x34] = Ok (Some (Qred 34120000%Q)) /\
  decode_power [xe5; x12; x34] = Ok (Some (Qred 3412000%Q)) /\
  decode_generic_bcd [xe5; x12] 2 = Ok (Some (Qred 1200000%Q)).
Proof.
  repeat split; vm_compute; reflexivity.
Qed.

(** *** The generic BCD decoder on BCD input *)

Lemma render_reversed_nibbles (data : bytes) :
  render_reversed data = map hex_char (nibbles data).
Proof.
  unfold render_reversed, nibbles.
  assert (H : forall (l : bytes) (acc : str),
             fold_left (fun value_str byte => value_str ++ format_02X (int_of_byte byte))
                       l acc
             = acc ++ map hex_char
                        (flat_map (fun b => [int_of_byte b / 16; int_of_byte b mod 16]) l)).
  { induction l as [| b l IH]; intros acc; cbn [fold_left flat_map map app].
    - symmetry. apply app_nil_r.
    - rewrite IH. unfold format_02X. rewrite <- app_assoc. reflexivity. }
  apply (H (rev data) []).
Qed.

Lemma nibbles_cons (b : byte) (data : bytes) :
  nibbles (b :: data) = nibbles data ++ [int_of_byte b / 16; int_of_byte b mod 16].
Proof.
  unfold nibbles. cbn [rev]. rewrite flat_map_app. cbn. reflexivity.
Qed.

Lemma nibbles_length (data : bytes) : length (nibbles data) = (2 * length data)%nat.
Proof.
  induction data as [| b data IH]; [reflexivity |].
  rewrite nibbles_cons, length_app, IH. cbn. lia.
Qed.

Lemma nibbles_range (data : bytes) : Forall (fun d => 0 <= d < 16) (nibbles data).
Proof.
  induction data as [| b data IH]; [constructor |].
  rewrite nibbles_cons. apply Forall_app. split; [exact IH |].
  pose proof (int_of_byte_range b) as Hr.
  repeat constructor;
    try (apply Z.div_pos; lia); try (apply Z.div_lt_upper_bound; lia);
    try (apply Z.mod_pos_bound; lia).
Qed.

Lemma nibbles_bcd (data : bytes) :
  is_bcd data = true -> Forall (fun d => 0 <= d < 10) (nibbles data).
Proof.
  induction data as [| b data IH]; [constructor |].
  cbn [is_bcd forallb]. intros H.
  apply andb_true_iff in H as [Hb Hd]. apply andb_true_iff in Hb as [Hh Hl].
  apply Z.ltb_lt in Hh, Hl.
  rewrite nibbles_cons. apply Forall_app. split; [apply IH; exact Hd |].
  pose proof (int_of_byte_range b) as Hr.
  repeat constructor; try exact Hh; try exact Hl;
    try (apply Z.div_pos; lia); try (apply Z.mod_pos_bound; lia).
Qed.

Lemma digits_value_acc (ds : list Z) (acc : Z) :
  fold_left (fun a d => 10 * a + d) ds acc
  = acc * 10 ^ Z.of_nat (length ds) + digits_value ds.
Proof.
  unfold digits_value. revert acc.
  induction ds as [| d ds IH]; intros acc.
  - cbn. lia.
  - cbn [fold_left length]. rewrite (IH (10 * acc + d)), (IH (10 * 0 + d)).
    rewrite Nat2Z.inj_succ, Z.pow_succ_r by lia. lia.
Qed.

Lemma digits_value_app (l1 l2 : list Z) :
  digits_value (l1 ++ l2) = digits_value l1 * 10 ^ Z.of_nat (length l2) + digits_value l2.
Proof.
  unfold digits_value at 1. rewrite fold_left_app.
  fold (digits_value l1). apply digits_value_acc.
Qed.

Lemma digits_value_nibbles (data : bytes) : digits_value (nibbles data) = bcd_value data.
Proof.
  induction data as [| b data IH]; [reflexivity |].
  rewrite nibbles_cons, digits_value_app, IH. cbn [bcd_value].
  change (digits_value [int_of_byte b / 16; int_of_byte b mod 16])
    with (10 * (10 * 0 + int_of_byte b / 16) + int_of_byte b mod 16).
  change (10 ^ Z.of_nat (length [int_of_byte b / 16; int_of_byte b mod 16]))
    with 100.
  lia.
Qed.

Lemma dec_digit_hex_char (d : Z) : 0 <= d < 10 -> dec_digit (hex_char d) = Some d.
Proof.
  intros H.
  assert (E : d = 0 \/ d = 1 \/ d = 2 \/ d = 3 \/ d = 4 \/ d = 5 \/ d = 6
              \/ d = 7 \/ d = 8 \/ d = 9) by lia.
  repeat (destruct E as [-> | E]; [reflexivity |]). subst d. reflexivity.
Qed.

Lemma upper_hex_hex_char (d : Z) : 0 <= d < 16 -> upper_hex (hex_char d) = true.
Proof.
  intros H.
  assert (E : d = 0 \/ d = 1 \/ d = 2 \/ d = 3 \/ d = 4 \/ d = 5 \/ d = 6
              \/ d = 7 \/ d = 8 \/ d = 9 \/ d = 10 \/ d = 11 \/ d = 12
              \/ d = 13 \/ d = 14 \/ d = 15) by lia.
  repeat (destruct E as [-> | E]; [reflexivity |]). subst d. reflexivity.
Qed.

(** What reaches [float]: upper-case hexadecimal digits, and the point
    the decoder inserts. *)
Lemma decoder_string_alphabet (data : bytes) (n : nat) :
  forallb float_alphabet (render_reversed data) = true /\
  forallb float_alphabet
    (drop_last n (render_reversed data) ++ [dot] ++ take_last n (render_reversed data))
    = true.
Proof.
  assert (H : forallb float_alphabet (render_reversed data) = true).
  { rewrite render_reversed_nibbles. apply forallb_forall. intros c Hc.
    apply in_map_iff in Hc as (d & <- & Hd).
    pose proof (proj1 (Forall_forall _ _) (nibbles_range data) d Hd) as Hr.
    unfold float_alphabet. rewrite (upper_hex_hex_char d Hr). reflexivity. }
  split; [exact H |].
  rewrite <- (firstn_skipn (length (render_reversed data) - n) (render_reversed data)) in H.
  rewrite forallb_app in H. apply andb_true_iff in H as [H1 H2].
  unfold drop_last, take_last. rewrite !forallb_app, H1, H2. reflexivity.
Qed.

Lemma span_digits_app (ds : list Z) (rest : str) :
  Forall (fun d => 0 <= d < 10) ds ->
  span_digits (map hex_char ds ++ rest)
  = (ds ++ fst (span_digits rest), snd (span_digits rest)).
Proof.
  induction 1 as [| d ds Hd _ IH]; cbn [map app].
  - destruct (span_digits rest); reflexivity.
  - cbn [span_digits]. rewrite (dec_digit_hex_char d Hd), IH. reflexivity.
Qed.

Lemma span_digits_all (ds : list Z) :
  Forall (fun d => 0 <= d < 10) ds -> span_digits (map hex_char ds) = (ds, []).
Proof.
  intros H. rewrite <- (app_nil_r (map hex_char ds)), (span_digits_app ds [] H).
  cbn. rewrite app_nil_r. reflexivity.
Qed.


Lemma py_float_point (ip fp : list Z) :
  Forall (fun d => 0 <= d < 10) ip -> Forall (fun d => 0 <= d < 10) fp ->
  ip ++ fp <> [] ->
  py_float (map hex_char ip ++ [dot] ++ map hex_char fp)
  = Ok (decimal_value (digits_value (ip ++ fp)) (- Z.of_nat (length fp))).
Proof.
  intros Hi Hf Hne. unfold py_float.
  rewrite (span_digits_app ip _ Hi). cbn [app span_digits].
  change (dec_digit dot) with (@None Z). cbn [fst snd].
  rewrite app_nil_r. change (Ascii.eqb dot dot) with true. cbn iota.
  rewrite (span_digits_all fp Hf).
  destruct ip as [| i ip]; destruct fp as [| f fp]; try reflexivity.
  exfalso. apply Hne. reflexivity.
Qed.


Lemma drop_take_last {A : Type} (n : nat) (s : list A) :
  drop_last n s ++ take_last n s = s.
Proof. apply firstn_skipn. Qed.

Lemma take_last_length {A : Type} (n : nat) (s : list A) :
  (n <= length s)%nat -> length (take_last n s) = n.
Proof. intros H. unfold take_last. rewrite length_skipn. lia. Qed.

Lemma drop_last_map {A B : Type} (f : A -> B) (n : nat) (s : list A) :
  drop_last n (map f s) = map f (drop_last n s).
Proof. unfold drop_last. rewrite length_map. apply firstn_map. Qed.

Lemma take_last_map {A B : Type} (f : A -> B) (n : nat) (s : list A) :
  take_last n (map f s) = map f (take_last n s).
Proof. unfold take_last. rewrite length_map. apply skipn_map. Qed.






(** ** The retrying exchange *)

Lemma exchange_once_received (frame : bytes) (chunks : list bytes) :
  exchange_once frame (Received chunks) = (full_sequence frame, Ok (concat chunks)).
Proof. reflexivity. Qed.

Lemma is_silent_inv (a : attempt) :
  is_silent a = true -> exists chunks, a = Received chunks /\ concat chunks = [].
Proof.
  destruct a as [chunks | n]; cbn; [| discriminate].
  intros H. exists chunks. split; [reflexivity |].
  destruct (concat chunks); [reflexivity | discriminate].
Qed.

Lemma retry_loop_exhausted (frame : bytes) (line : nat -> attempt) (retries : Z)
  (todo attempt : nat) :
  Z.of_nat (attempt + todo) = retries ->
  (forall j, (attempt <= j < attempt + todo)%nat -> is_silent (line j) = true) ->
  Transport.retry_loop frame line retries todo attempt
  = (exhausted_trace frame todo, Raise NoResponse).
Proof.
  revert attempt. induction todo as [| todo IH]; intros attempt Hr Hs.
  - reflexivity.
  - cbn [Transport.retry_loop exhausted_trace].
    destruct (is_silent_inv (line attempt)) as (chunks & -> & Hc);
      [apply Hs; lia |].
    rewrite exchange_once_received, Hc.
    rewrite (IH (S attempt)) by (try (intros; apply Hs); lia).
    destruct (Z.ltb_spec (Z.of_nat attempt) (retries - 1)) as [Hlt | Hge];
      destruct todo as [| todo']; try lia; reflexivity.
Qed.

Lemma retry_loop_answer (frame : bytes) (line : nat -> attempt) (retries : Z)
  (chunks : list bytes) (k todo attempt : nat) :
  Z.of_nat (attempt + todo) = retries ->
  (k < todo)%nat ->
  (forall j, (attempt <= j < attempt + k)%nat -> is_silent (line j) = true) ->
  line (attempt + k)%nat = Received chunks ->
  is_silent (line (attempt + k)%nat) = false ->
  Transport.retry_loop frame line retries todo attempt
  = (waited_trace frame k ++ full_sequence frame, Ok (concat chunks)).
Proof.
  revert todo attempt. induction k as [| k IH]; intros todo attempt Hr Hk Hs Hl Hn.
  - destruct todo as [| todo]; [lia |].
    rewrite Nat.add_0_r in Hl, Hn. rewrite Hl in Hn.
    cbn [Transport.retry_loop waited_trace app].
    rewrite Hl, exchange_once_received. cbn [is_silent] in Hn.
    destruct (concat chunks); [discriminate | reflexivity].
  - destruct todo as [| todo]; [lia |].
    cbn [Transport.retry_loop waited_trace].
    destruct (is_silent_inv (line attempt)) as (chunks0 & -> & Hc);
      [apply Hs; lia |].
    rewrite exchange_once_received, Hc.
    rewrite (IH todo (S attempt)); try lia.
    + destruct (Z.ltb_spec (Z.of_nat attempt) (retries - 1)) as [Hlt | Hge];
        [| lia].
      rewrite <- !app_assoc. reflexivity.
    + intros j Hj. apply Hs. lia.
    + rewrite <- Hl. f_equal. lia.
    + rewrite <- Hn. f_equal. f_equal. lia.
Qed.

(** C7 (as amended): [_send_frame] repeats the full reset / wake / send /
    accumulate sequence only while an attempt receives no byte, pausing one
    second between attempts, at most [retries] times.  After [retries]
    silent attempts it raises [NoResponse].  The first non-empty response
    is returned as received, without being parsed, so a parse failure is
    never retried: [read_data] (one attempt, [retries=1]) turns it into
    [None] after its single exchange. *)
Theorem C7_send_frame_retries (self : DLT645Protocol) (frame : bytes)
  (retries : Z) (line : nat -> attempt) (k : nat) :
  (k <= Z.to_nat retries)%nat ->
  (forall j, (j < k)%nat -> is_silent (line j) = true) ->
  (k = Z.to_nat retries ->
   Transport._send_frame true frame retries line
   = (exhausted_trace frame k, Raise NoResponse)) /\
  (forall chunks,
     (k < Z.to_nat retries)%nat ->
     line k = Received chunks -> is_silent (line k) = false ->
     Transport._send_frame true frame retries line
     = (waited_trace frame k ++ full_sequence frame, Ok (concat chunks))) /\
  (forall data_id request chunks e,
     Read1._build_frame self CMD_READ_DATA data_id = Ok request ->
     line 0%nat = Received chunks -> is_silent (line 0%nat) = false ->
     Read1._parse_response self (concat chunks) = Raise e ->
     Transport.read_data self true data_id line
     = (full_sequence request ++ [Sleep 500], Ok None)).
Proof.
  intros Hk Hs. unfold Transport._send_frame. cbn [negb].
  split; [| split].
  - intros ->. destruct (Z.leb_spec 0 retries) as [Hr | Hr].
    + apply retry_loop_exhausted; [cbn [Nat.add]; lia |].
      intros j Hj. apply Hs. lia.
    + replace (Z.to_nat retries) with 0%nat by lia. reflexivity.
  - intros chunks Hlt Hl Hn. apply retry_loop_answer; cbn [Nat.add]; try assumption.
    + lia.
    + intros j Hj. apply Hs. lia.
  - intros data_id request chunks e Hb Hl Hn Hp.
    unfold Transport.read_data. rewrite Hb.
    unfold Transport._send_frame. cbn [negb]. change (Z.to_nat 1) with 1%nat.
    rewrite (retry_loop_answer request line 1 chunks 0 1 0); try assumption;
      try reflexivity; try lia.
    cbn [waited_trace app bind]. rewrite Hp. reflexivity.
Qed.

Lemma C7_send_frame_retries_witness :
  (1%nat = Z.to_nat 3 ->
   Transport._send_frame true [x11] 3 late_line
   = (exhausted_trace [x11] 1, Raise NoResponse)) /\
  (forall chunks,
     (1 < Z.to_nat 3)%nat ->
     late_line 1 = Received chunks -> is_silent (late_line 1) = false ->
     Transport._send_frame true [x11] 3 late_line
     = (waited_trace [x11] 1 ++ full_sequence [x11], Ok (concat chunks))) /\
  (forall data_id request chunks e,
     Read1._build_frame {| address := [x01; x00; x00; x00; x00; x00] |}
       CMD_READ_DATA data_id = Ok request ->
     late_line 0%nat = Received chunks -> is_silent (late_line 0%nat) = false ->
     Read1._parse_response {| address := [x01; x00; x00; x00; x00; x00] |}
       (concat chunks) = Raise e ->
     Transport.read_data {| address := [x01; x00; x00; x00; x00; x00] |}
       true data_id late_line
     = (full_sequence request ++ [Sleep 500], Ok None)).
Proof.
  apply (C7_send_frame_retries {| address := [x01; x00; x00; x00; x00; x00] |}
           [x11] 3 late_line 1).
  - cbn. lia.
  - intros j Hj. destruct j as [| j]; [reflexivity | lia].
Defined.

(** C7 as stated does not hold: a response that fails to parse is not
    retried.  With three attempts allowed and a line that would answer
    correctly the second time, [_send_frame] makes one exchange and returns
    the stray byte; [_parse_response] rejects it; [read_data] returns
    [None] after that single exchange. *)
Lemma C7_parse_failure_not_retried :
  Read1._build_frame {| address := [x01; x00; x00; x00; x00; x00] |}
    CMD_READ_DATA 0
  = Ok [x68; x01; x00; x00; x00; x00; x00; x68; x11; x04;
        x33; x33; x33; x33; xb2; x16] /\
  Transport._send_frame true
    [x68; x01; x00; x00; x00; x00; x00; x68; x11; x04;
     x33; x33; x33; x33; xb2; x16] 3 garbled_then_good
  = (full_sequence [x68; x01; x00; x00; x00; x00; x00; x68; x11; x04;
                    x33; x33; x33; x33; xb2; x16], Ok [x00]) /\
  Read1._parse_response {| address := [x01; x00; x00; x00; x00; x00] |} [x00]
  = Raise FrameTooShort /\
  (exists p,
     Read1._parse_response {| address := [x01; x00; x00; x00; x00; x00] |}
       [x68; x01; x00; x00; x00; x00; x00; x68; x91; x04;
        x33; x33; x33; x33; x32; x16] = Ok p) /\
  Transport.read_data {| address := [x01; x00; x00; x00; x00; x00] |}
    true 0 garbled_then_good
  = (full_sequence [x68; x01; x00; x00; x00; x00; x00; x68; x11; x04;
                    x33; x33; x33; x33; xb2; x16] ++ [Sleep 500], Ok None).
Proof.
  split; [vm_compute; reflexivity |].
  split; [vm_compute; reflexivity |].
  split; [vm_compute; reflexivity |].
  split; [eexists; vm_compute; reflexivity |].
  vm_compute. reflexivity.
Qed.

(** * Further properties of the codec *)

(** ** Masking, both ways *)

Lemma add_33h_Ok_maskable (data m : bytes) :
  _add_33h data = Ok m -> maskable data = true /\ unmaskable m = true.
Proof.
  unfold _add_33h, py_bytes. revert m.
  induction data as [| b data IH]; intros m; cbn.
  - intros [= <-]. split; reflexivity.
  - destruct (as_byte (int_of_byte b + 51)) as [c |] eqn:Hc; cbn; [| discriminate].
    destruct (mapM as_byte (map (fun b0 => int_of_byte b0 + 51) data)) as [m' |];
      cbn; [| discriminate].
    intros [= <-]. destruct (IH m' eq_refl) as [H1 H2].
    apply as_byte_Ok in Hc. pose proof (int_of_byte_range c) as Hr.
    pose proof (int_of_byte_range b) as Hr'.
    unfold maskable, unmaskable in *. cbn [forallb].
    rewrite H1, H2, !andb_true_r. split; apply Z.leb_le; lia.
Qed.

Lemma sub_33h_Ok_unmaskable (m data : bytes) :
  _sub_33h m = Ok data -> unmaskable m = true /\ maskable data = true.
Proof.
  unfold _sub_33h, py_bytes. revert data.
  induction m as [| b m IH]; intros data; cbn.
  - intros [= <-]. split; reflexivity.
  - destruct (as_byte (int_of_byte b - 51)) as [c |] eqn:Hc; cbn; [| discriminate].
    destruct (mapM as_byte (map (fun b0 => int_of_byte b0 - 51) m)) as [d' |];
      cbn; [| discriminate].
    intros [= <-]. destruct (IH d' eq_refl) as [H1 H2].
    apply as_byte_Ok in Hc. pose proof (int_of_byte_range c) as Hr.
    pose proof (int_of_byte_range b) as Hr'.
    unfold maskable, unmaskable in *. cbn [forallb].
    rewrite H1, H2, !andb_true_r. split; apply Z.leb_le; lia.
Qed.

Lemma sub_33h_unmaskable (m : bytes) :
  unmaskable m = true -> exists data, _sub_33h m = Ok data.
Proof.
  unfold _sub_33h, py_bytes. induction m as [| b m IH]; cbn.
  - intros _. exists []. reflexivity.
  - intros H. apply andb_true_iff in H as [Hb Hm].
    apply Z.leb_le in Hb. pose proof (int_of_byte_range b) as Hr.
    destruct (as_byte_range (int_of_byte b - 51)) as (c & Hc & _); [lia |].
    destruct (IH Hm) as (d & Hd).
    exists (c :: d). rewrite Hc. cbn. rewrite Hd. reflexivity.
Qed.

Lemma add_sub_33h (m data : bytes) : _sub_33h m = Ok data -> _add_33h data = Ok m.
Proof.
  unfold _add_33h, _sub_33h, py_bytes. revert data.
  induction m as [| b m IH]; intros data; cbn.
  - intros [= <-]. reflexivity.
  - destruct (as_byte (int_of_byte b - 51)) as [c |] eqn:Hc; cbn; [| discriminate].
    destruct (mapM as_byte (map (fun b0 => int_of_byte b0 - 51) m)) as [d' |];
      cbn; [| discriminate].
    intros [= <-]. cbn. apply as_byte_Ok in Hc. rewrite Hc.
    replace (int_of_byte b - 51 + 51) with (int_of_byte b) by lia.
    rewrite as_byte_int. cbn. rewrite (IH d' eq_refl). reflexivity.
Qed.

Lemma sub_33h_cases (m : bytes) :
  _sub_33h m = if unmaskable m then Ok (unmask_mod m) else Raise ByteRangeError.
Proof.
  unfold _sub_33h, py_bytes, unmaskable, unmask_mod.
  induction m as [| b m IH]; cbn [map mapM forallb]; [reflexivity |].
  pose proof (int_of_byte_range b) as Hr.
  destruct (Z.leb_spec 51 (int_of_byte b)) as [Hb | Hb]; cbn [andb].
  - destruct (as_byte_range (int_of_byte b - 51)) as (c & Hc & Hc'); [lia |].
    rewrite Hc. cbn [bind]. rewrite IH.
    assert (E : c = low_byte (int_of_byte b - 51)).
    { apply int_of_byte_inj. rewrite Hc', low_byte_int, Z.mod_small; lia. }
    rewrite E. destruct (forallb _ m); reflexivity.
  - rewrite as_byte_out_of_range by lia. reflexivity.
Qed.

Lemma add_33h_cases (data : bytes) :
  _add_33h data = if maskable data then Ok (mask_mod data) else Raise ByteRangeError.
Proof.
  unfold _add_33h, py_bytes, maskable, mask_mod.
  induction data as [| b data IH]; cbn [map mapM forallb]; [reflexivity |].
  pose proof (int_of_byte_range b) as Hr.
  destruct (Z.leb_spec (int_of_byte b) 204) as [Hb | Hb]; cbn [andb].
  - destruct (as_byte_range (int_of_byte b + 51)) as (c & Hc & Hc'); [lia |].
    rewrite Hc. cbn [bind]. rewrite IH.
    assert (E : c = low_byte (int_of_byte b + 51)).
    { apply int_of_byte_inj. rewrite Hc', low_byte_int, Z.mod_small; lia. }
    rewrite E. destruct (forallb _ data); reflexivity.
  - rewrite as_byte_out_of_range by lia. reflexivity.
Qed.

(** X1: [_add_33h] adds 0x33 to every byte when all bytes are at most
    0xCC and raises [ValueError] as soon as one is larger; what it returns
    has the same length, has every byte at least 0x33, and is unmasked by
    [_sub_33h] to the data field. *)
Theorem add_33h_partial_inverse (data : bytes) :
  _add_33h data
  = (if maskable data then Ok (mask_mod data) else Raise ByteRangeError) /\
  (forall m, _add_33h data = Ok m ->
     length m = length data /\ unmaskable m = true /\ _sub_33h m = Ok data).
Proof.
  split; [apply add_33h_cases |].
  intros m Hm. split; [apply add_33h_length; exact Hm |].
  split; [apply (add_33h_Ok_maskable data m Hm) | apply sub_add_33h; exact Hm].
Qed.

(** X2: [_sub_33h] subtracts 0x33 from every byte when all bytes are at
    least 0x33 and raises [ValueError] as soon as one is smaller; what it
    returns has every byte at most 0xCC and is masked by [_add_33h] back
    to the sequence: on their domains the two are inverse to each other. *)
Theorem sub_33h_partial_inverse (m : bytes) :
  _sub_33h m
  = (if unmaskable m then Ok (unmask_mod m) else Raise ByteRangeError) /\
  (forall data, _sub_33h m = Ok data ->
     length data = length m /\ maskable data = true /\ _add_33h data = Ok m).
Proof.
  split; [apply sub_33h_cases |].
  intros d Hd. split.
  - unfold _sub_33h, py_bytes in Hd. apply mapM_length in Hd.
    rewrite length_map in Hd. exact Hd.
  - split; [apply (sub_33h_Ok_unmaskable m d Hd) | apply add_sub_33h; exact Hd].
Qed.

(** ** Built frames *)

Lemma identifier_bytes_Ok (data_id : option Z) (idb : bytes) :
  identifier_bytes data_id = Ok idb <->
  identifier_fits data_id = true /\ idb = id_bytes data_id.
Proof.
  destruct data_id as [id |]; cbn [identifier_bytes identifier_fits id_bytes].
  - unfold to_bytes_little. change (256 ^ Z.of_nat 4) with (2 ^ 32).
    destruct (Z.ltb_spec id 0) as [H0 | H0];
      destruct (Z.leb_spec (2 ^ 32) id) as [H1 | H1];
      destruct (Z.leb_spec 0 id) as [H2 | H2];
      destruct (Z.ltb_spec id (2 ^ 32)) as [H3 | H3]; try lia; cbn [andb];
      split; try (intros [= <-]; split; reflexivity);
      try discriminate; try (intros [H _]; discriminate H).
    intros [_ ->]. reflexivity.
  - split; [intros [= <-]; split; reflexivity | intros [_ ->]; reflexivity].
Qed.

Lemma as_byte_Ok_iff (z : Z) : (exists b, as_byte z = Ok b) <-> 0 <= z <= 255.
Proof.
  split.
  - intros (b & Hb). apply as_byte_Ok in Hb.
    pose proof (int_of_byte_range b). lia.
  - intros H. destruct (as_byte_range z) as (b & Hb & _); [lia | eauto].
Qed.

(** What a successful [_build_frame] has gone through, for a 6-byte address. *)
Lemma build_frame_stages (a0 a1 a2 a3 a4 a5 : byte) (c : Z)
  (data_id : option Z) (data : option bytes) (frame : bytes) :
  Read._build_frame {| address := [a0; a1; a2; a3; a4; a5] |} c data_id data
    = Ok frame ->
  exists cb lb m csb,
    frame = shaped x68 a0 a1 a2 a3 a4 a5 x68 cb lb m csb x16 /\
    int_of_byte cb = c /\
    int_of_byte lb = Z.of_nat (length m) /\
    int_of_byte csb = _calculate_checksum (hd10 x68 a0 a1 a2 a3 a4 a5 x68 cb lb ++ m) /\
    _add_33h (data_field_of data_id data) = Ok m.
Proof.
  rewrite build_frame_eq. cbn [address]. intros H.
  destruct (as_byte c) as [cb |] eqn:Hcb; cbn [bind] in H; [| discriminate].
  destruct (identifier_bytes data_id) as [idb |] eqn:Hid; cbn [bind] in H;
    [| discriminate].
  destruct (_add_33h (idb ++ payload_of data)) as [m |] eqn:Hm; cbn [bind] in H;
    [| discriminate].
  destruct (as_byte (Z.of_nat (length m))) as [lb |] eqn:Hlb; cbn [bind] in H;
    [| discriminate].
  destruct (as_byte (_calculate_checksum
              (x68 :: [a0; a1; a2; a3; a4; a5] ++ [x68; cb; lb] ++ m)))
    as [csb |] eqn:Hcsb; cbn [bind] in H; [| discriminate].
  injection H as <-.
  exists cb, lb, m, csb.
  apply as_byte_Ok in Hcb, Hlb, Hcsb.
  apply identifier_bytes_Ok in Hid as [_ ->].
  repeat split; assumption.
Qed.

Lemma build_frame_Ok_iff (self : DLT645Protocol) (c : Z)
  (data_id : option Z) (data : option bytes) :
  (exists frame, Read._build_frame self c data_id data = Ok frame) <->
  (0 <= c <= 255 /\
   identifier_fits data_id = true /\
   maskable (data_field_of data_id data) = true /\
   (length (data_field_of data_id data) <= 255)%nat).
Proof.
  rewrite build_frame_eq. unfold data_field_of. split.
  - intros (frame & H).
    destruct (as_byte c) as [cb |] eqn:Hcb; cbn [bind] in H; [| discriminate].
    destruct (identifier_bytes data_id) as [idb |] eqn:Hid; cbn [bind] in H;
      [| discriminate].
    destruct (_add_33h (idb ++ payload_of data)) as [m |] eqn:Hm; cbn [bind] in H;
      [| discriminate].
    destruct (as_byte (Z.of_nat (length m))) as [lb |] eqn:Hlb; cbn [bind] in H;
      [| discriminate].
    apply identifier_bytes_Ok in Hid as [Hfit ->].
    split; [apply as_byte_Ok_iff; eauto |]. split; [exact Hfit |].
    split; [apply (add_33h_Ok_maskable _ _ Hm) |].
    rewrite <- (add_33h_length _ _ Hm).
    assert (Hl : 0 <= Z.of_nat (length m) <= 255) by (apply as_byte_Ok_iff; eauto).
    lia.
  - intros (Hc & Hfit & Hmask & Hlen).
    destruct (proj2 (as_byte_Ok_iff c) Hc) as (cb & ->).
    rewrite (proj2 (identifier_bytes_Ok data_id (id_bytes data_id))
               (conj Hfit eq_refl)).
    cbn [bind]. destruct (add_33h_maskable _ Hmask) as (m & Hm). rewrite Hm.
    cbn [bind]. rewrite (add_33h_length _ _ Hm).
    destruct (proj2 (as_byte_Ok_iff (Z.of_nat (length (id_bytes data_id ++ payload_of data)))))
      as (lb & ->); [lia |].
    cbn [bind].
    match goal with
    | |- context [as_byte (_calculate_checksum ?fr)] =>
        destruct (as_byte_range _ (checksum_range fr)) as (csb & -> & _)
    end.
    cbn [bind]. eauto.
Qed.

(** X3: [_build_frame] returns a frame exactly when the control code is a
    byte, the identifier (if any) fits 4 bytes, every byte of the data
    field is at most 0xCC and the data field has at most 255 bytes; the
    address plays no part in it. *)
Theorem build_frame_succeeds_iff (self : DLT645Protocol) (c : Z)
  (data_id : option Z) (data : option bytes) :
  (exists frame, Read._build_frame self c data_id data = Ok frame) <->
  (0 <= c <= 255 /\
   identifier_fits data_id = true /\
   maskable (data_field_of data_id data) = true /\
   (length (data_field_of data_id data) <= 255)%nat).
Proof. apply build_frame_Ok_iff. Qed.

(** Parsing a built frame, in general. *)
Lemma parse_built_frame (self : DLT645Protocol) (c : Z)
  (data_id : option Z) (data : option bytes) (frame : bytes) :
  length (address self) = 6%nat ->
  Read._build_frame self c data_id data = Ok frame ->
  first_failed_check frame = None /\
  length frame = (12 + length (data_field_of data_id data))%nat /\
  Read._parse_response self frame =
    Ok {| r_address := address self; r_control := c;
          r_data_id := fst (split_data_field (data_field_of data_id data));
          r_data := snd (split_data_field (data_field_of data_id data));
          r_raw := frame |}.
Proof.
  intros Haddr Hb. destruct self as [addr]. cbn [address] in *.
  destruct addr as [| a0 [| a1 [| a2 [| a3 [| a4 [| a5 [| ? ?]]]]]]];
    try discriminate Haddr. clear Haddr.
  destruct (build_frame_stages _ _ _ _ _ _ _ _ _ _ Hb)
    as (cb & lb & m & csb & -> & Hcb & Hlb & Hcsb & Hm).
  rewrite first_failed_check_shaped, parse_shaped, shaped_length.
  change (int_of_byte x68 =? FRAME_START) with true.
  change (int_of_byte x16 =? FRAME_END) with true. cbn [negb orb].
  rewrite Hlb, Z.eqb_refl, Hcsb, Z.eqb_refl. cbn [negb].
  rewrite (add_33h_length _ _ Hm).
  split; [reflexivity |]. split; [reflexivity |].
  unfold unmask_and_split. rewrite sub_33h_guard, (sub_add_33h _ _ Hm).
  cbn [bind]. unfold split_data_field, slice. rewrite Nat.sub_0_r. cbn [skipn].
  destruct (4 <=? length (data_field_of data_id data))%nat; cbn [fst snd];
    rewrite Hcb; reflexivity.
Qed.

(** X4: every frame [_build_frame] returns (for a 6-byte address) has 12
    bytes more than its data field, passes all five checks of the parser,
    and is parsed back to the address, the control code and the data field
    split after its fourth byte, with the frame itself as ['raw']. *)
Theorem built_frame_is_accepted (self : DLT645Protocol) (c : Z)
  (data_id : option Z) (data : option bytes) (frame : bytes) :
  length (address self) = 6%nat ->
  Read._build_frame self c data_id data = Ok frame ->
  first_failed_check frame = None /\
  length frame = (12 + length (data_field_of data_id data))%nat /\
  Read._parse_response self frame =
    Ok {| r_address := address self; r_control := c;
          r_data_id := fst (split_data_field (data_field_of data_id data));
          r_data := snd (split_data_field (data_field_of data_id data));
          r_raw := frame |}.
Proof. apply parse_built_frame. Qed.

Lemma built_frame_is_accepted_witness :
  first_failed_check
    [x68; x01; x00; x00; x00; x00; x00; x68; x11; x04;
     x33; x33; x33; x33; xb2; x16] = None /\
  length [x68; x01; x00; x00; x00; x00; x00; x68; x11; x04;
          x33; x33; x33; x33; xb2; x16]
  = (12 + length (data_field_of (Some 0%Z) None))%nat /\
  Read._parse_response {| address := [x01; x00; x00; x00; x00; x00] |}
    [x68; x01; x00; x00; x00; x00; x00; x68; x11; x04;
     x33; x33; x33; x33; xb2; x16] =
    Ok {| r_address := address {| address := [x01; x00; x00; x00; x00; x00] |};
          r_control := CMD_READ_DATA;
          r_data_id := fst (split_data_field (data_field_of (Some 0) None));
          r_data := snd (split_data_field (data_field_of (Some 0) None));
          r_raw := [x68; x01; x00; x00; x00; x00; x00; x68; x11; x04;
                    x33; x33; x33; x33; xb2; x16] |}.
Proof.
  apply (built_frame_is_accepted {| address := [x01; x00; x00; x00; x00; x00] |}
           CMD_READ_DATA (Some 0) None).
  - reflexivity.
  - vm_compute. reflexivity.
Defined.

(** X5: a frame built without an identifier does not always come back
    without one.  A payload of fewer than 4 bytes is returned as payload
    with no identifier; a payload of 4 bytes or more loses its first four
    bytes, which the parser returns as the identifier. *)
Theorem payload_only_frame_parsed (self : DLT645Protocol) (c : Z)
  (payload frame : bytes) :
  length (address self) = 6%nat ->
  Read._build_frame self c None (Some payload) = Ok frame ->
  exists p,
    Read._parse_response self frame = Ok p /\
    ((length payload < 4)%nat -> r_data_id p = None /\ r_data p = payload) /\
    ((4 <= length payload)%nat ->
     r_data_id p = Some (from_bytes_little (firstn 4 payload)) /\
     r_data p = skipn 4 payload).
Proof.
  intros Haddr Hb.
  destruct (parse_built_frame self c None (Some payload) frame Haddr Hb)
    as (_ & _ & Hp).
  eexists. split; [exact Hp |]. cbn [r_data_id r_data].
  unfold split_data_field, data_field_of. cbn [id_bytes payload_of app].
  split; intros Hl.
  - replace (4 <=? length payload)%nat with false
      by (symmetry; apply Nat.leb_gt; exact Hl).
    split; reflexivity.
  - replace (4 <=? length payload)%nat with true
      by (symmetry; apply Nat.leb_le; exact Hl).
    split; reflexivity.
Qed.

Lemma payload_only_frame_parsed_witness :
  exists p,
    Read._parse_response {| address := [x01; x00; x00; x00; x00; x00] |}
      [x68; x01; x00; x00; x00; x00; x00; x68; x14; x05;
       x34; x35; x36; x37; x38; xf8; x16] = Ok p /\
    ((length [x01; x02; x03; x04; x05] < 4)%nat ->
     r_data_id p = None /\ r_data p = [x01; x02; x03; x04; x05]) /\
    ((4 <= length [x01; x02; x03; x04; x05])%nat ->
     r_data_id p = Some (from_bytes_little (firstn 4 [x01; x02; x03; x04; x05])) /\
     r_data p = skipn 4 [x01; x02; x03; x04; x05]).
Proof.
  apply (payload_only_frame_parsed {| address := [x01; x00; x00; x00; x00; x00] |}
           0x14 [x01; x02; x03; x04; x05]).
  - reflexivity.
  - vm_compute. reflexivity.
Defined.

(** ** The parser on every input *)

(** X6: what [_parse_response] of dlt645_read.py does on every byte
    sequence.  It raises the first failed check if there is one; otherwise
    it raises [ValueError] when a data byte is below 0x33, and else returns
    bytes 1..6 as address, byte 8 as control code, and the data field
    (bytes 10 to the checksum, each less 0x33) split after its fourth
    byte. *)
Theorem parse_response_outcome (self : DLT645Protocol) (response : bytes) :
  Read._parse_response self response =
    match first_failed_check response with
    | Some e => Raise e
    | None =>
        let m := slice response 10 (length response - 2) in
        if unmaskable m then
          Ok {| r_address := slice response 1 7;
                r_control := nth_int response 8;
                r_data_id := fst (split_data_field (unmask_mod m));
                r_data := snd (split_data_field (unmask_mod m));
                r_raw := response |}
        else Raise ByteRangeError
    end.
Proof.
  destruct (Nat.lt_ge_cases (length response) 12) as [Hs | Hl].
  - unfold first_failed_check, Read._parse_response.
    replace (length response <? 12)%nat with true
      by (symmetry; apply Nat.ltb_lt; exact Hs).
    reflexivity.
  - destruct (shape_of_long_response response Hl)
      as (b0 & a0 & a1 & a2 & a3 & a4 & a5 & b7 & cb & lb & m & csb & eb & ->).
    rewrite first_failed_check_shaped, parse_shaped.
    destruct (negb (int_of_byte b0 =? FRAME_START)
              || negb (int_of_byte eb =? FRAME_END))%bool; [reflexivity |].
    destruct (negb (int_of_byte b7 =? FRAME_START)); [reflexivity |].
    destruct (negb (Z.of_nat (length m) =? int_of_byte lb)); [reflexivity |].
    destruct (negb (int_of_byte csb =? _calculate_checksum _)); [reflexivity |].
    cbv zeta. rewrite shaped_length.
    replace (12 + length m - 2)%nat with (10 + length m)%nat by lia.
    rewrite shaped_data.
    unfold unmask_and_split. rewrite sub_33h_guard, sub_33h_cases.
    destruct (unmaskable m); [| reflexivity].
    cbn [bind]. unfold split_data_field, slice. rewrite Nat.sub_0_r. cbn [skipn].
    destruct (4 <=? length (unmask_mod m))%nat; reflexivity.
Qed.

(** The parser of dlt645_read_1.py on a response whose declared length is
    the length of its body. *)
Lemma parse1_shaped_consistent (self : DLT645Protocol)
  (b0 a0 a1 a2 a3 a4 a5 b7 cb lb : byte) (m : bytes) (csb eb : byte) :
  Z.of_nat (length m) = int_of_byte lb ->
  Read1._parse_response self (shaped b0 a0 a1 a2 a3 a4 a5 b7 cb lb m csb eb) =
    if (negb (int_of_byte b0 =? FRAME_START)
        || negb (int_of_byte eb =? FRAME_END))%bool
    then Raise InvalidFrameMarkers
    else if negb (int_of_byte b7 =? FRAME_START) then Raise InvalidSecondStart
    else if negb (int_of_byte csb
                  =? _calculate_checksum (hd10 b0 a0 a1 a2 a3 a4 a5 b7 cb lb ++ m))
    then Raise ChecksumMismatch
    else
      match unmask_and_split [a0; a1; a2; a3; a4; a5] (int_of_byte cb)
              (shaped b0 a0 a1 a2 a3 a4 a5 b7 cb lb m csb eb) m with
      | Ok p => Ok (without_address p)
      | Raise e => Raise e
      end.
Proof.
  intros E. set (fr := shaped b0 a0 a1 a2 a3 a4 a5 b7 cb lb m csb eb).
  unfold Read1._parse_response.
  assert (Hn : length fr = (12 + length m)%nat) by apply shaped_length.
  rewrite Hn.
  replace (12 + length m <? 12)%nat with false
    by (symmetry; apply Nat.ltb_ge; lia).
  change (getitem fr 0) with (Ok (int_of_byte b0)).
  change (getitem fr 7) with (Ok (int_of_byte b7)).
  change (getitem fr 8) with (Ok (int_of_byte cb)).
  change (getitem fr 9) with (Ok (int_of_byte lb)).
  cbn [bind].
  assert (Hlast : getitem_last fr = Ok (int_of_byte eb)) by apply shaped_last.
  rewrite Hlast. cbn [bind].
  destruct (int_of_byte b0 =? FRAME_START); cbn [negb orb bind]; [| reflexivity].
  destruct (int_of_byte eb =? FRAME_END); cbn [negb]; [| reflexivity].
  destruct (int_of_byte b7 =? FRAME_START); cbn [negb]; [| reflexivity].
  rewrite <- E.
  replace (Z.to_nat (10 + Z.of_nat (length m))) with (10 + length m)%nat by lia.
  subst fr. rewrite shaped_checksum_byte, shaped_data, shaped_summed. cbn [bind].
  destruct (int_of_byte csb =? _calculate_checksum _); cbn [negb]; [| reflexivity].
  unfold unmask_and_split. rewrite !sub_33h_guard.
  destruct (_sub_33h m) as [d |]; cbn [bind]; [| reflexivity].
  destruct (4 <=? length d)%nat; reflexivity.
Qed.

Lemma parse1_of_parse (self : DLT645Protocol)
  (response : bytes) (p : parsed) :
  Read._parse_response self response = Ok p ->
  Read1._parse_response self response = Ok (without_address p).
Proof.
  destruct (Nat.lt_ge_cases (length response) 12) as [Hs | Hl].
  - unfold Read._parse_response.
    replace (length response <? 12)%nat with true
      by (symmetry; apply Nat.ltb_lt; exact Hs).
    discriminate.
  - destruct (shape_of_long_response response Hl)
      as (b0 & a0 & a1 & a2 & a3 & a4 & a5 & b7 & cb & lb & m & csb & eb & ->).
    rewrite parse_shaped.
    destruct (negb (int_of_byte b0 =? FRAME_START)
              || negb (int_of_byte eb =? FRAME_END))%bool eqn:H1; [discriminate |].
    destruct (negb (int_of_byte b7 =? FRAME_START)) eqn:H2; [discriminate |].
    destruct (Z.eqb_spec (Z.of_nat (length m)) (int_of_byte lb)) as [E | E];
      cbn [negb]; [| discriminate].
    destruct (negb (int_of_byte csb =? _calculate_checksum _)) eqn:H3;
      [discriminate |].
    intros Hp. rewrite (parse1_shaped_consistent self _ _ _ _ _ _ _ _ _ _ _ _ _ E).
    rewrite H1, H2, H3, Hp. reflexivity.
Qed.

(** X7: whatever the parser of dlt645_read.py accepts, the parser of
    dlt645_read_1.py accepts too, with the same control code, identifier,
    payload and raw bytes (its dictionary has no address). *)
Theorem parse1_accepts_what_parse_accepts (self : DLT645Protocol)
  (response : bytes) (p : parsed) :
  Read._parse_response self response = Ok p ->
  Read1._parse_response self response = Ok (without_address p).
Proof. apply parse1_of_parse. Qed.

Lemma parse1_accepts_what_parse_accepts_witness :
  Read1._parse_response {| address := [x01; x00; x00; x00; x00; x00] |}
    [x68; x01; x00; x00; x00; x00; x00; x68; x91; x04;
     x33; x33; x33; x33; x32; x16]
  = Ok (without_address
          {| r_address := [x01; x00; x00; x00; x00; x00]; r_control := 0x91;
             r_data_id := Some 0; r_data := [];
             r_raw := [x68; x01; x00; x00; x00; x00; x00; x68; x91; x04;
                       x33; x33; x33; x33; x32; x16] |}).
Proof.
  apply (parse1_accepts_what_parse_accepts
           {| address := [x01; x00; x00; x00; x00; x00] |}).
  vm_compute. reflexivity.
Defined.

Lemma build1_eq (self : DLT645Protocol) (c id : Z) :
  Read1._build_frame self c id = Read._build_frame self c (Some id) None.
Proof.
  rewrite build_frame_eq. unfold Read1._build_frame, bytearray_append.
  change (as_byte FRAME_START) with (Ok x68).
  change (as_byte FRAME_END) with (Ok x16).
  cbn [bind app identifier_bytes payload_of].
  destruct (as_byte c) as [cb |]; cbn [bind]; [| reflexivity].
  destruct (to_bytes_little id 4) as [idb |]; cbn [bind]; [| reflexivity].
  rewrite app_nil_r.
  destruct (_add_33h idb) as [m |]; cbn [bind]; [| reflexivity].
  destruct (as_byte (Z.of_nat (length m))) as [lb |]; cbn [bind]; [| reflexivity].
  assert (Hfr : ((x68 :: (address self ++ [x68]) ++ [cb]) ++ [lb]) ++ m
                = x68 :: address self ++ x68 :: cb :: lb :: m).
  { cbn [app]. repeat rewrite <- app_assoc. reflexivity. }
  rewrite Hfr.
  match goal with
  | |- context [as_byte (_calculate_checksum ?fr)] =>
      destruct (as_byte (_calculate_checksum fr)) as [csb |]
  end; cbn [bind]; [| reflexivity].
  cbn [app]. repeat rewrite <- app_assoc. reflexivity.
Qed.

(** X8: the request builder of dlt645_read_1.py is the builder of
    dlt645_read.py called with an identifier and no payload. *)
Theorem build1_is_build_without_payload (self : DLT645Protocol) (c id : Z) :
  Read1._build_frame self c id = Read._build_frame self c (Some id) None.
Proof. apply build1_eq. Qed.

(** ** The fixed-width decoders *)

Lemma is_bcd_firstn (n : nat) (data : bytes) :
  is_bcd data = true -> is_bcd (firstn n data) = true.
Proof. apply forallb_firstn. Qed.

Lemma bcd_value_range (data : bytes) :
  is_bcd data = true -> 0 <= bcd_value data < 100 ^ Z.of_nat (length data).
Proof.
  induction data as [| b data IH]; [cbn; lia |].
  cbn [is_bcd forallb]. intros H.
  apply andb_true_iff in H as [Hb Hd]. apply andb_true_iff in Hb as [Hh Hl].
  apply Z.ltb_lt in Hh, Hl. specialize (IH Hd).
  pose proof (int_of_byte_range b) as Hr.
  assert (0 <= int_of_byte b / 16) by (apply Z.div_pos; lia).
  assert (0 <= int_of_byte b mod 16) by (apply Z.mod_pos_bound; lia).
  cbn [bcd_value length]. rewrite Nat2Z.inj_succ, Z.pow_succ_r by lia. lia.
Qed.

(** [float] on the rendering of BCD bytes with the point [n] digits from
    the end. *)
Lemma render_point_value (d : bytes) (n : nat) :
  is_bcd d = true -> d <> [] -> (n <= 2 * length d)%nat ->
  py_float (drop_last n (render_reversed d) ++ [dot]
            ++ take_last n (render_reversed d))
  = Ok (decimal_value (bcd_value d) (- Z.of_nat n)).
Proof.
  intros Hbcd Hne Hn.
  pose proof (nibbles_bcd d Hbcd) as Hds.
  pose proof (nibbles_length d) as Hlen.
  rewrite render_reversed_nibbles, drop_last_map, take_last_map.
  assert (Hsplit : drop_last n (nibbles d) ++ take_last n (nibbles d) = nibbles d)
    by apply drop_take_last.
  assert (Hdl : Forall (fun x => 0 <= x < 10) (drop_last n (nibbles d))
                /\ Forall (fun x => 0 <= x < 10) (take_last n (nibbles d))).
  { apply Forall_app. rewrite Hsplit. exact Hds. }
  destruct Hdl as [Hd Ht].
  assert (Hnn : drop_last n (nibbles d) ++ take_last n (nibbles d) <> []).
  { rewrite Hsplit. intros E. rewrite E in Hlen. destruct d; [congruence |].
    cbn in Hlen. lia. }
  rewrite (py_float_point _ _ Hd Ht Hnn), Hsplit, digits_value_nibbles.
  rewrite take_last_length by lia. reflexivity.
Qed.

Lemma firstn_not_nil {A : Type} (n : nat) (l : list A) :
  (0 < n <= length l)%nat -> firstn n l <> [].
Proof.
  intros H E. apply (f_equal (@length A)) in E.
  rewrite length_firstn in E. cbn in E. lia.
Qed.

Lemma render_reversed_length (d : bytes) :
  length (render_reversed d) = (2 * length d)%nat.
Proof. rewrite render_reversed_nibbles, length_map. apply nibbles_length. Qed.

Ltac decode_fixed n :=
  match goal with
  | Hbcd : is_bcd ?data = true |- (?w <= length ?data)%nat -> _ =>
      let Hl := fresh "Hl" in
      intros Hl;
      replace (length data <? w)%nat with false
        by (symmetry; apply Nat.ltb_ge; exact Hl);
      unfold slice; rewrite Nat.sub_0_r; cbn [skipn];
      rewrite render_reversed_length, length_firstn;
      replace (Nat.min w (length data)) with w by lia;
      cbn [Nat.mul Nat.add Nat.leb];
      rewrite (render_point_value (firstn w data) n);
        [reflexivity
        | apply is_bcd_firstn; exact Hbcd
        | apply firstn_not_nil; lia
        | rewrite length_firstn; lia]
  end.

(** X9: on a payload of BCD bytes each fixed-width decoder returns the
    number written by its first bytes read in reverse order, scaled by its
    decimal places: energy 4 bytes and 2 places, voltage 2 bytes and 1
    place, current 3 bytes and 3 places, power 3 bytes and 4 places. *)
Theorem fixed_decoders_value (data : bytes) :
  is_bcd data = true ->
  ((4 <= length data)%nat ->
   decode_energy data = Ok (Some (decimal_value (bcd_value (firstn 4 data)) (-2)))) /\
  ((2 <= length data)%nat ->
   decode_voltage data = Ok (Some (decimal_value (bcd_value (firstn 2 data)) (-1)))) /\
  ((3 <= length data)%nat ->
   decode_current data = Ok (Some (decimal_value (bcd_value (firstn 3 data)) (-3)))) /\
  ((3 <= length data)%nat ->
   decode_power data = Ok (Some (decimal_value (bcd_value (firstn 3 data)) (-4)))).
Proof.
  intros Hbcd.
  unfold decode_energy, decode_voltage, decode_current, decode_power.
  repeat split.
  - decode_fixed 2%nat.
  - decode_fixed 1%nat.
  - decode_fixed 3%nat.
  - decode_fixed 4%nat.
Qed.

Lemma fixed_decoders_value_witness :
  ((4 <= length [x21; x43; x65; x07])%nat ->
   decode_energy [x21; x43; x65; x07]
   = Ok (Some (decimal_value (bcd_value (firstn 4 [x21; x43; x65; x07])) (-2)))) /\
  ((2 <= length [x21; x43; x65; x07])%nat ->
   decode_voltage [x21; x43; x65; x07]
   = Ok (Some (decimal_value (bcd_value (firstn 2 [x21; x43; x65; x07])) (-1)))) /\
  ((3 <= length [x21; x43; x65; x07])%nat ->
   decode_current [x21; x43; x65; x07]
   = Ok (Some (decimal_value (bcd_value (firstn 3 [x21; x43; x65; x07])) (-3)))) /\
  ((3 <= length [x21; x43; x65; x07])%nat ->
   decode_power [x21; x43; x65; x07]
   = Ok (Some (decimal_value (bcd_value (firstn 3 [x21; x43; x65; x07])) (-4)))).
Proof.
  apply (fixed_decoders_value [x21; x43; x65; x07]). vm_compute. reflexivity.
Defined.

Lemma decimal_value_bounds (m k B : Z) :
  0 < k -> 0 < B -> 0 <= m < B * 10 ^ k ->
  (0 <= decimal_value m (- k))%Q /\ (decimal_value m (- k) < inject_Z B)%Q.
Proof.
  intros Hk HB Hm. unfold decimal_value.
  destruct (Z.leb_spec 0 (- k)) as [H | _]; [lia |].
  rewrite Z.opp_involutive.
  assert (Hp : 0 < 10 ^ k) by (apply Z.pow_pos_nonneg; lia).
  split.
  - rewrite Qred_correct. unfold Qle. cbn [Qnum Qden]. lia.
  - rewrite Qred_correct. unfold Qlt, inject_Z. cbn [Qnum Qden].
    rewrite Z2Pos.id by exact Hp. lia.
Qed.

(** X10: the values decoded from BCD payloads are bounded by the width of
    the register: energy lies in [0, 1000000), voltage and current in
    [0, 1000), power in [0, 100). *)
Theorem fixed_decoders_range (data : bytes) :
  is_bcd data = true ->
  ((4 <= length data)%nat ->
   exists v, decode_energy data = Ok (Some v) /\ (0 <= v)%Q /\ (v < 1000000)%Q) /\
  ((2 <= length data)%nat ->
   exists v, decode_voltage data = Ok (Some v) /\ (0 <= v)%Q /\ (v < 1000)%Q) /\
  ((3 <= length data)%nat ->
   exists v, decode_current data = Ok (Some v) /\ (0 <= v)%Q /\ (v < 1000)%Q) /\
  ((3 <= length data)%nat ->
   exists v, decode_power data = Ok (Some v) /\ (0 <= v)%Q /\ (v < 100)%Q).
Proof.
  intros Hbcd.
  assert (Hr : forall w : nat, (w <= length data)%nat ->
             0 <= bcd_value (firstn w data) < 100 ^ Z.of_nat w).
  { intros w Hw. pose proof (bcd_value_range _ (is_bcd_firstn w data Hbcd)) as H.
    rewrite length_firstn in H. replace (Nat.min w (length data)) with w in H by lia.
    exact H. }
  unfold decode_energy, decode_voltage, decode_current, decode_power.
  repeat split.
  - intros Hl. eexists. split; [revert Hl; decode_fixed 2%nat |].
    apply (decimal_value_bounds _ 2 1000000); try lia.
    specialize (Hr 4%nat Hl). change (100 ^ Z.of_nat 4) with 100000000 in Hr. lia.
  - intros Hl. eexists. split; [revert Hl; decode_fixed 1%nat |].
    apply (decimal_value_bounds _ 1 1000); try lia.
    specialize (Hr 2%nat Hl). change (100 ^ Z.of_nat 2) with 10000 in Hr. lia.
  - intros Hl. eexists. split; [revert Hl; decode_fixed 3%nat |].
    apply (decimal_value_bounds _ 3 1000); try lia.
    specialize (Hr 3%nat Hl). change (100 ^ Z.of_nat 3) with 1000000 in Hr. lia.
  - intros Hl. eexists. split; [revert Hl; decode_fixed 4%nat |].
    apply (decimal_value_bounds _ 4 100); try lia.
    specialize (Hr 3%nat Hl). change (100 ^ Z.of_nat 3) with 1000000 in Hr. lia.
Qed.

Lemma fixed_decoders_range_witness :
  ((4 <= length [x99; x99; x99; x99])%nat ->
   exists v, decode_energy [x99; x99; x99; x99] = Ok (Some v)
             /\ (0 <= v)%Q /\ (v < 1000000)%Q) /\
  ((2 <= length [x99; x99; x99; x99])%nat ->
   exists v, decode_voltage [x99; x99; x99; x99] = Ok (Some v)
             /\ (0 <= v)%Q /\ (v < 1000)%Q) /\
  ((3 <= length [x99; x99; x99; x99])%nat ->
   exists v, decode_current [x99; x99; x99; x99] = Ok (Some v)
             /\ (0 <= v)%Q /\ (v < 1000)%Q) /\
  ((3 <= length [x99; x99; x99; x99])%nat ->
   exists v, decode_power [x99; x99; x99; x99] = Ok (Some v)
             /\ (0 <= v)%Q /\ (v < 100)%Q).
Proof.
  apply (fixed_decoders_range [x99; x99; x99; x99]). vm_compute. reflexivity.
Defined.

(** X11: the fixed-width decoders read their first bytes only: whatever
    follows the 4th byte (2nd for voltage, 3rd for current and power) has
    no effect on the result. *)
Theorem fixed_decoders_ignore_tail (data : bytes) :
  ((4 <= length data)%nat -> decode_energy data = decode_energy (firstn 4 data)) /\
  ((2 <= length data)%nat -> decode_voltage data = decode_voltage (firstn 2 data)) /\
  ((3 <= length data)%nat -> decode_current data = decode_current (firstn 3 data)) /\
  ((3 <= length data)%nat -> decode_power data = decode_power (firstn 3 data)).
Proof.
  unfold decode_energy, decode_voltage, decode_current, decode_power.
  repeat split; intros Hl;
    rewrite length_firstn, slice_firstn by lia;
    match goal with
    | |- context [(Nat.min ?w (length data) <? ?w)%nat] =>
        replace (Nat.min w (length data)) with w by lia;
        replace (length data <? w)%nat with false
          by (symmetry; apply Nat.ltb_ge; exact Hl);
        replace (w <? w)%nat with false by (symmetry; apply Nat.ltb_irrefl)
    end; reflexivity.
Qed.

(** ** The voltage decoder on arbitrary bytes *)

Lemma in_all_bytes (b : byte) : In b all_bytes.
Proof.
  unfold all_bytes. apply in_map_iff.
  exists (Z.to_nat (int_of_byte b)). pose proof (int_of_byte_range b) as Hr.
  split.
  - apply int_of_byte_inj. rewrite low_byte_int, Z2Nat.id, Z.mod_small; lia.
  - apply in_seq. lia.
Qed.

Lemma voltage_pairs_checked :
  forallb (fun b0 =>
    forallb (fun b1 =>
      (is_bcd [b0; b1] || is_none (decode_voltage [b0; b1]))%bool) all_bytes)
    all_bytes = true.
Proof. vm_compute. reflexivity. Qed.

(** X12: the voltage decoder gives a value only for BCD bytes: if one of
    the four nibbles of its two bytes is not a decimal digit, it returns
    none.  (The other decoders do not have this property: they can read a
    nibble E as an exponent.) *)
Theorem decode_voltage_rejects_non_bcd (data : bytes) :
  (2 <= length data)%nat ->
  is_bcd (firstn 2 data) = false ->
  decode_voltage data = Ok None.
Proof.
  intros Hl Hn.
  destruct data as [| b0 [| b1 tl]]; cbn in Hl; try lia.
  cbn [firstn] in Hn.
  change (decode_voltage (b0 :: b1 :: tl)) with (decode_voltage [b0; b1]).
  pose proof voltage_pairs_checked as H.
  rewrite forallb_forall in H. specialize (H b0 (in_all_bytes b0)).
  rewrite forallb_forall in H. specialize (H b1 (in_all_bytes b1)).
  rewrite Hn in H. cbn [orb] in H.
  destruct (decode_voltage [b0; b1]) as [[v |] |]; try discriminate H.
  reflexivity.
Qed.

Lemma decode_voltage_rejects_non_bcd_witness :
  decode_voltage [x3a; x22; x01] = Ok None.
Proof.
  apply (decode_voltage_rejects_non_bcd [x3a; x22; x01]).
  - cbn. lia.
  - vm_compute. reflexivity.
Defined.

(** ** The address codec on every string *)







Lemma dec_digit_range (c : ascii) (x : Z) : dec_digit c = Some x -> 0 <= x <= 9.
Proof.
  unfold dec_digit.
  destruct ((48 <=? nat_of_ascii c)%nat && (nat_of_ascii c <=? 57)%nat)%bool eqn:E;
    [| discriminate].
  apply andb_true_iff in E as [E1 E2].
  apply Nat.leb_le in E1, E2. intros [= <-]. lia.
Qed.

Lemma dec_digit_inj (a b : ascii) (x : Z) :
  dec_digit a = Some x -> dec_digit b = Some x -> a = b.
Proof.
  unfold dec_digit.
  destruct ((48 <=? nat_of_ascii a)%nat && (nat_of_ascii a <=? 57)%nat)%bool;
    [| discriminate].
  destruct ((48 <=? nat_of_ascii b)%nat && (nat_of_ascii b <=? 57)%nat)%bool;
    [| discriminate].
  intros [= <-] [= E].
  rewrite <- (ascii_nat_embedding a), <- (ascii_nat_embedding b).
  f_equal. lia.
Qed.

Lemma pair_byte_inj_dec (a b c d : ascii) :
  is_dec_char a = true -> is_dec_char b = true ->
  is_dec_char c = true -> is_dec_char d = true ->
  pair_byte (a, b) = pair_byte (c, d) -> a = c /\ b = d.
Proof.
  unfold is_dec_char. intros Ha Hb Hc Hd E.
  destruct (dec_digit a) as [xa |] eqn:Ea; [| discriminate].
  destruct (dec_digit b) as [xb |] eqn:Eb; [| discriminate].
  destruct (dec_digit c) as [xc |] eqn:Ec; [| discriminate].
  destruct (dec_digit d) as [xd |] eqn:Ed; [| discriminate].
  pose proof (dec_digit_range _ _ Ea). pose proof (dec_digit_range _ _ Eb).
  pose proof (dec_digit_range _ _ Ec). pose proof (dec_digit_range _ _ Ed).
  apply (f_equal int_of_byte) in E. unfold pair_byte, hex_value in E.
  cbn [fst snd] in E.
  rewrite (dec_digit_hex _ _ Ea), (dec_digit_hex _ _ Eb),
          (dec_digit_hex _ _ Ec), (dec_digit_hex _ _ Ed) in E.
  rewrite !low_byte_int, !Z.mod_small in E by lia.
  assert (xa = xc) by lia. assert (xb = xd) by lia. subst xc xd.
  split; [exact (dec_digit_inj _ _ _ Ea Ec) | exact (dec_digit_inj _ _ _ Eb Ed)].
Qed.

Lemma pad12_dec (s : str) :
  forallb is_dec_char s = true -> forallb is_dec_char (pad12 s) = true.
Proof.
  intros H. unfold pad12. rewrite forallb_app, H, andb_true_r.
  induction (12 - length s)%nat as [| n IH]; cbn; [reflexivity | exact IH].
Qed.

(** X14: on decimal address strings of at most 12 digits the codec loses
    nothing but leading zeros: two strings with the same wire address are
    the same once zero-filled to 12 digits. *)
Theorem format_address_injective (s1 s2 : str) :
  forallb is_dec_char s1 = true -> forallb is_dec_char s2 = true ->
  (length s1 <= 12)%nat -> (length s2 <= 12)%nat ->
  _format_address s1 = _format_address s2 ->
  pad12 s1 = pad12 s2.
Proof.
  intros Hd1 Hd2 Hl1 Hl2.
  rewrite (format_address_hex s1), (format_address_hex s2)
    by (apply forallb_firstn, is_dec_is_hex; assumption).
  unfold address_codec. intros [= E].
  apply (f_equal (@rev byte)) in E. rewrite !rev_involutive in E.
  pose proof (pad12_length s1 Hl1) as L1. pose proof (pad12_length s2 Hl2) as L2.
  pose proof (pad12_dec s1 Hd1) as D1. pose proof (pad12_dec s2 Hd2) as D2.
  destruct (pad12 s1) as [| c0 [| c1 [| c2 [| c3 [| c4 [| c5 [| c6 [| c7
    [| c8 [| c9 [| c10 [| c11 [| ? ?]]]]]]]]]]]]]; try discriminate L1.
  destruct (pad12 s2) as [| d0 [| d1 [| d2 [| d3 [| d4 [| d5 [| d6 [| d7
    [| d8 [| d9 [| d10 [| d11 [| ? ?]]]]]]]]]]]]]; try discriminate L2.
  cbn [pairs firstn map] in E. cbn [forallb] in D1, D2.
  repeat match goal with
         | H : (_ && _)%bool = true |- _ =>
             let H1 := fresh "H" in apply andb_true_iff in H as [H1 H]
         end.
  injection E as E0 E1 E2 E3 E4 E5.
  apply pair_byte_inj_dec in E0 as [-> ->]; try assumption.
  apply pair_byte_inj_dec in E1 as [-> ->]; try assumption.
  apply pair_byte_inj_dec in E2 as [-> ->]; try assumption.
  apply pair_byte_inj_dec in E3 as [-> ->]; try assumption.
  apply pair_byte_inj_dec in E4 as [-> ->]; try assumption.
  apply pair_byte_inj_dec in E5 as [-> ->]; try assumption.
  reflexivity.
Qed.

Lemma format_address_injective_witness :
  pad12 (lit "270235") = pad12 (lit "0270235").
Proof.
  apply (format_address_injective (lit "270235") (lit "0270235")).
  - vm_compute. reflexivity.
  - vm_compute. reflexivity.
  - cbn. lia.
  - cbn. lia.
  - vm_compute. reflexivity.
Defined.

(** ** The exchange on every line *)

Lemma count_events_app (f : event -> bool) (t1 t2 : list event) :
  count_events f (t1 ++ t2) = (count_events f t1 + count_events f t2)%nat.
Proof. unfold count_events. rewrite filter_app, length_app. reflexivity. Qed.

Lemma exchange_once_counts (frame : bytes) (a : attempt) :
  (count_events is_write (fst (exchange_once frame a)) <= 2)%nat /\
  (count_events is_reset_input (fst (exchange_once frame a)) <= 1)%nat.
Proof.
  destruct a as [chunks | [| [| [| [| n]]]]]; cbn; lia.
Qed.

Lemma exchange_once_response (frame : bytes) (a : attempt) (resp : bytes) :
  snd (exchange_once frame a) = Ok resp ->
  exists chunks, a = Received chunks /\ resp = concat chunks.
Proof.
  destruct a as [chunks | [| [| [| [| n]]]]]; cbn; try discriminate.
  intros [= <-]. eauto.
Qed.

Lemma retry_loop_bounds (frame : bytes) (line : nat -> attempt) (retries : Z)
  (todo attempt : nat) :
  (count_events is_write
     (fst (Transport.retry_loop frame line retries todo attempt)) <= 2 * todo)%nat /\
  (count_events is_reset_input
     (fst (Transport.retry_loop frame line retries todo attempt)) <= todo)%nat /\
  (forall resp,
     snd (Transport.retry_loop frame line retries todo attempt) = Ok resp ->
     resp <> [] /\
     exists k chunks, (attempt <= k < attempt + todo)%nat /\
                      line k = Received chunks /\ resp = concat chunks).
Proof.
  revert attempt. induction todo as [| todo IH]; intros attempt.
  - cbn. split; [lia |]. split; [lia |]. intros resp H. discriminate H.
  - cbn [Transport.retry_loop].
    pose proof (exchange_once_counts frame (line attempt)) as [Hw Hr].
    pose proof (exchange_once_response frame (line attempt)) as Hresp.
    destruct (exchange_once frame (line attempt)) as [tr r]. cbn [fst snd] in *.
    specialize (IH (S attempt)).
    destruct (Transport.retry_loop frame line retries todo (S attempt))
      as [tr' r'].
    cbn [fst snd] in IH. destruct IH as (IHw & IHr & IHresp).
    assert (Hp : forall f, count_events f
                   (if Z.of_nat attempt <? retries - 1 then [Sleep 1000] else [])
                 = count_events f [Sleep 1000] \/
                 count_events f
                   (if Z.of_nat attempt <? retries - 1 then [Sleep 1000] else [])
                 = 0%nat).
    { intros f. destruct (Z.of_nat attempt <? retries - 1); [left | right];
        reflexivity. }
    assert (Hnext : forall resp, r' = Ok resp ->
              resp <> [] /\
              exists k chunks, (attempt <= k < attempt + S todo)%nat /\
                               line k = Received chunks /\ resp = concat chunks).
    { intros resp H. destruct (IHresp resp H) as (Hne & k & chunks & Hk & Hl & He).
      split; [exact Hne |]. exists k, chunks. repeat split; try assumption; lia. }
    destruct r as [[| b resp0] | e].
    + cbn [fst snd]. rewrite !count_events_app.
      destruct (Hp is_write) as [-> | ->];
        destruct (Hp is_reset_input) as [-> | ->];
        change (count_events is_write [Sleep 1000]) with 0%nat;
        change (count_events is_reset_input [Sleep 1000]) with 0%nat;
        (split; [lia |]; split; [lia |]; exact Hnext).
    + cbn [fst snd]. split; [lia |]. split; [lia |].
      intros resp H. injection H as <-. split; [discriminate |].
      destruct (Hresp _ eq_refl) as (chunks & Hl & He).
      exists attempt, chunks. repeat split; try assumption; lia.
    + destruct (Z.of_nat attempt <? retries - 1) eqn:Hlt; cbn [fst snd].
      * rewrite !count_events_app.
        change (count_events is_write [Sleep 1000]) with 0%nat.
        change (count_events is_reset_input [Sleep 1000]) with 0%nat.
        split; [lia |]. split; [lia |]. exact Hnext.
      * split; [lia |]. split; [lia |]. intros resp H. discriminate H.
Qed.

(** X15: whatever the line does, [_send_frame] makes at most [retries]
    attempts (at most [retries] input resets and twice as many writes), and
    a response it returns is never empty: it is what one single attempt
    received, all of its chunks in order.  With the port closed nothing is
    sent. *)
Theorem send_frame_bounded (port_open : bool) (frame : bytes) (retries : Z)
  (line : nat -> attempt) :
  (count_events is_write
     (fst (Transport._send_frame port_open frame retries line))
   <= 2 * Z.to_nat retries)%nat /\
  (count_events is_reset_input
     (fst (Transport._send_frame port_open frame retries line))
   <= Z.to_nat retries)%nat /\
  (forall resp,
     snd (Transport._send_frame port_open frame retries line) = Ok resp ->
     resp <> [] /\
     exists k chunks, (k < Z.to_nat retries)%nat /\
                      line k = Received chunks /\ resp = concat chunks) /\
  (port_open = false ->
   Transport._send_frame port_open frame retries line = ([], Raise PortNotOpen)).
Proof.
  unfold Transport._send_frame. destruct port_open; cbn [negb].
  - pose proof (retry_loop_bounds frame line retries (Z.to_nat retries) 0)
      as (Hw & Hr & Hresp).
    split; [exact Hw |]. split; [exact Hr |]. split; [| discriminate].
    intros resp H. destruct (Hresp resp H) as (Hne & k & chunks & Hk & Hl & He).
    split; [exact Hne |]. exists k, chunks. repeat split; try assumption; lia.
  - cbn. split; [lia |]. split; [lia |]. split; [| reflexivity].
    intros resp H. discriminate H.
Qed.

Lemma exchange_once_quiet (frame : bytes) (a : attempt) :
  is_quiet a = true ->
  (is_fault a = true /\ snd (exchange_once frame a) = Raise SerialException) \/
  (is_fault a = false /\ snd (exchange_once frame a) = Ok []).
Proof.
  destruct a as [chunks | [| [| [| [| n]]]]];
    try (intros _; left; split; reflexivity).
  unfold is_quiet. cbn [is_silent is_fault exchange_once snd].
  destruct (concat chunks); cbn [is_nil orb].
  - intros _. right. split; reflexivity.
  - intros H. discriminate H.
Qed.

Lemma retry_loop_S (frame : bytes) (line : nat -> attempt) (retries : Z)
  (todo attempt : nat) :
  Transport.retry_loop frame line retries (S todo) attempt =
    let '(tr, r) := exchange_once frame (line attempt) in
    let pause :=
      if Z.of_nat attempt <? retries - 1 then [Sleep 1000] else [] in
    match r with
    | Ok (b :: response) => (tr, Ok (b :: response))
    | Ok [] =>
        let '(tr', r') :=
          Transport.retry_loop frame line retries todo (S attempt) in
        (tr ++ pause ++ tr', r')
    | Raise e =>
        if Z.of_nat attempt <? retries - 1 then
          let '(tr', r') :=
            Transport.retry_loop frame line retries todo (S attempt) in
          (tr ++ pause ++ tr', r')
        else (tr, Raise e)
    end.
Proof. reflexivity. Qed.

Lemma retry_loop_quiet (frame : bytes) (line : nat -> attempt) (retries : Z)
  (todo attempt : nat) :
  Z.of_nat (attempt + S todo) = retries ->
  (forall j, (attempt <= j <= attempt + todo)%nat -> is_quiet (line j) = true) ->
  snd (Transport.retry_loop frame line retries (S todo) attempt)
  = Raise (if is_fault (line (attempt + todo)%nat)
           then SerialException else NoResponse).
Proof.
  revert attempt. induction todo as [| todo IH]; intros attempt Hr Hq.
  - rewrite Nat.add_0_r, retry_loop_S. cbn [Transport.retry_loop].
    destruct (exchange_once_quiet frame (line attempt)) as [[Hf He] | [Hf He]];
      [apply Hq; lia | |];
      destruct (exchange_once frame (line attempt)) as [tr r];
      cbn [snd] in He; subst r; rewrite Hf.
    + replace (Z.of_nat attempt <? retries - 1) with false
        by (symmetry; apply Z.ltb_ge; lia).
      reflexivity.
    + reflexivity.
  - rewrite retry_loop_S.
    specialize (IH (S attempt)).
    replace (S attempt + todo)%nat with (attempt + S todo)%nat in IH by lia.
    assert (Hrec : snd (Transport.retry_loop frame line retries (S todo) (S attempt))
                   = Raise (if is_fault (line (attempt + S todo)%nat)
                            then SerialException else NoResponse)).
    { apply IH; [lia |]. intros j Hj. apply Hq. lia. }
    destruct (exchange_once_quiet frame (line attempt)) as [[Hf He] | [Hf He]];
      [apply Hq; lia | |];
      destruct (exchange_once frame (line attempt)) as [tr r];
      cbn [snd] in He; subst r.
    + replace (Z.of_nat attempt <? retries - 1) with true
        by (symmetry; apply Z.ltb_lt; lia).
      destruct (Transport.retry_loop frame line retries (S todo) (S attempt))
        as [tr' r'].
      cbn [snd] in *. exact Hrec.
    + destruct (Transport.retry_loop frame line retries (S todo) (S attempt))
        as [tr' r'].
      cbn [snd] in *. exact Hrec.
Qed.

(** X16: when no attempt brings a response (each is silent or ends in a
    driver exception), the exception [_send_frame] raises is decided by the
    last attempt alone: the driver's exception if the last attempt raised,
    "No response from meter" if it was silent.  Driver exceptions of
    earlier attempts are swallowed. *)
Theorem send_frame_last_attempt_decides (frame : bytes) (retries : Z)
  (line : nat -> attempt) :
  0 < retries ->
  (forall j, (j < Z.to_nat retries)%nat -> is_quiet (line j) = true) ->
  snd (Transport._send_frame true frame retries line)
  = Raise (if is_fault (line (Z.to_nat retries - 1)%nat)
           then SerialException else NoResponse).
Proof.
  intros Hr Hq. unfold Transport._send_frame. cbn [negb].
  destruct (Z.to_nat retries) as [| todo] eqn:E; [lia |].
  rewrite (retry_loop_quiet frame line retries todo 0).
  - cbn [Nat.add]. replace (S todo - 1)%nat with todo by lia. reflexivity.
  - lia.
  - intros j Hj. apply Hq. lia.
Qed.

Lemma send_frame_last_attempt_decides_witness :
  snd (Transport._send_frame true [x11] 2
         (fun k => match k with O => Fault 3 | _ => Received [] end))
  = Raise (if is_fault ((fun k => match k with O => Fault 3 | _ => Received [] end)
                          (Z.to_nat 2 - 1)%nat)
           then SerialException else NoResponse).
Proof.
  apply (send_frame_last_attempt_decides [x11] 2
           (fun k => match k with O => Fault 3 | _ => Received [] end)).
  - lia.
  - intros j Hj. destruct j as [| j]; reflexivity.
Defined.

(** ** [read_data] *)

Lemma send_frame_bounded_aux (port_open : bool) (frame : bytes)
  (line : nat -> attempt) (resp : bytes) :
  snd (Transport._send_frame port_open frame 1 line) = Ok resp ->
  port_open = true /\
  exists chunks, line 0%nat = Received chunks /\ resp = concat chunks.
Proof.
  unfold Transport._send_frame. destruct port_open; cbn [negb]; [| discriminate].
  intros H. split; [reflexivity |].
  destruct (retry_loop_bounds frame line 1 (Z.to_nat 1) 0) as (_ & _ & Hr).
  destruct (Hr resp H) as (_ & k & chunks & Hk & Hl & He).
  change (Z.to_nat 1) with 1%nat in Hk.
  assert (k = 0%nat) by lia. subst k. eauto.
Qed.


Lemma parse1_raw (self : DLT645Protocol) (response : bytes) (p : parsed) :
  Read1._parse_response self response = Ok p -> r_raw p = response.
Proof.
  unfold Read1._parse_response.
  repeat match goal with
         | |- context [if ?c then _ else _] => destruct c; try discriminate
         | |- context [bind ?m _] =>
             destruct m as [? |]; cbn [bind]; try discriminate
         | |- context [let '(_, _) := ?x in _] => destruct x
         end.
  all: intros [= <-]; reflexivity.
Qed.

(** X17: once the request is built, [read_data] of dlt645_read_1.py never
    raises, whatever the port and the line do.  It ends with the 1.5 s
    pause exactly when it returns a parsed response, and with the 0.5 s
    pause when it returns [None]; a parsed response is always the parse of
    what the single attempt received. *)
Theorem read_data_outcome (self : DLT645Protocol) (port_open : bool)
  (data_id : Z) (line : nat -> attempt) (request : bytes) :
  Read1._build_frame self CMD_READ_DATA data_id = Ok request ->
  exists tr r,
    Transport.read_data self port_open data_id line
    = (tr ++ [Sleep (match r with Some _ => 1500 | None => 500 end)], Ok r) /\
    (forall p, r = Some p ->
       port_open = true /\
       exists chunks, line 0%nat = Received chunks /\
                      r_raw p = concat chunks /\
                      Read1._parse_response self (concat chunks) = Ok p).
Proof.
  intros Hb. unfold Transport.read_data. rewrite Hb.
  pose proof (send_frame_bounded_aux port_open request line) as Hs.
  destruct (Transport._send_frame port_open request 1 line) as [tr r].
  cbn [snd] in Hs.
  destruct r as [resp | e]; cbn [bind].
  - destruct (Read1._parse_response self resp) as [p | e] eqn:Hp.
    + exists tr, (Some p). split; [reflexivity |].
      intros p' [= <-]. destruct (Hs resp eq_refl) as (Ho & chunks & Hl & ->).
      split; [exact Ho |]. exists chunks.
      split; [exact Hl |]. split; [apply (parse1_raw self _ _ Hp) | exact Hp].
    + exists tr, None. split; [reflexivity | discriminate].
  - exists tr, None. split; [reflexivity | discriminate].
Qed.

Lemma read_data_outcome_witness :
  exists tr r,
    Transport.read_data {| address := [x01; x00; x00; x00; x00; x00] |}
      true 0 garbled_then_good
    = (tr ++ [Sleep (match r with Some _ => 1500 | None => 500 end)], Ok r) /\
    (forall p, r = Some p ->
       true = true /\
       exists chunks, garbled_then_good 0%nat = Received chunks /\
                      r_raw p = concat chunks /\
                      Read1._parse_response
                        {| address := [x01; x00; x00; x00; x00; x00] |}
                        (concat chunks) = Ok p).
Proof.
  apply (read_data_outcome {| address := [x01; x00; x00; x00; x00; x00] |}
           true 0 garbled_then_good
           [x68; x01; x00; x00; x00; x00; x00; x68; x11; x04;
            x33; x33; x33; x33; xb2; x16]).
  vm_compute. reflexivity.
Defined.

Lemma split_identified_field (id : Z) (payload : bytes) :
  0 <= id < 2 ^ 32 ->
  split_data_field (le_bytes id 4 ++ payload) = (Some id, payload).
Proof.
  intros Hid. unfold split_data_field.
  rewrite length_app, le_bytes_length. cbn [Nat.add Nat.leb].
  cbn [le_bytes app firstn skipn].
  change [low_byte id; low_byte (id / 256); low_byte (id / 256 / 256);
          low_byte (id / 256 / 256 / 256)] with (le_bytes id 4).
  rewrite (proj2 (to_bytes_little_ok id 4 Hid)). reflexivity.
Qed.

(** X18: a well-formed answer is read back whole.  If the first attempt
    receives, in any number of chunks, a frame built for the same address
    with identifier [id] and some payload, [read_data] returns that
    payload, the identifier and the answer's control code after a single
    exchange, and ends with the 1.5 s pause. *)
Theorem answer_is_read_back (self : DLT645Protocol) (c id : Z)
  (payload answer : bytes) (line : nat -> attempt) (chunks : list bytes) :
  length (address self) = 6%nat ->
  Read._build_frame self c (Some id) (Some payload) = Ok answer ->
  line 0%nat = Received chunks ->
  concat chunks = answer ->
  exists request,
    Read1._build_frame self CMD_READ_DATA id = Ok request /\
    Transport.read_data self true id line
    = (full_sequence request ++ [Sleep 1500],
       Ok (Some {| r_address := []; r_control := c; r_data_id := Some id;
                   r_data := payload; r_raw := answer |})).
Proof.
  intros Haddr Hb Hl Hc.
  assert (Hok : exists fr, Read._build_frame self c (Some id) (Some payload) = Ok fr)
    by eauto.
  apply build_frame_Ok_iff in Hok as (_ & Hfit & Hmask & _).
  unfold data_field_of in Hmask. cbn [id_bytes payload_of identifier_fits] in *.
  assert (Hid : 0 <= id < 2 ^ 32).
  { apply andb_true_iff in Hfit as [H0 H1].
    apply Z.leb_le in H0. apply Z.ltb_lt in H1. lia. }
  unfold maskable in Hmask. rewrite forallb_app in Hmask.
  apply andb_true_iff in Hmask as [Hmid _].
  assert (Hreq : exists request,
             Read._build_frame self CMD_READ_DATA (Some id) None = Ok request).
  { apply build_frame_Ok_iff. unfold data_field_of.
    cbn [id_bytes payload_of identifier_fits]. rewrite app_nil_r.
    split; [unfold CMD_READ_DATA; lia |]. split; [exact Hfit |].
    split; [exact Hmid | rewrite le_bytes_length; lia]. }
  destruct Hreq as (request & Hreq). exists request.
  rewrite build1_eq. split; [exact Hreq |].
  unfold Transport.read_data. rewrite build1_eq, Hreq.
  destruct (parse_built_frame self c (Some id) (Some payload) answer Haddr Hb)
    as (_ & Hlen & Hp).
  unfold data_field_of in Hp. cbn [id_bytes payload_of] in Hp.
  rewrite (split_identified_field id payload Hid) in Hp. cbn [fst snd] in Hp.
  assert (Hns : is_silent (line 0%nat) = false).
  { rewrite Hl. cbn [is_silent]. rewrite Hc.
    destruct answer; [cbn in Hlen; lia | reflexivity]. }
  unfold Transport._send_frame. cbn [negb]. change (Z.to_nat 1) with 1%nat.
  rewrite (retry_loop_answer request line 1 chunks 0 1 0); try assumption;
    try reflexivity; try lia.
  cbn [waited_trace app bind]. rewrite Hc.
  rewrite (parse1_of_parse self answer _ Hp). reflexivity.
Qed.

Lemma answer_is_read_back_witness :
  exists request,
    Read1._build_frame {| address := [x01; x00; x00; x00; x00; x00] |}
      CMD_READ_DATA 0x00010000 = Ok request /\
    Transport.read_data {| address := [x01; x00; x00; x00; x00; x00] |} true
      0x00010000
      (fun _ => Received [[x68; x01; x00; x00; x00; x00; x00; x68];
                          [x91; x08; x33; x33; x34; x33];
                          [xab; x89; x67; x45; x17; x16]])
    = (full_sequence request ++ [Sleep 1500],
       Ok (Some {| r_address := []; r_control := 0x91;
                   r_data_id := Some 0x00010000;
                   r_data := [x78; x56; x34; x12];
                   r_raw := [x68; x01; x00; x00; x00; x00; x00; x68;
                             x91; x08; x33; x33; x34; x33;
                             xab; x89; x67; x45; x17; x16] |})).
Proof.
  apply (answer_is_read_back {| address := [x01; x00; x00; x00; x00; x00] |}
           0x91 0x00010000 [x78; x56; x34; x12]
           [x68; x01; x00; x00; x00; x00; x00; x68;
            x91; x08; x33; x33; x34; x33; xab; x89; x67; x45; x17; x16]
           (fun _ => Received [[x68; x01; x00; x00; x00; x00; x00; x68];
                               [x91; x08; x33; x33; x34; x33];
                               [xab; x89; x67; x45; x17; x16]])
           [[x68; x01; x00; x00; x00; x00; x00; x68];
            [x91; x08; x33; x33; x34; x33];
            [xab; x89; x67; x45; x17; x16]]).
  - reflexivity.
  - vm_compute. reflexivity.
  - reflexivity.
  - reflexivity.
Defined.

(** ** The reading session *)

Lemma str_eqb_eq (s t : str) : str_eqb s t = true <-> s = t.
Proof.
  revert t. induction s as [| c s IH]; intros [| d t]; cbn;
    try (split; [discriminate | discriminate]); [split; reflexivity |].
  rewrite andb_true_iff, Ascii.eqb_eq, IH.
  split; [intros [-> ->]; reflexivity | intros [= -> ->]; split; reflexivity].
Qed.

Lemma dict_get_set (d : Session.dict) (k k' : str) (v : Q) :
  Session.dict_get (Session.dict_set d k v) k'
  = if str_eqb k k' then Some v else Session.dict_get d k'.
Proof.
  induction d as [| [k0 w] d IH]; cbn [Session.dict_set Session.dict_get].
  - reflexivity.
  - destruct (str_eqb k0 k) eqn:E0; cbn [Session.dict_get].
    + apply str_eqb_eq in E0. subst k0. destruct (str_eqb k k'); reflexivity.
    + rewrite IH. destruct (str_eqb k0 k') eqn:E1; [| reflexivity].
      destruct (str_eqb k k') eqn:E2; [| reflexivity].
      apply str_eqb_eq in E1, E2. subst k0 k'.
      rewrite (proj2 (str_eqb_eq k k) eq_refl) in E0. discriminate E0.
Qed.

Lemma runs_bind {A B : Type} (P : Session.state -> Prop) (m : Session.M A)
  (Q : A -> Session.state -> Prop) (k : A -> Session.M B)
  (R : B -> Session.state -> Prop) :
  runs P m Q -> (forall a, runs (Q a) (k a) R) -> runs P (Session.bindM m k) R.
Proof.
  intros Hm Hk s Hs. destruct (Hm s Hs) as (a & s' & E & Hq).
  destruct (Hk a s' Hq) as (b & s'' & E' & Hr).
  exists b, s''. unfold Session.bindM. rewrite E. split; assumption.
Qed.

Lemma runs_ret {A : Type} (P : Session.state -> Prop) (a : A) :
  runs P (Session.ret a) (fun _ => P).
Proof. intros s Hs. exists a, s. split; [reflexivity | exact Hs]. Qed.

Lemma exchange_once_no_pacing (frame : bytes) (a : attempt) :
  count_events is_pacing (fst (exchange_once frame a)) = 0%nat.
Proof. destruct a as [chunks | [| [| [| [| n]]]]]; reflexivity. Qed.

Lemma retry_loop_no_pacing (frame : bytes) (line : nat -> attempt) (retries : Z)
  (todo attempt : nat) :
  count_events is_pacing
    (fst (Transport.retry_loop frame line retries todo attempt)) = 0%nat.
Proof.
  revert attempt. induction todo as [| todo IH]; intros attempt; [reflexivity |].
  rewrite retry_loop_S.
  pose proof (exchange_once_no_pacing frame (line attempt)) as H1.
  destruct (exchange_once frame (line attempt)) as [tr r]. cbn [fst] in H1.
  specialize (IH (S attempt)).
  destruct (Transport.retry_loop frame line retries todo (S attempt)) as [tr' r'].
  cbn [fst] in IH.
  assert (Hp : count_events is_pacing
                 (if Z.of_nat attempt <? retries - 1 then [Sleep 1000] else [])
               = 0%nat)
    by (destruct (Z.of_nat attempt <? retries - 1); reflexivity).
  destruct r as [[| b resp] | e]; cbn [fst].
  - rewrite !count_events_app, H1, Hp, IH. reflexivity.
  - exact H1.
  - destruct (Z.of_nat attempt <? retries - 1); cbn [fst].
    + rewrite !count_events_app, H1, IH. reflexivity.
    + exact H1.
Qed.

(** One call of [read_data] for an identifier whose request can be built. *)
Lemma read_data_shape (meter : DLT645Protocol) (di : Z) (line : nat -> attempt) :
  0 <= di < 2 ^ 32 -> maskable (le_bytes di 4) = true ->
  exists tr r,
    Transport.read_data meter true di line = (tr, Ok r) /\
    count_events is_pacing tr = 1%nat.
Proof.
  intros Hdi Hmask.
  assert (Hreq : exists request,
             Read._build_frame meter CMD_READ_DATA (Some di) None = Ok request).
  { apply build_frame_Ok_iff. unfold data_field_of.
    cbn [id_bytes payload_of identifier_fits]. rewrite app_nil_r.
    split; [unfold CMD_READ_DATA; lia |].
    split; [apply andb_true_iff; split; [apply Z.leb_le | apply Z.ltb_lt]; lia |].
    split; [exact Hmask | rewrite le_bytes_length; lia]. }
  destruct Hreq as (request & Hreq).
  unfold Transport.read_data. rewrite build1_eq, Hreq.
  unfold Transport._send_frame. cbn [negb].
  pose proof (retry_loop_no_pacing request line 1 (Z.to_nat 1) 0) as Hp.
  destruct (Transport.retry_loop request line 1 (Z.to_nat 1) 0) as [tr r].
  cbn [fst] in Hp.
  destruct (response <- r ;; Read1._parse_response meter response)%py as [p | e].
  - exists (tr ++ [Sleep 1500]), (Some p). split; [reflexivity |].
    rewrite count_events_app, Hp. reflexivity.
  - exists (tr ++ [Sleep 500]), None. split; [reflexivity |].
    rewrite count_events_app, Hp. reflexivity.
Qed.

Lemma catalog_entry_ok (n : nat) (e : entry) :
  nth_error catalog n = Some e ->
  0 <= e_di e < 2 ^ 32 /\ maskable (le_bytes (e_di e) 4) = true /\
  (forall d, exists v, e_decode e d = Ok v).
Proof.
  intros H.
  do 30 (destruct n as [| n];
         [injection H as <-; cbn [e_di e_decode];
          split; [split; [lia | reflexivity] |];
          split; [vm_compute; reflexivity |];
          intros d; cbn beta;
          destruct (decoders_never_raise d 3) as (H1 & H2 & H3 & H4 & H5);
          destruct (decoders_never_raise d 2) as (_ & _ & _ & _ & H6);
          first [exact H1 | exact H2 | exact H3 | exact H4 | exact H5 | exact H6] |]).
  destruct n; discriminate H.
Qed.

Lemma catalog_keys_distinct (i j : nat) (ei ej : entry) :
  nth_error catalog i = Some ei -> nth_error catalog j = Some ej ->
  e_key ei = e_key ej -> i = j.
Proof.
  intros Hi Hj Hk.
  assert (Hc : keys_checked = true) by (vm_compute; reflexivity).
  unfold keys_checked in Hc. rewrite forallb_forall in Hc.
  assert (Li : (i < 30)%nat).
  { change 30%nat with (length catalog). apply nth_error_Some. congruence. }
  assert (Lj : (j < 30)%nat).
  { change 30%nat with (length catalog). apply nth_error_Some. congruence. }
  specialize (Hc i). rewrite forallb_forall in Hc.
  assert (Hc' := Hc ltac:(apply in_seq; lia) j ltac:(apply in_seq; lia)).
  assert (Ki : nth i (map e_key catalog) [] = e_key ei).
  { apply nth_error_nth. rewrite nth_error_map, Hi. reflexivity. }
  assert (Kj : nth j (map e_key catalog) [] = e_key ej).
  { apply nth_error_nth. rewrite nth_error_map, Hj. reflexivity. }
  rewrite Ki, Kj, Hk in Hc'.
  rewrite (proj2 (str_eqb_eq _ _) eq_refl) in Hc'. cbn [implb] in Hc'.
  apply Nat.eqb_eq. exact Hc'.
Qed.

Lemma dict_set_nonzero (d : Session.dict) (key : str) (q : Q) :
  all_nonzero d -> Qeq_bool q 0 = false ->
  all_nonzero (Session.dict_set d key q).
Proof.
  intros Hd Hq. induction Hd as [| [k w] tl Hk Htl IH]; cbn [Session.dict_set].
  - constructor; [exact Hq | constructor].
  - destruct (str_eqb k key).
    + constructor; [exact Hq | exact Htl].
    + constructor; [exact Hk | exact IH].
Qed.

Lemma dict_get_nonzero (d : Session.dict) (key : str) (q : Q) :
  all_nonzero d -> Session.dict_get d key = Some q -> Qeq_bool q 0 = false.
Proof.
  intros Hd. induction Hd as [| [k w] tl Hk Htl IH]; cbn [Session.dict_get].
  - discriminate.
  - destruct (str_eqb k key); [| exact IH].
    intros [= <-]. exact Hk.
Qed.

Lemma truthy_nonzero (v : option Q) (q : Q) :
  Session.truthy v = Some q -> Qeq_bool q 0 = false.
Proof.
  unfold Session.truthy. destruct v as [w |]; [| discriminate].
  destruct (Qeq_bool w 0) eqn:E; [discriminate |].
  intros [= <-]. exact E.
Qed.

(** One request of the session, from the state after [n] requests. *)
Lemma session_step (meter : DLT645Protocol) (lines : nat -> nat -> attempt)
  (n : nat) (di : Z) (dec : bytes -> result (option Q)) (key : str) :
  nth_error catalog n = Some {| e_di := di; e_decode := dec; e_key := key |} ->
  runs (session_inv meter lines n)
       (Session.bindM (Session.read_data lines meter di)
                      (Session.log_decoded dec key))
       (fun _ => session_inv meter lines (S n)).
Proof.
  intros Hn s (Hreq & Hpace & Hlog & Hnz).
  destruct (catalog_entry_ok n _ Hn) as (Hdi & Hmask & Hdec).
  cbn [e_di e_decode] in Hdi, Hmask, Hdec.
  destruct (read_data_shape meter di (lines n) Hdi Hmask) as (tr & r & Hrd & Hcount).
  assert (Hlg : logged meter {| e_di := di; e_decode := dec; e_key := key |}
                  (lines n)
                = match r with
                  | Some p => match dec (r_data p) with
                              | Ok v => Session.truthy v
                              | Raise _ => None
                              end
                  | None => None
                  end).
  { unfold logged. cbn [e_di e_decode]. rewrite Hrd. destruct r; reflexivity. }
  assert (Hold : forall i e', nth_error catalog i = Some e' -> i <> n ->
             (if (i <? n)%nat then logged meter e' (lines i) else None)
             = (if (i <? S n)%nat then logged meter e' (lines i) else None)).
  { intros i e' _ Hi.
    destruct (Nat.ltb_spec i n); destruct (Nat.ltb_spec i (S n)); try lia;
      reflexivity. }
  assert (Hnew : forall e', nth_error catalog n = Some e' ->
             (if (n <? S n)%nat then logged meter e' (lines n) else None)
             = logged meter {| e_di := di; e_decode := dec; e_key := key |}
                 (lines n)).
  { intros e' He. rewrite Hn in He. injection He as <-.
    replace (n <? S n)%nat with true by (symmetry; apply Nat.ltb_lt; lia).
    reflexivity. }
  assert (Hkeep : forall (s' : Session.state),
             Session.requests s' = S n ->
             count_events is_pacing (Session.trace s') = S n ->
             Session.readings s' = Session.readings s ->
             logged meter {| e_di := di; e_decode := dec; e_key := key |}
               (lines n) = None ->
             session_inv meter lines (S n) s').
  { intros s' H1 H2 H3 H4. split; [exact H1 |]. split; [exact H2 |].
    split; [| rewrite H3; exact Hnz].
    intros i e' Hi. rewrite H3, (Hlog i e' Hi).
    destruct (Nat.eq_dec i n) as [-> | Hne].
    - rewrite (Hnew e' Hi), H4.
      replace (n <? n)%nat with false by (symmetry; apply Nat.ltb_irrefl).
      reflexivity.
    - apply Hold; assumption. }
  unfold Session.bindM, Session.read_data. rewrite Hreq, Hrd.
  destruct r as [p |]; cbn [Session.log_decoded].
  - destruct (Hdec (r_data p)) as (v & Hv). rewrite Hv in Hlg.
    unfold Session.bindM, Session.lift. rewrite Hv.
    unfold Session.log_if_truthy.
    destruct (Session.truthy v) as [q |] eqn:Hq.
    + eexists tt, _. split; [reflexivity |].
      split; [reflexivity |]. split; [| split].
      * cbn [Session.trace]. rewrite count_events_app. lia.
      * intros i e' Hi. cbn [Session.readings]. rewrite dict_get_set.
        destruct (str_eqb key (e_key e')) eqn:Ek.
        -- apply str_eqb_eq in Ek.
           assert (i = n).
           { apply (catalog_keys_distinct i n e' _ Hi Hn). symmetry. exact Ek. }
           subst i. rewrite (Hnew e' Hi), Hlg. reflexivity.
        -- rewrite (Hlog i e' Hi). apply Hold; [exact Hi |].
           intros ->. rewrite Hn in Hi. injection Hi as <-. cbn [e_key] in Ek.
           rewrite (proj2 (str_eqb_eq key key) eq_refl) in Ek. discriminate Ek.
      * cbn [Session.readings]. apply dict_set_nonzero; [exact Hnz |].
        exact (truthy_nonzero v q Hq).
    + eexists tt, _. split; [reflexivity |].
      apply Hkeep; try reflexivity; [| exact Hlg].
      cbn [Session.trace]. rewrite count_events_app. lia.
  - eexists tt, _. split; [reflexivity |].
    apply Hkeep; try reflexivity; [| exact Hlg].
    cbn [Session.trace]. rewrite count_events_app. lia.
Qed.

Lemma log_decoded_nonempty_generic (dp : Z) (key : str) (r : option parsed)
  (s : Session.state) :
  Session.log_decoded_nonempty (fun d => decode_generic_bcd d dp) key r s
  = Session.log_decoded (fun d => decode_generic_bcd d dp) key r s.
Proof.
  destruct r as [p |]; [| reflexivity].
  cbn [Session.log_decoded_nonempty Session.log_decoded].
  destruct (r_data p); reflexivity.
Qed.

Lemma session_step_nonempty (meter : DLT645Protocol)
  (lines : nat -> nat -> attempt) (n : nat) (di dp : Z) (key : str) :
  nth_error catalog n
  = Some {| e_di := di; e_decode := fun d => decode_generic_bcd d dp;
            e_key := key |} ->
  runs (session_inv meter lines n)
       (Session.bindM (Session.read_data lines meter di)
          (Session.log_decoded_nonempty (fun d => decode_generic_bcd d dp) key))
       (fun _ => session_inv meter lines (S n)).
Proof.
  intros Hn s Hs. destruct (session_step meter lines n di _ key Hn s Hs)
    as (a & s' & E & Hinv).
  exists a, s'. split; [| exact Hinv].
  unfold Session.bindM in *.
  destruct (Session.read_data lines meter di s) as [s1 [r1 | e1]];
    [| exact E].
  rewrite log_decoded_nonempty_generic. exact E.
Qed.

(** A request followed by the rest of the session. *)
Lemma runs_then {A : Type} (P Q : Session.state -> Prop) (m : Session.M unit)
  (rest : Session.M A) (R : A -> Session.state -> Prop) :
  runs P m (fun _ => Q) -> runs Q rest R ->
  runs P (Session.bindM m (fun _ => rest)) R.
Proof. intros Hm Hr. apply (runs_bind P m (fun _ => Q)); [exact Hm | intros _; exact Hr]. Qed.

Lemma runs_request {A : Type} (P Q : Session.state -> Prop)
  (rd : Session.M (option parsed)) (lg : option parsed -> Session.M unit)
  (rest : Session.M A) (R : A -> Session.state -> Prop) :
  runs P (Session.bindM rd lg) (fun _ => Q) -> runs Q rest R ->
  runs P (Session.bindM rd (fun r => Session.bindM (lg r) (fun _ => rest))) R.
Proof.
  intros Hm Hr s Hs. destruct (Hm s Hs) as (a & s' & E & Hq).
  destruct (Hr s' Hq) as (b & s'' & E' & HR).
  exists b, s''. split; [| exact HR].
  unfold Session.bindM in *.
  destruct (rd s) as [s1 [r1 | e1]]; [| discriminate E].
  rewrite E. exact E'.
Qed.

Ltac session_go :=
  lazymatch goal with
  | |- runs _ (Session.ret _) _ => apply runs_ret
  | |- runs _ (Session.bindM (Session.read_data _ _ _) _) _ =>
      first
        [ apply session_step; reflexivity
        | apply session_step_nonempty; reflexivity
        | eapply runs_request;
          [ first [ apply session_step; reflexivity
                  | apply session_step_nonempty; reflexivity ]
          | session_go ] ]
  | |- runs _ (Session.bindM _ (fun _ => _)) _ =>
      eapply runs_then; [session_go | session_go]
  end.

Lemma read_everything_runs (meter : DLT645Protocol)
  (lines : nat -> nat -> attempt) :
  runs (session_inv meter lines 0) (Session.read_everything lines meter)
       (fun _ => session_inv meter lines 30).
Proof.
  unfold Session.read_everything, Session.tariff_dis, Session.phases_v,
    Session.phases_i, Session.phases_p, Session.phases_q, Session.phases_pf.
  cbn [Session.for_eachM].
  session_go.
Qed.

(** The whole session on an open port, from the empty log. *)
Lemma session_runs (meter : DLT645Protocol) (lines : nat -> nat -> attempt) :
  exists s,
    Session.bindM (Session.connect true)
      (fun _ => Session.read_everything lines meter)
      {| Session.trace := []; Session.requests := 0; Session.readings := [] |}
    = (s, Ok tt)
    /\ session_inv meter lines 30 s.
Proof.
  destruct (read_everything_runs meter lines
              {| Session.trace := [Sleep 300; ResetInput; ResetOutput];
                 Session.requests := 0; Session.readings := [] |})
    as ([] & s & E & Hinv).
  { split; [reflexivity |]. split; [reflexivity |]. split.
    - intros i e _. destruct (i <? 0)%nat eqn:Hi; [| reflexivity].
      apply Nat.ltb_lt in Hi. lia.
    - constructor. }
  exists s. split; [| exact Hinv].
  unfold Session.bindM, Session.connect. cbn [Session.trace app]. exact E.
Qed.


(** X20: each reading of the log comes from its own request alone.  After
    a session on an open port, the value under the key of the [n]-th
    request is the non-zero value decoded from the response to that
    request, and the key is absent when that request failed or decoded to
    nothing or to zero: a failed request neither stops the session nor
    changes another reading. *)
Theorem session_log_by_request (lines : nat -> nat -> attempt)
  (address_ : str) (addr : bytes) (tr : list event) (ok : bool)
  (log : Session.dict) (n : nat) (e : entry) :
  _format_address address_ = Ok addr ->
  Session.read_all_meter_data lines address_ true = Ok (tr, (ok, Some log)) ->
  nth_error catalog n = Some e ->
  Session.dict_get log (e_key e) = logged {| address := addr |} e (lines n).
Proof.
  intros Haddr Hrun Hn. unfold Session.read_all_meter_data in Hrun.
  rewrite Haddr in Hrun. cbn [bind] in Hrun.
  destruct (session_runs {| address := addr |} lines)
    as (s & E & _ & _ & Hlog & _).
  rewrite E in Hrun. injection Hrun as _ _ <-.
  rewrite (Hlog n e Hn).
  assert (Hlt : (n < 30)%nat).
  { change 30%nat with (length catalog). apply nth_error_Some.
    rewrite Hn. discriminate. }
  apply Nat.ltb_lt in Hlt. rewrite Hlt. reflexivity.
Qed.

Lemma session_log_by_request_witness :
  Session.dict_get [(lit "total_active_energy", 6172839 # 50)]
    (lit "total_active_energy")
  = logged {| address := [x01; x00; x00; x00; x00; x00] |}
      {| e_di := 0; e_decode := decode_energy;
         e_key := lit "total_active_energy" |}
      (first_answers 0).
Proof.
  eapply (session_log_by_request first_answers (lit "1")
            [x01; x00; x00; x00; x00; x00] _ true
            [(lit "total_active_energy", 6172839 # 50)] 0
            {| e_di := 0; e_decode := decode_energy;
               e_key := lit "total_active_energy" |}).
  - vm_compute. reflexivity.
  - vm_compute. reflexivity.
  - reflexivity.
Defined.

(** X21: no reading of the log is zero.  A decoder's result is stored
    under [if value:], so a register that reads 0.00 leaves no entry, like
    a register that was not answered. *)
Theorem session_never_logs_zero (lines : nat -> nat -> attempt)
  (address_ : str) (tr : list event) (ok : bool) (log : Session.dict)
  (key : str) (q : Q) :
  Session.read_all_meter_data lines address_ true = Ok (tr, (ok, Some log)) ->
  Session.dict_get log key = Some q ->
  ~ (q == 0)%Q.
Proof.
  intros Hrun Hget. unfold Session.read_all_meter_data in Hrun.
  destruct (_format_address address_) as [addr | err]; [| discriminate Hrun].
  cbn [bind] in Hrun.
  destruct (session_runs {| address := addr |} lines)
    as (s & E & _ & _ & _ & Hnz).
  rewrite E in Hrun. injection Hrun as _ _ <-.
  pose proof (dict_get_nonzero _ _ _ Hnz Hget) as Hq.
  intros Hz. apply Qeq_bool_iff in Hz. rewrite Hz in Hq. discriminate Hq.
Qed.

Lemma session_never_logs_zero_witness : ~ (6172839 # 50 == 0)%Q.
Proof.
  eapply (session_never_logs_zero first_answers (lit "1") _ true
            [(lit "total_active_energy", 6172839 # 50)]
            (lit "total_active_energy") (6172839 # 50)).
  - vm_compute. reflexivity.
  - reflexivity.
Defined.

(** ** Discovery *)




Lemma discover_loop_stuck (meter : DLT645Protocol)
  (lines : nat -> nat -> attempt) (end_ step : Z) :
  step <= 0 ->
  forall (fuel : nat) (di : Z) (n : nat) (tr : list event)
         (found : list (Z * bytes)),
    di <= end_ ->
    Discovery.discover_loop meter lines end_ step fuel di n tr found = None.
Proof.
  intros Hs. induction fuel as [| fuel IH]; intros di n tr found Hd.
  - reflexivity.
  - cbn [Discovery.discover_loop].
    replace (di <=? end_) with true by (symmetry; apply Z.leb_le; exact Hd).
    destruct (Transport.read_data meter true di (lines n)) as [t r].
    apply IH. lia.
Qed.



(** X23: with a step of zero or below and [start <= end_] the loop of
    [discover_data_ids] never ends: the identifier never passes [end_],
    whatever the line answers. *)
Theorem discovery_never_ends (meter : DLT645Protocol)
  (lines : nat -> nat -> attempt) (fuel : nat) (start end_ step : Z) :
  step <= 0 -> start <= end_ ->
  Discovery.discover_data_ids meter lines fuel start end_ step = None.
Proof.
  intros Hs Hd. unfold Discovery.discover_data_ids.
  apply discover_loop_stuck; assumption.
Qed.

Lemma discovery_never_ends_witness :
  Discovery.discover_data_ids {| address := [x01; x00; x00; x00; x00; x00] |}
    first_answers 1000 0 0xFFFFFF 0
  = None.
Proof.
  apply (discovery_never_ends
           {| address := [x01; x00; x00; x00; x00; x00] |} first_answers
           1000 0 0xFFFFFF 0); lia.
Defined.
